(** * AIPlaysPokemon: the OpenAI agent (src/agent/openai_agent.py)

    A shallow embedding of [OpenAIAgent] and of the helpers it relies on,
    followed by the properties of the step loop, the tool dispatcher and the
    summarization of the message history.

    Conventions.
    - A Python [str] is a Rocq [string] holding its UTF-8 bytes.
    - A Python [int] is a [Z].
    - The emulator facade ([agent.emulator.Emulator]) and the OpenAI client
      are external: they are interfaces ([EmulatorFacade], [ChatClient]) over
      an abstract world, and each of their operations may return or raise.
    - The limits the interpreter puts on [json.loads] (digits of an integer,
      depth of nesting) are parameters ([Interpreter]).
    - Calls to [logger] only write to the log; they are left out. *)

From Stdlib Require Import ZArith String Ascii List Bool Lia DecimalString.
From Stdlib Require Import Init.Byte.
Import ListNotations.
Local Open Scope string_scope.
Local Open Scope Z_scope.

Set Implicit Arguments.
Set Warnings "-register-all".

(* ===================================================================== *)
(** ** Python values shared by the whole development *)
(* ===================================================================== *)

Module Py.

(** What a [raise] carries.  [KeyboardInterrupt] derives from
    [BaseException] only, so [except Exception] does not catch it; every
    other exception the program can meet is an [Exception], carried here
    with its class name and its [str(e)]. *)
Inductive exn : Type :=
| KeyboardInterrupt
| Exception (cls : string) (msg : string).

Inductive result (A : Type) : Type :=
| Ok (a : A)
| Raise (e : exn).
Arguments Ok {A} a.
Arguments Raise {A} e.

Definition is_Exception (e : exn) : bool :=
  match e with
  | KeyboardInterrupt => false
  | Exception _ _ => true
  end.

(** [str(e)] *)
Definition str_exn (e : exn) : string :=
  match e with
  | KeyboardInterrupt => ""
  | Exception _ msg => msg
  end.

(** [str(n)] for an [int] *)
Definition str_int (n : Z) : string := NilZero.string_of_int (Z.to_int n).

(** [sep.join(items)] for a list of [str] *)
Fixpoint join (sep : string) (items : list string) : string :=
  match items with
  | [] => ""
  | [x] => x
  | x :: rest => x ++ sep ++ join sep rest
  end.

(** [a or b] on a value that is [None], an empty string or a string *)
Definition or_str (a : option string) (b : string) : string :=
  match a with
  | None => b
  | Some "" => b
  | Some s => s
  end.

(** Truth value of an optional string *)
Definition truthy_str (a : option string) : bool :=
  match a with
  | None | Some "" => false
  | Some _ => true
  end.

(** [s in t] for strings: [s] occurs in [t] *)
Definition contains (t s : string) : Prop :=
  exists pre post, t = pre ++ s ++ post.

Definition starts_with (t s : string) : Prop :=
  exists post, t = s ++ post.

(** The characters of a [str], one UTF-8 sequence each: a byte of the form
    [10xxxxxx] continues the character before it. *)
Definition is_continuation (c : ascii) : bool :=
  let n := Z.of_N (N_of_ascii c) in (128 <=? n) && (n <? 192).

Fixpoint utf8_chars_aux (cur : string) (s : string) : list string :=
  match s with
  | EmptyString => [cur]
  | String c rest =>
      if is_continuation c
      then utf8_chars_aux (cur ++ String c EmptyString) rest
      else cur :: utf8_chars_aux (String c EmptyString) rest
  end.

Definition utf8_chars (s : string) : list string :=
  match s with
  | EmptyString => []
  | String c rest => utf8_chars_aux (String c EmptyString) rest
  end.

End Py.
Export Py.

(* ===================================================================== *)
(** ** base64.standard_b64encode *)
(* ===================================================================== *)

Module Base64.

Definition alphabet : string :=
  "ABCDEFGHIJKLMNOPQRSTUVWXYZabcdefghijklmnopqrstuvwxyz0123456789+/".

Definition sextet (n : Z) : string :=
  match String.get (Z.to_nat (Z.land n 63)) alphabet with
  | Some c => String c EmptyString
  | None => ""
  end.

Definition byteZ (b : byte) : Z := Z.of_N (Byte.to_N b).

(** Three input bytes give four characters; a last group of one or two
    bytes is padded with [=]. *)
Fixpoint standard_b64encode (bs : list byte) : string :=
  match bs with
  | [] => ""
  | [a] =>
      let n := Z.shiftl (byteZ a) 16 in
      sextet (Z.shiftr n 18) ++ sextet (Z.shiftr n 12) ++ "=="
  | [a; b] =>
      let n := Z.lor (Z.shiftl (byteZ a) 16) (Z.shiftl (byteZ b) 8) in
      sextet (Z.shiftr n 18) ++ sextet (Z.shiftr n 12)
        ++ sextet (Z.shiftr n 6) ++ "="
  | a :: b :: c :: rest =>
      let n := Z.lor (Z.lor (Z.shiftl (byteZ a) 16) (Z.shiftl (byteZ b) 8))
                     (byteZ c) in
      sextet (Z.shiftr n 18) ++ sextet (Z.shiftr n 12)
        ++ sextet (Z.shiftr n 6) ++ sextet n
        ++ standard_b64encode rest
  end.

End Base64.

(* ===================================================================== *)
(** ** Frames and [get_screenshot_base64] *)
(* ===================================================================== *)

(** The content of a PIL image, as far as the agent looks at it. *)
Record Image : Type := mkImage {
  width : Z;
  height : Z;
  pixels : list byte
}.

(** Pillow is a library: [Image.resize] and the PNG writer behind
    [Image.save(buffer, format="PNG")] are taken as functions of the image
    content. *)
Class Pillow : Type := {
  pil_resize : Image -> Z * Z -> Image;
  pil_save_png : Image -> list byte
}.

Section Screenshot.
Context {PIL : Pillow}.

(** [get_screenshot_base64(screenshot, upscale=1)], on image values. *)
Definition get_screenshot_base64 (screenshot : Image) (upscale : Z) : string :=
  let screenshot :=
    if upscale >? 1
    then pil_resize screenshot (width screenshot * upscale,
                                height screenshot * upscale)
    else screenshot in
  let buffered := pil_save_png screenshot in
  Base64.standard_b64encode buffered.

(** The same function on image objects.  A PIL image is a mutable object;
    the heap holds the images allocated so far and a frame is an address in
    it.  [resize] allocates a new image and rebinds the local name
    [screenshot]; [save] reads the image and writes into a fresh buffer. *)
Definition heap : Type := list Image.
Definition addr : Type := nat.

Definition heap_alloc (h : heap) (i : Image) : addr * heap :=
  (length h, (h ++ [i])%list).

Definition get_screenshot_base64_obj (screenshot : addr) (upscale : Z)
    (h : heap) : option (string * heap) :=
  match nth_error h screenshot with
  | None => None
  | Some img =>
      let '(screenshot, h) :=
        if upscale >? 1
        then heap_alloc h (pil_resize img (width img * upscale,
                                           height img * upscale))
        else (screenshot, h) in
      match nth_error h screenshot with
      | None => None
      | Some img =>
          let buffered := pil_save_png img in
          Some (Base64.standard_b64encode buffered, h)
      end
  end.

End Screenshot.

(* ===================================================================== *)
(** ** json.loads *)
(* ===================================================================== *)

(** What the interpreter allows the decoder.  [int_max_str_digits] is
    [sys.get_int_max_str_digits()]: 4300 unless it was changed, 0 for no
    limit.  [recursion_room] is the number of containers, one inside the
    other, that the stack has room for when [json.loads] is called: one at
    least (994 for a call made at the top level under the default recursion
    limit of 1000).  [decode_error_at k] is what comes of raising
    [JSONDecodeError] where the stack has room for [k] more levels: [None]
    when the exception is built and raised, and the [RecursionError] that
    takes its place when building it uses up the stack (on CPython 3.11,
    with fewer than three levels left). *)
Class Interpreter : Type := {
  int_max_str_digits : nat;
  recursion_room : positive;
  decode_error_at : nat -> option exn
}.

(** The decoder of the standard library ([json.decoder], [json.scanner]),
    followed function by function.  A float keeps the text it was read from.
    An integer literal that has more digits than the interpreter converts
    raises [ValueError], and containers nested deeper than the stack has
    room for raise [RecursionError], as does an error met so deep that the
    stack has no room for the [JSONDecodeError]: none of them is a
    [JSONDecodeError]. *)
Module Json.

Inductive value : Type :=
| JNull
| JBool (b : bool)
| JInt (n : Z)
| JFloat (lexeme : string)
| JStr (s : string)
| JArr (items : list value)
| JObj (members : list (string * value)).

(** [type(v).__name__] *)
Definition type_name (v : value) : string :=
  match v with
  | JNull => "NoneType"
  | JBool _ => "bool"
  | JInt _ => "int"
  | JFloat _ => "float"
  | JStr _ => "str"
  | JArr _ => "list"
  | JObj _ => "dict"
  end.

(** A [dict] keeps its keys in insertion order; storing under a key that is
    already there replaces the value and keeps the key's place. *)
Fixpoint dict_set (d : list (string * value)) (k : string) (v : value)
    : list (string * value) :=
  match d with
  | [] => [(k, v)]
  | (k', v') :: rest =>
      if String.eqb k' k then (k, v) :: rest
      else (k', v') :: dict_set rest k v
  end.

Fixpoint dict_get (d : list (string * value)) (k : string) : option value :=
  match d with
  | [] => None
  | (k', v) :: rest => if String.eqb k' k then Some v else dict_get rest k
  end.

(** The outcome of scanning a prefix of the text: a value and what
    follows it, a text that is not JSON ([JSONDecodeError]), or an exception
    of another class. *)
Inductive scan (A : Type) : Type :=
| Scanned (a : A) (rest : string)
| Malformed
| Refused (e : exn)
| OutOfFuel.
Arguments Scanned {A} a rest.
Arguments Malformed {A}.
Arguments Refused {A} e.
Arguments OutOfFuel {A}.

Definition is_ws (c : ascii) : bool :=
  Ascii.eqb c " " || Ascii.eqb c "009" || Ascii.eqb c "010" || Ascii.eqb c "013".

Fixpoint skip_ws (s : string) : string :=
  match s with
  | String c rest => if is_ws c then skip_ws rest else s
  | EmptyString => s
  end.

Definition code (c : ascii) : Z := Z.of_N (N_of_ascii c).
Definition chr (n : Z) : ascii := ascii_of_N (Z.to_N n).

Definition is_digit (c : ascii) : bool := (48 <=? code c) && (code c <=? 57).

Definition hex_digit (c : ascii) : option Z :=
  let n := code c in
  if (48 <=? n) && (n <=? 57) then Some (n - 48)
  else if (65 <=? n) && (n <=? 70) then Some (n - 55)
  else if (97 <=? n) && (n <=? 102) then Some (n - 87)
  else None.

Definition hex4 (a b c d : ascii) : option Z :=
  match hex_digit a, hex_digit b, hex_digit c, hex_digit d with
  | Some x, Some y, Some z, Some w => Some (((x * 16 + y) * 16 + z) * 16 + w)
  | _, _, _, _ => None
  end.

(** [chr(n)] as UTF-8; a lone surrogate is written on three bytes. *)
Definition utf8 (n : Z) : string :=
  let one (b : Z) := String (chr b) EmptyString in
  let cont (k : Z) := one (128 + Z.land (Z.shiftr n k) 63) in
  if n <? 128 then one n
  else if n <? 2048 then one (192 + Z.shiftr n 6) ++ cont 0
  else if n <? 65536 then one (224 + Z.shiftr n 12) ++ cont 6 ++ cont 0
  else one (240 + Z.shiftr n 18) ++ cont 12 ++ cont 6 ++ cont 0.

(** [BACKSLASH] of [json.decoder] *)
Definition backslash (c : ascii) : option ascii :=
  if Ascii.eqb c "034" then Some "034"%char
  else if Ascii.eqb c "\" then Some "\"%char
  else if Ascii.eqb c "/" then Some "/"%char
  else if Ascii.eqb c "b" then Some "008"%char
  else if Ascii.eqb c "f" then Some "012"%char
  else if Ascii.eqb c "n" then Some "010"%char
  else if Ascii.eqb c "r" then Some "013"%char
  else if Ascii.eqb c "t" then Some "009"%char
  else None.

Definition snoc (acc : string) (c : ascii) : string :=
  acc ++ String c EmptyString.

(** [py_scanstring(s, end, strict=True)]: [s] starts after the opening
    quote, [acc] is the content read so far. *)
Fixpoint scanstring (s : string) (acc : string) : scan string :=
  match s with
  | EmptyString => Malformed
  | String c rest =>
      if Ascii.eqb c "034" then Scanned acc rest
      else if Ascii.eqb c "\" then
        match rest with
        | EmptyString => Malformed
        | String esc rest1 =>
            if Ascii.eqb esc "u" then
              match rest1 with
              | String h1 (String h2 (String h3 (String h4 rest2))) =>
                  match hex4 h1 h2 h3 h4 with
                  | None => Malformed
                  | Some uni =>
                      if (55296 <=? uni) && (uni <=? 56319) then
                        match rest2 with
                        | String b (String u rest3) =>
                            if Ascii.eqb b "\" && Ascii.eqb u "u" then
                              match rest3 with
                              | String g1 (String g2 (String g3 (String g4 rest4))) =>
                                  match hex4 g1 g2 g3 g4 with
                                  | None => Malformed
                                  | Some uni2 =>
                                      if (56320 <=? uni2) && (uni2 <=? 57343)
                                      then scanstring rest4
                                             (acc ++ utf8 (65536 +
                                                Z.lor (Z.shiftl (uni - 55296) 10)
                                                      (uni2 - 56320)))
                                      else scanstring rest2 (acc ++ utf8 uni)
                                  end
                              | _ => Malformed
                              end
                            else scanstring rest2 (acc ++ utf8 uni)
                        | _ => scanstring rest2 (acc ++ utf8 uni)
                        end
                      else scanstring rest2 (acc ++ utf8 uni)
                  end
              | _ => Malformed
              end
            else
              match backslash esc with
              | Some c' => scanstring rest1 (snoc acc c')
              | None => Malformed
              end
        end
      else if code c <? 32 then Malformed
      else scanstring rest (snoc acc c)
  end.

(** The longest prefix of digits, and what follows it. *)
Fixpoint span_digits (s : string) : string * string :=
  match s with
  | String c rest =>
      if is_digit c
      then let '(ds, r) := span_digits rest in (String c ds, r)
      else (EmptyString, s)
  | EmptyString => (EmptyString, EmptyString)
  end.

Fixpoint digits_value (acc : Z) (ds : string) : Z :=
  match ds with
  | String c rest => digits_value (acc * 10 + (code c - 48)) rest
  | EmptyString => acc
  end.

(** The integer part of [NUMBER_RE]: an optional minus sign, then a single
    zero or a digit from 1 to 9 followed by digits. *)
Definition match_integer (s : string) : option (string * string) :=
  let '(sign, s1) :=
    match s with
    | String c rest => if Ascii.eqb c "-" then ("-", rest) else ("", s)
    | EmptyString => ("", s)
    end in
  match s1 with
  | String c rest =>
      if Ascii.eqb c "0" then Some (sign ++ "0", rest)
      else if is_digit c then
        let '(ds, r) := span_digits rest in Some (sign ++ String c ds, r)
      else None
  | EmptyString => None
  end.

(** The optional fraction of [NUMBER_RE]: a dot and at least one digit. *)
Definition match_frac (s : string) : string * string :=
  match s with
  | String c rest =>
      if Ascii.eqb c "." then
        match span_digits rest with
        | (EmptyString, _) => ("", s)
        | (ds, r) => (String c ds, r)
        end
      else ("", s)
  | EmptyString => ("", s)
  end.

(** The optional exponent of [NUMBER_RE]: e or E, an optional sign and at
    least one digit. *)
Definition match_exp (s : string) : string * string :=
  match s with
  | String e rest =>
      if Ascii.eqb e "e" || Ascii.eqb e "E" then
        let '(sign, rest1) :=
          match rest with
          | String c r =>
              if Ascii.eqb c "-" || Ascii.eqb c "+"
              then (String c EmptyString, r) else ("", rest)
          | EmptyString => ("", rest)
          end in
        match span_digits rest1 with
        | (EmptyString, _) => ("", s)
        | (ds, r) => (String e (sign ++ ds), r)
        end
      else ("", s)
  | EmptyString => ("", s)
  end.

Definition int_of_lexeme (integer : string) : Z :=
  match integer with
  | String c rest =>
      if Ascii.eqb c "-" then - digits_value 0 rest else digits_value 0 integer
  | EmptyString => 0
  end.

(** The digits of an integer literal, the sign left out. *)
Definition digits_of (integer : string) : string :=
  match integer with
  | String c rest => if Ascii.eqb c "-" then rest else integer
  | EmptyString => integer
  end.

Section Decoder.
Context {PY : Interpreter}.

(** The check of [int(...)] on a decimal literal: only a literal of more
    than 640 digits is checked, against the limit when there is one. *)
Definition exceeds_limit (digits : nat) : bool :=
  ((640 <? digits) && (0 <? int_max_str_digits)
   && (int_max_str_digits <? digits))%nat.

Definition digits_error (digits : nat) : exn :=
  Exception "ValueError"
    ("Exceeds the limit (" ++ str_int (Z.of_nat int_max_str_digits)
     ++ " digits) for integer string conversion: value has "
     ++ str_int (Z.of_nat digits)
     ++ " digits; use sys.set_int_max_str_digits() to increase the limit").

(** [match_number] and the conversion that follows it in [_scan_once]:
    [Malformed] when the text does not start with a number. *)
Definition scan_number (s : string) : scan value :=
  match match_integer s with
  | None => Malformed
  | Some (integer, r0) =>
      let '(frac, r1) := match_frac r0 in
      let '(exp, r2) := match_exp r1 in
      match frac, exp with
      | EmptyString, EmptyString =>
          let digits := String.length (digits_of integer) in
          if exceeds_limit digits then Refused (digits_error digits)
          else Scanned (JInt (int_of_lexeme integer)) r2
      | _, _ => Scanned (JFloat (integer ++ frac ++ exp)) r2
      end
  end.

(** [s[idx:idx + len(p)] == p], with what follows. *)
Fixpoint strip_prefix (p s : string) : option string :=
  match p, s with
  | EmptyString, _ => Some s
  | String a p', String b s' =>
      if Ascii.eqb a b then strip_prefix p' s' else None
  | String _ _, EmptyString => None
  end.

(** [_parse_constant]: the scanner calls [parse_constant], a Python
    object, and a call takes one level of the stack. *)
Definition scan_constant (room : nat) (name rest : string) : scan value :=
  match room with
  | O =>
      Refused (Exception "RecursionError"
                 "maximum recursion depth exceeded while calling a Python object")
  | S _ => Scanned (JFloat name) rest
  end.

(** The values of [_scan_once] that are no string and no container;
    [Malformed] when there is none. *)
Definition scan_literal (room : nat) (s : string) : scan value :=
  match strip_prefix "null" s with
  | Some r => Scanned JNull r
  | None =>
  match strip_prefix "true" s with
  | Some r => Scanned (JBool true) r
  | None =>
  match strip_prefix "false" s with
  | Some r => Scanned (JBool false) r
  | None =>
  match scan_number s with
  | Scanned v r => Scanned v r
  | Refused e => Refused e
  | Malformed | OutOfFuel =>
  match strip_prefix "NaN" s with
  | Some r => scan_constant room "NaN" r
  | None =>
  match strip_prefix "Infinity" s with
  | Some r => scan_constant room "Infinity" r
  | None =>
  match strip_prefix "-Infinity" s with
  | Some r => scan_constant room "-Infinity" r
  | None => Malformed
  end end end end end end end.

(** What [Py_EnterRecursiveCall] raises when there is no room left. *)
Definition recursion_error (container : string) : exn :=
  Exception "RecursionError"
    ("maximum recursion depth exceeded while decoding a JSON "
     ++ container ++ " from a unicode string").

(** [raise JSONDecodeError(...)] where the stack has room for [room] more
    levels. *)
Definition malformed {A} (room : nat) : scan A :=
  match decode_error_at room with
  | None => Malformed
  | Some e => Refused e
  end.

(** The scanner raises [StopIteration] where it expects a value and finds
    none; it goes up to [raw_decode], one level above the scanner, which
    raises [JSONDecodeError] there. *)
Definition stop_iteration : scan value :=
  malformed (S (Pos.to_nat recursion_room)).

(** [_scan_once], [JSONArray] and [JSONObject].  [scan_array] starts at an
    element, [scan_object] after the opening quote of a key.  [room] is the
    number of containers that may still be entered: the scanner asks for one
    at each opening bracket or brace, before it reads on. *)
Fixpoint scan_once (fuel room : nat) (s : string) : scan value :=
  match fuel with
  | O => OutOfFuel
  | S fuel =>
      match s with
      | EmptyString => stop_iteration
      | String c rest =>
          if Ascii.eqb c "034" then
            match scanstring rest "" with
            | Scanned str r => Scanned (JStr str) r
            | Malformed => malformed room
            | Refused e => Refused e
            | OutOfFuel => OutOfFuel
            end
          else if Ascii.eqb c "{" then
            match room with
            | O => Refused (recursion_error "object")
            | S room =>
                match skip_ws rest with
                | String c1 rest1 =>
                    if Ascii.eqb c1 "}" then Scanned (JObj []) rest1
                    else if Ascii.eqb c1 "034"
                    then scan_object fuel room rest1 []
                    else malformed room
                | EmptyString => malformed room
                end
            end
          else if Ascii.eqb c "[" then
            match room with
            | O => Refused (recursion_error "array")
            | S room =>
                match skip_ws rest with
                | String c1 rest1 =>
                    if Ascii.eqb c1 "]" then Scanned (JArr []) rest1
                    else scan_array fuel room (String c1 rest1) []
                | EmptyString => scan_array fuel room EmptyString []
                end
            end
          else
            match scan_literal room s with
            | Malformed => stop_iteration
            | other => other
            end
      end
  end

with scan_array (fuel room : nat) (s : string) (acc : list value)
    : scan value :=
  match fuel with
  | O => OutOfFuel
  | S fuel =>
      match scan_once fuel room s with
      | Scanned v r =>
          match skip_ws r with
          | String c r1 =>
              if Ascii.eqb c "]" then Scanned (JArr (rev (v :: acc))) r1
              else if Ascii.eqb c ","
              then scan_array fuel room (skip_ws r1) (v :: acc)
              else malformed room
          | EmptyString => malformed room
          end
      | Malformed => Malformed
      | Refused e => Refused e
      | OutOfFuel => OutOfFuel
      end
  end

with scan_object (fuel room : nat) (s : string) (acc : list (string * value))
    : scan value :=
  match fuel with
  | O => OutOfFuel
  | S fuel =>
      match scanstring s "" with
      | Scanned key r =>
          match skip_ws r with
          | String colon r1 =>
              if Ascii.eqb colon ":" then
                match scan_once fuel room (skip_ws r1) with
                | Scanned v r2 =>
                    let acc := dict_set acc key v in
                    match skip_ws r2 with
                    | String c r3 =>
                        if Ascii.eqb c "}" then Scanned (JObj acc) r3
                        else if Ascii.eqb c "," then
                          match skip_ws r3 with
                          | String q r4 =>
                              if Ascii.eqb q "034"
                              then scan_object fuel room r4 acc
                              else malformed room
                          | EmptyString => malformed room
                          end
                        else malformed room
                    | EmptyString => malformed room
                    end
                | Malformed => Malformed
                | Refused e => Refused e
                | OutOfFuel => OutOfFuel
                end
              else malformed room
          | EmptyString => malformed room
          end
      | Malformed => malformed room
      | Refused e => Refused e
      | OutOfFuel => OutOfFuel
      end
  end.

(** [JSONDecoder.decode]: a value, and nothing but white space after it;
    the error for what follows is raised two levels above the scanner. *)
Definition decode (fuel : nat) (s : string) : scan value :=
  match scan_once fuel (Pos.to_nat recursion_room) (skip_ws s) with
  | Scanned v r =>
      match skip_ws r with
      | EmptyString => Scanned v EmptyString
      | String _ _ => malformed (S (S (Pos.to_nat recursion_room)))
      end
  | Malformed => Malformed
  | Refused e => Refused e
  | OutOfFuel => OutOfFuel
  end.

(** How a call of [json.loads] ends: it returns a value, it raises
    [JSONDecodeError], or it raises an exception of another class. *)
Inductive loaded : Type :=
| Decoded (v : value)
| JSONDecodeError
| OtherError (e : exn).

(** The byte order mark, in UTF-8. *)
Definition bom : string := String "239" (String "187" (String "191" EmptyString)).

(** [json.loads(s)]: a text that starts with the byte order mark is
    refused at once, three levels above the scanner; the others are decoded.
    The fuel is enough for every text (see [loads_fuel]). *)
Definition loads (s : string) : loaded :=
  let outcome :=
    match strip_prefix bom s with
    | Some _ => malformed (S (S (S (Pos.to_nat recursion_room))))
    | None => decode (2 * String.length s + 1) s
    end in
  match outcome with
  | Scanned v _ => Decoded v
  | Refused e => OtherError e
  | Malformed | OutOfFuel => JSONDecodeError
  end.

End Decoder.

End Json.
Export Json.

(* ===================================================================== *)
(** ** Messages exchanged with the chat completions API *)
(* ===================================================================== *)

Inductive Role : Type := system | user | assistant | tool.

(** An entry of a list-valued ["content"]. *)
Inductive Part : Type :=
| text_part (text : string)             (* {"type": "text", "text": ...} *)
| image_url_part (url : string).        (* {"type": "image_url", "image_url": {"url": ...}} *)

Inductive Content : Type :=
| Str (s : string)
| Parts (parts : list Part).

(** A message dict [{"role": ..., "content": ...}]. *)
Record Turn : Type := mkTurn {
  role : Role;
  content : Content
}.

(** [tool_call.function.name] and [tool_call.function.arguments]. *)
Record ToolCall : Type := mkToolCall {
  tc_name : string;
  tc_arguments : option string
}.

(** [response.choices[0].message] *)
Record Message : Type := mkMessage {
  msg_content : option Content;
  msg_tool_calls : option (list ToolCall)
}.

(** [message.content or ""] *)
Definition content_or_empty (c : option Content) : Content :=
  match c with
  | None => Str ""
  | Some (Str "") => Str ""
  | Some (Parts []) => Str ""
  | Some c => c
  end.

(** [message.tool_calls or []] *)
Definition tool_calls_or_empty (t : option (list ToolCall)) : list ToolCall :=
  match t with
  | None => []
  | Some l => l
  end.

(** An entry of [AVAILABLE_TOOLS]. *)
Record Tool : Type := mkTool {
  tool_name : string;
  tool_description : string;
  tool_input_schema : Json.value
}.

(** An entry of the [tools] argument: [{"type": "function", "function":
    {"name", "description", "parameters"}}]. *)
Record FunctionTool : Type := mkFunctionTool {
  fn_name : string;
  fn_description : string;
  fn_parameters : Json.value
}.

(** The keyword arguments of [client.chat.completions.create]. *)
Record Request (Temperature : Type) : Type := mkRequest {
  req_model : string;
  req_temperature : Temperature;
  req_max_tokens : Z;
  req_messages : list Turn;
  req_tools : option (list FunctionTool);
  req_tool_choice : option string
}.

(** The constants imported from [config], which is not part of the
    sources at hand. *)
Class Config : Type := {
  Temperature : Type;
  MAX_TOKENS : Z;
  OPENAI_MODEL : string;
  TEMPERATURE : Temperature;
  USE_NAVIGATOR : bool
}.

Definition dq : string := String "034" EmptyString.

Definition SYSTEM_PROMPT : string :=
"You are playing Pokemon Red. You can see the game screen and control the game by executing emulator commands.

Your goal is to play through Pokemon Red and eventually defeat the Elite Four. Make decisions based on what you see on the screen and the memory-based game state description.

At the very beginning of the game, you may see boot or title/intro screens. In those cases, you often need to press START and/or A multiple times to get to a playable state (the main game where you can move the character around). If the game appears idle or you are not yet in control of the player, try pressing START or A to proceed.

Before each action, explain your reasoning briefly, then use the available tools to execute your chosen commands.

The conversation history may occasionally be summarized to save context space. If you see a message labeled " ++ dq ++ "CONVERSATION HISTORY SUMMARY" ++ dq ++ ", this contains the key information about your progress so far. Use this information to maintain continuity in your gameplay.".

Definition SUMMARY_PROMPT : string :=
"I need you to create a detailed summary of our conversation history up to this point. This summary will replace the full conversation history to manage the context window.

Please include:
1. Key game events and milestones you've reached
2. Important decisions you've made
3. Current objectives or goals you're working toward
4. Your current location and Pokémon team status
5. Any strategies or plans you've mentioned

The summary should be comprehensive enough that you can continue gameplay without losing important context about what has happened so far.".

Definition jobj (members : list (string * Json.value)) : Json.value :=
  JObj members.

Definition press_buttons_tool : Tool :=
  mkTool "press_buttons" "Press a sequence of buttons on the Game Boy."
    (jobj
      [("type", JStr "object");
       ("properties", jobj
          [("buttons", jobj
              [("type", JStr "array");
               ("items", jobj
                  [("type", JStr "string");
                   ("enum", JArr (map JStr
                      ["a"; "b"; "start"; "select";
                       "up"; "down"; "left"; "right"]))]);
               ("description", JStr "List of buttons to press in sequence. Valid buttons: 'a', 'b', 'start', 'select', 'up', 'down', 'left', 'right'")]);
           ("wait", jobj
              [("type", JStr "boolean");
               ("description", JStr "Whether to wait for a brief period after pressing each button. Defaults to true.")])]);
       ("required", JArr [JStr "buttons"])]).

Definition navigate_to_tool : Tool :=
  mkTool "navigate_to"
    "Automatically navigate to a position on the map grid. The screen is divided into a 9x10 grid, with the top-left corner as (0, 0). This tool is only available in the overworld."
    (jobj
      [("type", JStr "object");
       ("properties", jobj
          [("row", jobj
              [("type", JStr "integer");
               ("description", JStr "The row coordinate to navigate to (0-8).")]);
           ("col", jobj
              [("type", JStr "integer");
               ("description", JStr "The column coordinate to navigate to (0-9).")])]);
       ("required", JArr [JStr "row"; JStr "col"])]).

Definition AVAILABLE_TOOLS {CFG : Config} : list Tool :=
  (press_buttons_tool :: (if USE_NAVIGATOR then [navigate_to_tool] else []))%list.

(* ===================================================================== *)
(** ** The world around the agent *)
(* ===================================================================== *)

(** The operations of [agent.emulator.Emulator] the agent calls.  The world
    [W] holds the emulator and whatever else decides what a call returns;
    a call returns a value or raises, and leaves a new world.
    [get_location], [get_active_dialog] and [get_collision_map] return a
    text, an empty text or [None]; [find_path] returns a status and a path
    (a list of directions, possibly empty, or [None]). *)
Class EmulatorFacade (W : Type) : Type := {
  emu_get_screenshot : W -> result Image * W;
  emu_get_state_from_memory : W -> result string * W;
  emu_get_location : W -> result (option string) * W;
  emu_get_active_dialog : W -> result (option string) * W;
  emu_get_collision_map : W -> result (option string) * W;
  emu_press_buttons : Json.value -> Json.value -> W -> result unit * W;
  emu_find_path : Json.value -> Json.value -> W
                  -> result (string * option (list string)) * W;
  emu_stop : W -> result unit * W
}.

(** [client.chat.completions.create(...)], reduced to the message of the
    first choice of its response. *)
Class ChatClient {CFG : Config} (W : Type) : Type := {
  chat_completions_create : Request Temperature -> W -> result Message * W
}.

(** The calls made on the emulator, as they appear in the trace. *)
Inductive EmuCall : Type :=
| get_screenshot
| get_state_from_memory
| get_location
| get_active_dialog
| get_collision_map
| press_buttons (buttons wait : Json.value)
| find_path (row col : Json.value)
| stop.

(** The calls that change the state of the emulator.  The emulator is not
    among the sources at hand; the specification (sections 4.2 and 6) has the
    presses as the calls that change it and the others as reads. *)
Definition is_mutation (c : EmuCall) : bool :=
  match c with
  | press_buttons _ _ | stop => true
  | _ => false
  end.

Definition is_press_buttons (c : EmuCall) : bool :=
  match c with
  | press_buttons _ _ => true
  | _ => false
  end.

(** The fields of an [OpenAIAgent] that change; [self.emulator] and
    [self.client] live in the world. *)
Record Agent : Type := mkAgent {
  message_history : list Turn;
  running : bool;
  max_history : Z
}.

(** [str] of a list of content parts, as an f-string prints it. *)
Class PyFormat : Type := {
  format_parts : list Part -> string
}.

Section AgentModel.
Context {CFG : Config} {PIL : Pillow} {FMT : PyFormat} {PY : Interpreter}.
Context {W : Type} {EMU : EmulatorFacade W} {CLIENT : ChatClient W}.

(** The effects of the agent, in the order they happen. *)
Inductive Event : Type :=
| EmulatorCall (c : EmuCall)
| ChatCompletion (r : Request Temperature)
| HistoryAppend (t : Turn)          (* self.message_history.append(t) *)
| HistoryAssign (h : list Turn)     (* self.message_history = h *)
| RunningAssign (b : bool).         (* self.running = b *)

Record St : Type := mkSt {
  world : W;
  self : Agent;
  trace : list Event
}.

(** A computation reads and writes the state and returns or raises. *)
Definition M (A : Type) : Type := St -> result A * St.

Definition ret {A} (a : A) : M A := fun s => (Ok a, s).

Definition bind {A B} (m : M A) (k : A -> M B) : M B :=
  fun s =>
    match m s with
    | (Ok a, s') => k a s'
    | (Raise e, s') => (Raise e, s')
    end.

Notation "x <- m ;; k" := (bind m (fun x => k))
  (at level 61, m at next level, right associativity).
Notation "m ;;; k" := (bind m (fun _ => k))
  (at level 61, right associativity).

(** A pure step that may raise. *)
Definition lift {A} (r : result A) : M A := fun s => (r, s).

Definition emit (e : Event) : M unit :=
  fun s => (Ok tt, mkSt (world s) (self s) (trace s ++ [e])%list).

(** A call on [self.emulator]. *)
Definition emulator {A} (c : EmuCall) (op : W -> result A * W) : M A :=
  emit (EmulatorCall c) ;;;
  fun s => let '(r, w) := op (world s) in (r, mkSt w (self s) (trace s)).

(** A call on [self.client]. *)
Definition create (r : Request Temperature) : M Message :=
  emit (ChatCompletion r) ;;;
  fun s => let '(m, w) := chat_completions_create r (world s) in
           (m, mkSt w (self s) (trace s)).

Definition get_self : M Agent := fun s => (Ok (self s), s).

Definition history_append (t : Turn) : M unit :=
  emit (HistoryAppend t) ;;;
  fun s => let a := self s in
    (Ok tt, mkSt (world s)
              (mkAgent (message_history a ++ [t])%list (running a) (max_history a))
              (trace s)).

Definition history_assign (h : list Turn) : M unit :=
  emit (HistoryAssign h) ;;;
  fun s => let a := self s in
    (Ok tt, mkSt (world s) (mkAgent h (running a) (max_history a)) (trace s)).

Definition running_assign (b : bool) : M unit :=
  emit (RunningAssign b) ;;;
  fun s => let a := self s in
    (Ok tt, mkSt (world s) (mkAgent (message_history a) b (max_history a))
              (trace s)).

(** [try: body  except Exception as e: handler(e)] *)
Definition try_except_Exception {A} (body : M A) (handler : exn -> M A) : M A :=
  fun s =>
    match body s with
    | (Raise (Exception cls msg), s') => handler (Exception cls msg) s'
    | other => other
    end.

(** [try: body  except KeyboardInterrupt: handler] *)
Definition try_except_KeyboardInterrupt {A} (body : M A) (handler : M A) : M A :=
  fun s =>
    match body s with
    | (Raise KeyboardInterrupt, s') => handler s'
    | other => other
    end.

(** [for x in xs: body(x)] *)
Fixpoint for_each {A} (xs : list A) (body : A -> M unit) : M unit :=
  match xs with
  | [] => ret tt
  | x :: rest => body x ;;; for_each rest body
  end.

Definition nl : string := String "010" EmptyString.

(** [arguments.get(key, default)]: only a [dict] has [get]. *)
Definition py_get (arguments : Json.value) (key : string)
    (default : Json.value) : result Json.value :=
  match arguments with
  | JObj d =>
      Ok (match dict_get d key with Some v => v | None => default end)
  | _ =>
      Raise (Exception "AttributeError"
               ("'" ++ type_name arguments ++ "' object has no attribute 'get'"))
  end.

(** [sep.join(v)] on a decoded value: the items of a list must all be
    [str]; a [str] gives its characters and a [dict] its keys. *)
Fixpoint join_items (sep : string) (i : Z) (items : list Json.value)
    : result (list string) :=
  match items with
  | [] => Ok []
  | JStr s :: rest =>
      match join_items sep (i + 1) rest with
      | Ok l => Ok (s :: l)
      | Raise e => Raise e
      end
  | v :: _ =>
      Raise (Exception "TypeError"
               ("sequence item " ++ str_int i ++ ": expected str instance, "
                ++ type_name v ++ " found"))
  end.

Definition join_value (sep : string) (v : Json.value) : result string :=
  match v with
  | JArr items =>
      match join_items sep 0 items with
      | Ok l => Ok (join sep l)
      | Raise e => Raise e
      end
  | JStr s => Ok (join sep (utf8_chars s))
  | JObj d => Ok (join sep (map fst d))
  | _ => Raise (Exception "TypeError" "can only join an iterable")
  end.

(** [OpenAIAgent.__init__], after the emulator and the client are set up. *)
Definition new_agent (max_history : Z) : Agent :=
  mkAgent [mkTurn user (Str "You may now begin playing.")] true max_history.

(** [OpenAIAgent._openai_tools] *)
Definition _openai_tools : list FunctionTool :=
  map (fun t => mkFunctionTool (tool_name t) (tool_description t)
                               (tool_input_schema t))
      AVAILABLE_TOOLS.

(** The [try] statement at the head of [_process_tool_call]: [arguments]
    is what [json.loads] gives for [tool_call.function.arguments or "{}"],
    and an empty [dict] when it raises [JSONDecodeError]; an exception of
    another class is not caught. *)
Definition decoded_arguments (tool_call : ToolCall) : result Json.value :=
  match Json.loads (or_str (tc_arguments tool_call) "{}") with
  | Json.Decoded v => Ok v
  | Json.JSONDecodeError => Ok (JObj [])
  | Json.OtherError e => Raise e
  end.

(** [OpenAIAgent._process_tool_call] *)
Definition _process_tool_call (tool_call : ToolCall) : M string :=
  let name := tc_name tool_call in
  arguments <- lift (decoded_arguments tool_call) ;;
  if String.eqb name "press_buttons" then
    buttons <- lift (py_get arguments "buttons" (JArr [])) ;;
    wait <- lift (py_get arguments "wait" (JBool true)) ;;
    try_except_Exception
      (emulator (press_buttons buttons wait) (emu_press_buttons buttons wait) ;;;
       memory_info <- emulator get_state_from_memory emu_get_state_from_memory ;;
       location <- emulator get_location emu_get_location ;;
       let location := or_str location "Unknown location" in
       dialog <- emulator get_active_dialog emu_get_active_dialog ;;
       let dialog := or_str dialog "" in
       emulator get_collision_map emu_get_collision_map ;;;
       pressed <- lift (join_value ", " buttons) ;;
       let response_parts :=
         ["Action: Pressed buttons: " ++ pressed; "Location: " ++ location] in
       let response_parts :=
         if String.eqb dialog "" then response_parts
         else List.app response_parts ["Dialog: " ++ dialog] in
       let response_parts :=
         List.app response_parts ["Game State:" ++ nl ++ memory_info] in
       ret (join nl response_parts))
      (fun e => ret ("Error processing button press: " ++ str_exn e))
  else if String.eqb name "navigate_to" then
    row <- lift (py_get arguments "row" JNull) ;;
    col <- lift (py_get arguments "col" JNull) ;;
    found <- emulator (find_path row col) (emu_find_path row col) ;;
    let '(status, path) := found in
    result <-
      match path with
      | Some (d :: ds) =>
          for_each (d :: ds) (fun direction =>
            emulator (press_buttons (JArr [JStr direction]) (JBool true))
                     (emu_press_buttons (JArr [JStr direction]) (JBool true))) ;;;
          ret ("Navigation successful: followed path with "
               ++ str_int (Z.of_nat (length (d :: ds)))
               ++ " steps. Status: " ++ status)
      | Some [] | None =>
          ret ("Navigation failed: " ++ status)
      end ;;
    screenshot <- emulator get_screenshot emu_get_screenshot ;;
    let _unused := get_screenshot_base64 screenshot 2 in
    memory_info <- emulator get_state_from_memory emu_get_state_from_memory ;;
    emulator get_collision_map emu_get_collision_map ;;;
    ret ("Navigation result: " ++ result ++ nl ++ nl
         ++ "Game state after navigation:" ++ nl ++ memory_info)
  else
    ret ("Error: Unknown tool '" ++ name ++ "'").

(** The user turn of a step. *)
Definition user_content (memory_info screenshot_b64 : string) : Content :=
  Parts
    [text_part
       ("Here is the current game state from memory and a screenshot of the game screen. "
        ++ "Use the tools to decide what to do next." ++ nl ++ nl
        ++ "GAME STATE:" ++ nl ++ memory_info);
     image_url_part ("data:image/png;base64," ++ screenshot_b64)].

(** The single turn [summarize_history] leaves in the history. *)
Definition summary_turn (max_history : Z) (summary_text screenshot_b64 : string)
    : Turn :=
  mkTurn user
    (Parts
       [text_part
          ("CONVERSATION HISTORY SUMMARY (representing " ++ str_int max_history
           ++ " previous messages): " ++ summary_text);
        image_url_part ("data:image/png;base64," ++ screenshot_b64);
        text_part
          ("You were just asked to summarize your playthrough so far, which is the summary you see above. "
           ++ "You may now continue playing by selecting your next action.")]).

(** [message.content or ""] inside an f-string. *)
Definition content_text (c : option Content) : string :=
  match content_or_empty c with
  | Str s => s
  | Parts parts => format_parts parts
  end.

(** [OpenAIAgent.summarize_history] *)
Definition summarize_history : M unit :=
  screenshot <- emulator get_screenshot emu_get_screenshot ;;
  let screenshot_b64 := get_screenshot_base64 screenshot 2 in
  me <- get_self ;;
  let messages :=
    ([mkTurn system (Str SYSTEM_PROMPT)]
     ++ message_history me
     ++ [mkTurn user (Str SUMMARY_PROMPT)])%list in
  message <- create (mkRequest OPENAI_MODEL TEMPERATURE MAX_TOKENS messages
                               None None) ;;
  let summary_text := content_text (msg_content message) in
  history_assign [summary_turn (max_history me) summary_text screenshot_b64].

(** The body of the [try] in [OpenAIAgent.run]: one step. *)
Definition run_step : M unit :=
  me <- get_self ;;
  let messages := message_history me in
  screenshot <- emulator get_screenshot emu_get_screenshot ;;
  let screenshot_b64 := get_screenshot_base64 screenshot 2 in
  memory_info <- emulator get_state_from_memory emu_get_state_from_memory ;;
  let user_content := user_content memory_info screenshot_b64 in
  let messages :=
    ([mkTurn system (Str SYSTEM_PROMPT)] ++ messages
     ++ [mkTurn user user_content])%list in
  message <- create (mkRequest OPENAI_MODEL TEMPERATURE MAX_TOKENS messages
                               (Some _openai_tools) (Some "auto")) ;;
  let tool_calls := tool_calls_or_empty (msg_tool_calls message) in
  history_append (mkTurn user user_content) ;;;
  history_append (mkTurn assistant (content_or_empty (msg_content message))) ;;;
  for_each tool_calls (fun tc => _process_tool_call tc ;;; ret tt) ;;;
  me <- get_self ;;
  (if Z.of_nat (length (message_history me)) >=? max_history me
   then summarize_history else ret tt).

(** The [while] of [OpenAIAgent.run].  Every iteration either completes a
    step or clears [running] or raises, so [num_steps] iterations and one
    more are enough ([while_loop_fuel]). *)
Fixpoint while_loop (num_steps : Z) (fuel : nat) (steps_completed : Z) : M Z :=
  fun s =>
    match fuel with
    | O => (Ok steps_completed, s)
    | S fuel =>
        if running (self s) && (steps_completed <? num_steps) then
          (steps_completed <-
             try_except_KeyboardInterrupt
               (run_step ;;; ret (steps_completed + 1))
               (running_assign false ;;; ret steps_completed) ;;
           while_loop num_steps fuel steps_completed) s
        else (Ok steps_completed, s)
    end.

(** [OpenAIAgent.run(num_steps)] *)
Definition run (num_steps : Z) : M Z :=
  steps_completed <- while_loop num_steps (S (Z.to_nat num_steps)) 0 ;;
  me <- get_self ;;
  (if negb (running me) then emulator stop emu_stop else ret tt) ;;;
  ret steps_completed.


(** [OpenAIAgent.stop] *)
Definition OpenAIAgent_stop : M unit :=
  running_assign false ;;; emulator stop emu_stop.

End AgentModel.

Arguments St {CFG} W.
Arguments M {CFG} W A.


(* ===================================================================== *)
(** ** main.py: the manual phase, the handoff and the two loops *)
(* ===================================================================== *)

(** [main], from the point where the agent exists (the parsing of the
    command line and the check of the ROM file come before).  The agent is
    an [OpenAIAgent].  What the console will answer to [msvcrt.kbhit()] and
    [msvcrt.getch()] is given as a list, one entry for each turn of a loop:
    [None] when no key is waiting, [Some key] when one is; a loop whose list
    runs out is [Pending].  The thread started at the handoff runs [ai_loop]
    next to the loop of [main]; only its start is part of [main]. *)

(** The two durations passed to [time.sleep]: [1 / 60] and [0.1]. *)
Inductive Seconds : Type := one_sixtieth | one_tenth.

(** [agent.emulator.tick(frames)] and [time.sleep(seconds)]. *)
Class Host (W : Type) : Type := {
  emu_tick : Z -> W -> result unit * W;
  time_sleep : Seconds -> W -> result unit * W
}.

(** The locals [frames_per_step] and [sleep_seconds]. *)
Record Speed : Type := mkSpeed {
  frames_per_step : Z;
  sleep_seconds : Seconds
}.

(** What [main] and [ai_loop] do besides calling the agent. *)
Inductive ConsoleEvent : Type :=
| Tick (frames : Z)
| Sleep (seconds : Seconds)
| Print (text : string)
| ThreadStart.

Inductive Outcome (A : Type) : Type :=
| Done (a : A)
| Raised (e : exn)
| Pending.
Arguments Done {A} a.
Arguments Raised {A} e.
Arguments Pending {A}.

Section MainModel.
Context {CFG : Config} {PIL : Pillow} {FMT : PyFormat} {PY : Interpreter}.
Context {W : Type} {EMU : EmulatorFacade W} {CLIENT : ChatClient W}.
Context {HOST : Host W}.

Record MainSt : Type := mkMainSt {
  agent_state : St W;
  console : list ConsoleEvent
}.

Definition MainM (A : Type) : Type := MainSt -> Outcome A * MainSt.

Definition mret {A} (a : A) : MainM A := fun ms => (Done a, ms).

Definition mbind {A B} (m : MainM A) (k : A -> MainM B) : MainM B :=
  fun ms =>
    match m ms with
    | (Done a, ms') => k a ms'
    | (Raised e, ms') => (Raised e, ms')
    | (Pending, ms') => (Pending, ms')
    end.

Notation "x <-- m ;; k" := (mbind m (fun x => k))
  (at level 61, m at next level, right associativity).
Notation "m ;;;; k" := (mbind m (fun _ => k))
  (at level 61, right associativity).

Definition pending {A} : MainM A := fun ms => (Pending, ms).

(** A method of the agent, called from [main.py]. *)
Definition agent_call {A} (m : M W A) : MainM A :=
  fun ms =>
    let '(r, s) := m (agent_state ms) in
    (match r with Ok a => Done a | Raise e => Raised e end,
     mkMainSt s (console ms)).

Definition host_call (ev : ConsoleEvent) (op : W -> result unit * W)
    : MainM unit :=
  fun ms =>
    let s := agent_state ms in
    let '(r, w) := op (world s) in
    (match r with Ok a => Done a | Raise e => Raised e end,
     mkMainSt (mkSt w (self s) (trace s)) (console ms ++ [ev])%list).

Definition tick (frames : Z) : MainM unit :=
  host_call (Tick frames) (emu_tick frames).

Definition sleep (seconds : Seconds) : MainM unit :=
  host_call (Sleep seconds) (time_sleep seconds).

Definition print (text : string) : MainM unit :=
  fun ms => (Done tt, mkMainSt (agent_state ms) (console ms ++ [Print text])%list).

Definition thread_start : MainM unit :=
  fun ms => (Done tt, mkMainSt (agent_state ms) (console ms ++ [ThreadStart])%list).

(** [try: body  except KeyboardInterrupt: handler] *)
Definition mtry_except_KeyboardInterrupt {A} (body handler : MainM A) : MainM A :=
  fun ms =>
    match body ms with
    | (Raised KeyboardInterrupt, ms') => handler ms'
    | other => other
    end.

(** [try: body  except KeyboardInterrupt: ...  except Exception as e: ...],
    both handlers being [handler]. *)
Definition mtry_except_all {A} (body handler : MainM A) : MainM A :=
  fun ms =>
    match body ms with
    | (Raised _, ms') => handler ms'
    | other => other
    end.

(** [try: body  finally: final] *)
Definition mtry_finally {A} (body : MainM A) (final : MainM unit) : MainM A :=
  fun ms =>
    match body ms with
    | (Done a, ms') => (final ;;;; mret a) ms'
    | (Raised e, ms') => (final ;;;; (fun ms'' => (Raised e, ms''))) ms'
    | (Pending, ms') => (Pending, ms')
    end.

(** The [while True] of the manual phase; it ends at the key [8] and
    returns the speed and the console input that is left. *)
Fixpoint manual_loop (inputs : list (option string)) (speed : Speed)
    : MainM (Speed * list (option string)) :=
  match inputs with
  | [] => pending
  | input :: inputs =>
      tick (frames_per_step speed) ;;;;
      next <--
        match input with
        | Some key =>
            if String.eqb key "8" then mret None
            else if String.eqb key "-" then
              print (nl ++ "[Speed] Setting emulator to ~60fps") ;;;;
              mret (Some (mkSpeed 1 one_sixtieth))
            else if String.eqb key "=" || String.eqb key "+" then
              print (nl ++ "[Speed] Setting emulator to ~300fps") ;;;;
              mret (Some (mkSpeed 5 one_sixtieth))
            else mret (Some speed)
        | None => mret (Some speed)
        end ;;
      match next with
      | None => mret (speed, inputs)
      | Some speed =>
          sleep (sleep_seconds speed) ;;;;
          manual_loop inputs speed
      end
  end.

(** The [while True] of the main thread once the AI plays; it ends at the
    key [q] or [Q]. *)
Fixpoint autonomous_loop (inputs : list (option string)) (speed : Speed)
    : MainM unit :=
  match inputs with
  | [] => pending
  | input :: inputs =>
      tick (frames_per_step speed) ;;;;
      next <--
        match input with
        | Some key =>
            if String.eqb key "q" || String.eqb key "Q" then
              print (nl ++ "Quitting...") ;;;;
              mret None
            else if String.eqb key "-" then
              print (nl ++ "[Speed] Setting emulator to ~60fps") ;;;;
              mret (Some (mkSpeed 1 one_sixtieth))
            else if String.eqb key "=" || String.eqb key "+" then
              print (nl ++ "[Speed] Setting emulator to ~300fps") ;;;;
              mret (Some (mkSpeed 5 one_sixtieth))
            else mret (Some speed)
        | None => mret (Some speed)
        end ;;
      match next with
      | None => mret tt
      | Some speed =>
          sleep (sleep_seconds speed) ;;;;
          autonomous_loop inputs speed
      end
  end.

(** The [while True] of [ai_loop]; [fuel] bounds the number of turns
    looked at. *)
Fixpoint ai_loop_forever (fuel : nat) (steps : Z) : MainM unit :=
  match fuel with
  | O => pending
  | S fuel =>
      agent_call (run steps) ;;;;
      sleep one_tenth ;;;;
      ai_loop_forever fuel steps
  end.

(** [ai_loop], the function the thread runs. *)
Definition ai_loop (fuel : nat) (steps : Z) : MainM unit :=
  mtry_except_all (ai_loop_forever fuel steps) (mret tt).

(** [main], from the manual phase on. *)
Definition main (inputs : list (option string)) : MainM unit :=
  print (nl ++ "Game initialized. You can play manually now.") ;;;;
  print "When you want the AI to take over, press NumPad 8 (with NumLock on) in this console." ;;;;
  handoff <--
    mtry_except_KeyboardInterrupt
      (r <-- manual_loop inputs (mkSpeed 1 one_sixtieth) ;; mret (Some r))
      (agent_call OpenAIAgent_stop ;;;; mret None) ;;
  match handoff with
  | None => mret tt
  | Some (speed, inputs) =>
      thread_start ;;;;
      mtry_finally
        (mtry_except_KeyboardInterrupt
           (print (nl ++ "AI is now playing. Press 'q' to quit or use speed controls (-/=)") ;;;;
            autonomous_loop inputs speed)
           (mret tt))
        (agent_call OpenAIAgent_stop)
  end.

End MainModel.

Arguments MainSt {CFG} W.
Arguments MainM {CFG} W A.

(* ===================================================================== *)
(** ** A scripted world, to run the model on concrete inputs *)
(* ===================================================================== *)

Module Scripted.

(** The emulator answers every call from the script; the service answers
    the requests with [replies], one after the other. *)
Record World : Type := mkWorld {
  frame : Image;
  memory_info : result string;
  location : option string;
  dialog : option string;
  collision_map : option string;
  press_outcome : result unit;
  path_outcome : result (string * option (list string));
  replies : list (result Message)
}.

#[export] Instance config : Config := {
  Temperature := Z;
  MAX_TOKENS := 4096;
  OPENAI_MODEL := "gpt-4o";
  TEMPERATURE := 1;
  USE_NAVIGATOR := true
}.

(** Stand-ins for Pillow: the resized image keeps the pixels and takes the
    new size; the file written is the size followed by the pixels. *)
#[export] Instance pillow : Pillow := {
  pil_resize img size := mkImage (fst size) (snd size) (pixels img);
  pil_save_png img :=
    (Byte.x89 :: Byte.x50 :: Byte.x4e :: Byte.x47 :: pixels img)%list
}.

#[export] Instance format : PyFormat := {
  format_parts parts := "[...]"
}.

(** CPython 3.11: the default limit on the digits of an integer, the room
    of a thread a few frames deep under the default recursion limit, and
    three levels of the stack to build a [JSONDecodeError]. *)
#[export] Instance interpreter : Interpreter := {
  int_max_str_digits := 4300;
  recursion_room := 990;
  decode_error_at k :=
    match k with
    | 0%nat | 2%nat =>
        Some (Exception "RecursionError"
                "maximum recursion depth exceeded while calling a Python object")
    | 1%nat =>
        Some (Exception "RecursionError" "maximum recursion depth exceeded")
    | _ => None
    end
}.

#[export] Instance emulator_facade : EmulatorFacade World := {
  emu_get_screenshot w := (Ok (frame w), w);
  emu_get_state_from_memory w := (memory_info w, w);
  emu_get_location w := (Ok (location w), w);
  emu_get_active_dialog w := (Ok (dialog w), w);
  emu_get_collision_map w := (Ok (collision_map w), w);
  emu_press_buttons _ _ w := (press_outcome w, w);
  emu_find_path _ _ w := (path_outcome w, w);
  emu_stop w := (Ok tt, w)
}.

#[export] Instance chat_client : ChatClient World := {
  chat_completions_create _ w :=
    match replies w with
    | [] => (Raise (Exception "APIConnectionError" "Connection error."), w)
    | r :: rest =>
        (r, mkWorld (frame w) (memory_info w) (location w) (dialog w)
                    (collision_map w) (press_outcome w) (path_outcome w) rest)
    end
}.

Definition pallet_town (replies : list (result Message)) : World :=
  mkWorld (mkImage 160 144 [Byte.x00; Byte.x01; Byte.x02])
          (Ok "Player: RED") (Some "PALLET TOWN") None None
          (Ok tt) (Ok ("blocked", None)) replies.

Definition start (max_history : Z) (w : World) : St World :=
  mkSt w (new_agent max_history) [].

(** An answer with a text and tool calls. *)
Definition reply (text : string) (calls : list ToolCall) : result Message :=
  Ok (mkMessage (Some (Str text)) (Some calls)).

(** [{"buttons": ["a", "a", "start"]}] *)
Definition press_a_a_start : string :=
  "{" ++ dq ++ "buttons" ++ dq ++ ": [" ++ dq ++ "a" ++ dq ++ ", "
      ++ dq ++ "a" ++ dq ++ ", " ++ dq ++ "start" ++ dq ++ "]}".

(** [{"row": 2, "col": 3}] *)
Definition row2_col3 : string :=
  "{" ++ dq ++ "row" ++ dq ++ ": 2, " ++ dq ++ "col" ++ dq ++ ": 3}".

(** A call [press_buttons] with [{"buttons": ["a", "a", "start"]}]. *)
Definition press_call : ToolCall :=
  mkToolCall "press_buttons" (Some press_a_a_start).

(** A call [navigate_to] with [{"row": 2, "col": 3}]. *)
Definition navigate_call : ToolCall :=
  mkToolCall "navigate_to" (Some row2_col3).

(** The service asks for three presses, then answers with a text. *)
Definition one_press_step (max_history : Z) : St World :=
  start max_history
    (pallet_town [reply "Let me start the game." [press_call];
                  reply "I am in Pallet Town." []]).

(** The emulator fails on every press. *)
Definition broken_buttons : World :=
  mkWorld (mkImage 160 144 []) (Ok "Player: RED") None None None
          (Raise (Exception "RuntimeError" "emulator is not running"))
          (Ok ("blocked", None)) [].

(** The operator interrupts the second request. *)
Definition interrupted_second_step : St World :=
  start 30 (pallet_town [reply "Let me start the game." [press_call];
                         Raise KeyboardInterrupt]).

(** The operator interrupts the press the first answer asks for. *)
Definition interrupted_press (max_history : Z) : St World :=
  start max_history
    (mkWorld (mkImage 160 144 []) (Ok "Player: RED") None None None
             (Raise KeyboardInterrupt) (Ok ("blocked", None))
             [reply "Let me start the game." [press_call]]).

(** [{"buttons": [1]}] *)
Definition buttons_one_number : string :=
  "{" ++ dq ++ "buttons" ++ dq ++ ": [1]}".

(** The path solver finds a way: up, then left. *)
Definition routed (press : result unit) : World :=
  mkWorld (mkImage 160 144 []) (Ok "Player: RED") (Some "ROUTE 1") None None
          press (Ok ("success", Some ["up"; "left"])) [].

(** The service answers with a [press_buttons] call whose arguments are a
    JSON list. *)
Definition bad_arguments_step : St World :=
  start 30
    (pallet_town [reply "Pressing." [mkToolCall "press_buttons" (Some "[]")]]).


(** [{"slot": 11...1}], the integer with 4301 digits. *)
Definition long_integer_arguments : string :=
  "{" ++ dq ++ "slot" ++ dq ++ ": "
      ++ string_of_list_ascii (repeat "1"%char 4301) ++ "}".

(** An agent that was stopped. *)
Definition halted : St World :=
  mkSt (pallet_town []) (mkAgent (message_history (new_agent 30)) false 30) [].

(** An agent whose history already holds [n] turns. *)
Definition with_history (n : nat) (max_history : Z) (w : World) : St World :=
  mkSt w (mkAgent (repeat (mkTurn assistant (Str "...")) n) true max_history) [].

End Scripted.


(* ===================================================================== *)
(** ** A scripted host, to run [main.py] on concrete inputs *)
(* ===================================================================== *)

Module ScriptedHost.
Import Scripted.

(** The scripted world of the agent, with a clock: the operator presses
    Ctrl-C during the sleep that follows the given number of ticks, if any,
    and the ticks fail with [tick_failure], if any. *)
Record World : Type := mkWorld {
  agent_world : Scripted.World;
  ticks_before_interrupt : option nat;
  tick_failure : option exn
}.

Definition lifted {A} (op : Scripted.World -> result A * Scripted.World)
    (w : World) : result A * World :=
  let '(r, w') := op (agent_world w) in
  (r, mkWorld w' (ticks_before_interrupt w) (tick_failure w)).

#[export] Instance emulator_facade : EmulatorFacade World := {
  emu_get_screenshot := lifted emu_get_screenshot;
  emu_get_state_from_memory := lifted emu_get_state_from_memory;
  emu_get_location := lifted emu_get_location;
  emu_get_active_dialog := lifted emu_get_active_dialog;
  emu_get_collision_map := lifted emu_get_collision_map;
  emu_press_buttons b wt := lifted (emu_press_buttons b wt);
  emu_find_path r c := lifted (emu_find_path r c);
  emu_stop := lifted emu_stop
}.

#[export] Instance chat_client : ChatClient World := {
  chat_completions_create r := lifted (chat_completions_create r)
}.

#[export] Instance host : Host World := {
  emu_tick _ w :=
    (match tick_failure w with
     | Some e => Raise e
     | None => Ok tt
     end,
     mkWorld (agent_world w)
       (match ticks_before_interrupt w with
        | Some (S n) => Some n
        | other => other
        end)
       (tick_failure w));
  time_sleep _ w :=
    match ticks_before_interrupt w with
    | Some O => (Raise KeyboardInterrupt, w)
    | _ => (Ok tt, w)
    end
}.

(** A new agent in Pallet Town, the console empty. *)
Definition boot (interrupt : option nat) (failure : option exn)
    : MainSt World :=
  mkMainSt
    (mkSt (mkWorld (pallet_town []) interrupt failure) (new_agent 30) [])
    [].

(** The keys of a short session: faster, a key that means nothing, the
    handoff, slower, quit. *)
Definition session : list (option string) :=
  [None; Some "="; Some "x"; Some "8"; None; Some "-"; Some "Q"; None].

End ScriptedHost.

(** A host whose ticks and sleeps always return, on the scripted world of
    the agent. *)
Module CalmHost.
Import Scripted.

#[export] Instance host : Host Scripted.World := {
  emu_tick _ w := (Ok tt, w);
  time_sleep _ w := (Ok tt, w)
}.

(** An agent that was stopped, the console empty. *)
Definition stopped : MainSt Scripted.World :=
  mkMainSt
    (mkSt (pallet_town [])
          (mkAgent (message_history (new_agent 30)) false 30) [])
    [].

(** A new agent whose first request will fail: the service has no answer. *)
Definition offline : MainSt Scripted.World :=
  mkMainSt (start 30 (pallet_town [])) [].

End CalmHost.

(* ===================================================================== *)
(** ** Notions about the encoded text *)
(* ===================================================================== *)

(** The character of the base64 alphabet at a position. *)
Definition index_char (i : nat) : ascii :=
  match String.get i Base64.alphabet with
  | Some c => c
  | None => "="%char
  end.

(** The characters a base64 text is made of: the alphabet and the padding
    sign. *)
Definition is_b64_char (c : ascii) : bool :=
  existsb (Ascii.eqb c) (list_ascii_of_string Base64.alphabet) || Ascii.eqb c "=".


Section ScreenshotNotions.
Context {PIL : Pillow}.

(** The image [get_screenshot_base64] saves: the frame, resized when
    [upscale] is more than 1. *)
Definition saved_image (screenshot : Image) (upscale : Z) : Image :=
  if upscale >? 1
  then pil_resize screenshot (width screenshot * upscale,
                              height screenshot * upscale)
  else screenshot.

End ScreenshotNotions.

(* ===================================================================== *)
(** ** Notions used to state the properties *)
(* ===================================================================== *)

Section Notions.
Context {CFG : Config} {PIL : Pillow} {FMT : PyFormat} {PY : Interpreter}.
Context {W : Type} {EMU : EmulatorFacade W} {CLIENT : ChatClient W}.

(** The request of a step, as [run] builds it. *)
Definition step_request (history : list Turn) (memory_info screenshot_b64 : string)
    : Request Temperature :=
  mkRequest OPENAI_MODEL TEMPERATURE MAX_TOKENS
    ([mkTurn system (Str SYSTEM_PROMPT)] ++ history
     ++ [mkTurn user (user_content memory_info screenshot_b64)])%list
    (Some _openai_tools) (Some "auto").

(** The request of [summarize_history]: no tools. *)
Definition summary_request (history : list Turn) : Request Temperature :=
  mkRequest OPENAI_MODEL TEMPERATURE MAX_TOKENS
    ([mkTurn system (Str SYSTEM_PROMPT)] ++ history
     ++ [mkTurn user (Str SUMMARY_PROMPT)])%list
    None None.

(** The loop over the tool calls in [run]. *)
Definition dispatch_all (tool_calls : list ToolCall) : M W unit :=
  for_each tool_calls (fun tc => bind (_process_tool_call tc) (fun _ => ret tt)).

(** The agent after the two turns of a step are appended. *)
Definition with_turns (a : Agent) (turns : list Turn) : Agent :=
  mkAgent (message_history a ++ turns)%list (running a) (max_history a).

(** The events of a computation are all of one kind, and it leaves the
    fields of the agent alone. *)
Definition frames {A} (P : Event -> Prop) (m : M W A) : Prop :=
  forall s r s', m s = (r, s') ->
    self s' = self s /\
    exists t, trace s' = (trace s ++ t)%list /\ Forall P t.

(** A computation leaves [running] and [max_history] as they are. *)
Definition keeps_flags {A} (m : M W A) : Prop :=
  forall s r s', m s = (r, s') ->
    running (self s') = running (self s)
    /\ max_history (self s') = max_history (self s).

Definition emulator_call (e : Event) : Prop :=
  exists c, e = EmulatorCall c.

Definition read_only_call (e : Event) : Prop :=
  exists c, e = EmulatorCall c /\ is_mutation c = false.

(** One of the emulator calls of the [press_buttons] branch raises [e]:
    the press itself or one of the four reads after it, the calls before it
    having returned.  [w] is the world before the press, [w'] the world the
    failing call leaves. *)
Inductive press_raises (buttons wait : Json.value) (e : exn) (w w' : W) : Prop :=
| raises_in_press :
    emu_press_buttons buttons wait w = (Raise e, w') ->
    press_raises buttons wait e w w'
| raises_in_state w1 :
    emu_press_buttons buttons wait w = (Ok tt, w1) ->
    emu_get_state_from_memory w1 = (Raise e, w') ->
    press_raises buttons wait e w w'
| raises_in_location w1 w2 m :
    emu_press_buttons buttons wait w = (Ok tt, w1) ->
    emu_get_state_from_memory w1 = (Ok m, w2) ->
    emu_get_location w2 = (Raise e, w') ->
    press_raises buttons wait e w w'
| raises_in_dialog w1 w2 w3 m l :
    emu_press_buttons buttons wait w = (Ok tt, w1) ->
    emu_get_state_from_memory w1 = (Ok m, w2) ->
    emu_get_location w2 = (Ok l, w3) ->
    emu_get_active_dialog w3 = (Raise e, w') ->
    press_raises buttons wait e w w'
| raises_in_collision_map w1 w2 w3 w4 m l d :
    emu_press_buttons buttons wait w = (Ok tt, w1) ->
    emu_get_state_from_memory w1 = (Ok m, w2) ->
    emu_get_location w2 = (Ok l, w3) ->
    emu_get_active_dialog w3 = (Ok d, w4) ->
    emu_get_collision_map w4 = (Raise e, w') ->
    press_raises buttons wait e w w'.

(** [find_path] found nothing to follow: [None] or an empty path. *)
Definition no_path (path : option (list string)) : Prop :=
  path = None \/ path = Some [].

(** The calls only the tool dispatcher makes. *)
Definition is_dispatch (e : Event) : bool :=
  match e with
  | EmulatorCall (press_buttons _ _) | EmulatorCall (find_path _ _) => true
  | _ => false
  end.

Definition is_append (e : Event) : bool :=
  match e with
  | HistoryAppend _ => true
  | _ => false
  end.

(** In a trace, every event of the first kind comes before every event of
    the second kind. *)
Definition all_before (first second : Event -> bool) (t : list Event) : Prop :=
  forall i j a b,
    nth_error t i = Some a -> first a = true ->
    nth_error t j = Some b -> second b = true ->
    (i < j)%nat.

(** The events that write [self.message_history]. *)
Definition is_history_write (e : Event) : bool :=
  match e with
  | HistoryAppend _ | HistoryAssign _ => true
  | _ => false
  end.



(** [k] steps in a row were completed from [s0], leaving [s]. *)
Inductive steps_completed (s0 : St W) : Z -> St W -> Prop :=
| completed_none : steps_completed s0 0 s0
| completed_next k s s' :
    steps_completed s0 k s ->
    running (self s) = true ->
    run_step s = (Ok tt, s') ->
    steps_completed s0 (k + 1) s'.

(** The states in which the test of the [while] of [run] is evaluated, over
    the life of an agent whose [run] is called again and again until it
    raises (as [ai_loop] of [main.py] does): a new agent; the state a
    completed step leaves; the state an interrupted step leaves once
    [running] is cleared; the state [run] leaves when it stops the emulator
    and returns. *)
Inductive loop_head (max : Z) : St W -> Prop :=
| head_new w t :
    loop_head max (mkSt w (new_agent max) t)
| head_step s s' :
    loop_head max s ->
    running (self s) = true ->
    run_step s = (Ok tt, s') ->
    loop_head max s'
| head_interrupt s s1 s' :
    loop_head max s ->
    running (self s) = true ->
    run_step s = (Raise KeyboardInterrupt, s1) ->
    running_assign false s1 = (Ok tt, s') ->
    loop_head max s'
| head_stop s s' :
    loop_head max s ->
    running (self s) = false ->
    emulator stop emu_stop s = (Ok tt, s') ->
    loop_head max s'.


(** The call [self.emulator.press_buttons([direction], True)] of the
    [navigate_to] branch, as an event. *)
Definition direction_press (direction : string) : Event :=
  EmulatorCall (press_buttons (JArr [JStr direction]) (JBool true)).

(** The emulator returns from the press of each direction of a path, one
    after the other, taking the world from [w] to [w']. *)
Inductive presses_return : list string -> W -> W -> Prop :=
| presses_none w : presses_return [] w w
| presses_next d ds w w1 w' :
    emu_press_buttons (JArr [JStr d]) (JBool true) w = (Ok tt, w1) ->
    presses_return ds w1 w' ->
    presses_return (d :: ds) w w'.

(** The roles of the turns [run] and [summarize_history] keep in the
    history. *)
Definition kept_role (t : Turn) : Prop :=
  role t = user \/ role t = assistant.

(** The requests among the events. *)
Definition request_of (e : Event) : option (Request Temperature) :=
  match e with
  | ChatCompletion r => Some r
  | _ => None
  end.


(** The three facts about the history that hold at every loop head. *)
Definition history_well_formed (h : list Turn) : Prop :=
  Forall kept_role h
  /\ (exists t rest, h = t :: rest /\ role t = user)
  /\ Nat.odd (length h) = true.

End Notions.


(* ===================================================================== *)
(** ** Notions used to state the properties of [main.py] *)
(* ===================================================================== *)

(** The speeds the keys can set: 1 or 5 frames for each tick, a sleep of
    [1 / 60]. *)
Definition usual_speed (speed : Speed) : Prop :=
  (frames_per_step speed = 1 \/ frames_per_step speed = 5)
  /\ sleep_seconds speed = one_sixtieth.

(** What the loops of [main] may write on the console side. *)
Definition loop_event (e : ConsoleEvent) : Prop :=
  match e with
  | Tick frames => frames = 1 \/ frames = 5
  | Sleep seconds => seconds = one_sixtieth
  | Print _ => True
  | ThreadStart => False
  end.

(** The same, the start of the thread allowed. *)
Definition main_event (e : ConsoleEvent) : Prop :=
  match e with
  | ThreadStart => True
  | other => loop_event other
  end.

(** The speed a loop goes on with, if it goes on. *)
Definition next_speed_usual (next : option Speed) : Prop :=
  match next with
  | Some speed => usual_speed speed
  | None => True
  end.

Definition is_tick (e : ConsoleEvent) : bool :=
  match e with Tick _ => true | _ => false end.

Definition is_sleep (e : ConsoleEvent) : bool :=
  match e with Sleep _ => true | _ => false end.

(** The keys the manual phase reacts to, and those the other loop reacts
    to. *)
Definition manual_key (key : string) : bool :=
  String.eqb key "8" || String.eqb key "-"
  || String.eqb key "=" || String.eqb key "+".

Definition autonomous_key (key : string) : bool :=
  String.eqb key "q" || String.eqb key "Q" || String.eqb key "-"
  || String.eqb key "=" || String.eqb key "+".

(** The console input with the keys a loop does not react to taken out:
    such a turn is left as a turn without a key. *)
Definition without_other_keys (reacts : string -> bool)
    (inputs : list (option string)) : list (option string) :=
  map (fun input =>
         match input with
         | Some key => if reacts key then Some key else None
         | None => None
         end) inputs.

Section MainNotions.
Context {CFG : Config} {W : Type} {EMU : EmulatorFacade W} {HOST : Host W}.

(** The ticks and the sleeps return, whatever the world. *)
Definition calm_host : Prop :=
  (forall frames w, fst (emu_tick frames w) = Ok tt)
  /\ (forall seconds w, fst (time_sleep seconds w) = Ok tt).

(** [emulator.stop()] returns, whatever the world. *)
Definition stop_returns : Prop :=
  forall w : W, fst (emu_stop w) = Ok tt.

(** A computation of [main.py] leaves the agent and its trace alone
    (the world may change) and writes console events of one kind. *)
Definition keeps_agent {A} (P : ConsoleEvent -> Prop) (m : MainM W A) : Prop :=
  forall ms o ms', m ms = (o, ms') ->
    self (agent_state ms') = self (agent_state ms)
    /\ trace (agent_state ms') = trace (agent_state ms)
    /\ exists t, console ms' = (console ms ++ t)%list /\ Forall P t.

(** The console events a computation of [main.py] writes are of one
    kind. *)
Definition writes {A} (P : ConsoleEvent -> Prop) (m : MainM W A) : Prop :=
  forall ms o ms', m ms = (o, ms') ->
    exists t, console ms' = (console ms ++ t)%list /\ Forall P t.

(** The state of [main] once its two opening lines are printed. *)
Definition after_banner (ms : MainSt W) : MainSt W :=
  mkMainSt (agent_state ms)
    (console ms ++
       [Print (nl ++ "Game initialized. You can play manually now.");
        Print "When you want the AI to take over, press NumPad 8 (with NumLock on) in this console."])%list.

(** The state [agent.stop()] leaves, and how the call ends. *)
Definition stopped_state (ms : MainSt W) : MainSt W :=
  let s := agent_state ms in
  mkMainSt
    (mkSt (snd (emu_stop (world s)))
          (mkAgent (message_history (self s)) false (max_history (self s)))
          (trace s ++ [RunningAssign false; EmulatorCall stop])%list)
    (console ms).

Definition stop_outcome (ms : MainSt W) : Outcome unit :=
  match fst (emu_stop (world (agent_state ms))) with
  | Ok _ => Done tt
  | Raise e => Raised e
  end.

(** The state of [main] once the thread is started. *)
Definition thread_started (ms : MainSt W) : MainSt W :=
  mkMainSt (agent_state ms) (console ms ++ [ThreadStart])%list.

(** What a computation returns, when it returns, has a property. *)
Definition returns {A} (Q : A -> Prop) (m : MainM W A) : Prop :=
  forall ms a ms', m ms = (Done a, ms') -> Q a.

End MainNotions.

Section MainPhases.
Context {CFG : Config} {PIL : Pillow} {FMT : PyFormat} {PY : Interpreter}.
Context {W : Type} {EMU : EmulatorFacade W} {CLIENT : ChatClient W}.
Context {HOST : Host W}.

(** The last statement of [main]: the loop of the main thread in its
    [try], with [agent.stop()] in the [finally]. *)
Definition autonomous_phase (inputs : list (option string)) (speed : Speed)
    : MainM W unit :=
  mtry_finally
    (mtry_except_KeyboardInterrupt
       (mbind
          (print (nl ++ "AI is now playing. Press 'q' to quit or use speed controls (-/=)"))
          (fun _ => autonomous_loop inputs speed))
       (mret tt))
    (agent_call OpenAIAgent_stop).

End MainPhases.

(* ===================================================================== *)
(** ** Properties *)
(* ===================================================================== *)

(** *** The decoder never runs out of fuel *)

Ltac break_match :=
  match goal with
  | |- context [match ?x with _ => _ end] => destruct x eqn:?
  | H : context [match ?x with _ => _ end] |- _ => destruct x eqn:?
  end.

Lemma skip_ws_length s : (String.length (skip_ws s) <= String.length s)%nat.
Proof.
  induction s as [| c s IH]; cbn; [lia |].
  destruct (is_ws c); cbn; lia.
Qed.

Lemma scanstring_shorter n :
  forall s acc, (String.length s <= n)%nat ->
    scanstring s acc <> OutOfFuel
    /\ forall a r, scanstring s acc = Scanned a r ->
         (String.length r < String.length s)%nat.
Proof.
  induction n as [| n IH]; intros s acc Hn.
  - destruct s; [| cbn in Hn; lia]. cbn. split; [discriminate | discriminate].
  - destruct s as [| c rest]; [cbn; split; discriminate |].
    cbn [String.length] in Hn.
    assert (Hrec : forall r acc', (String.length r <= String.length rest)%nat ->
              scanstring r acc' <> OutOfFuel
              /\ forall a r', scanstring r acc' = Scanned a r' ->
                   (String.length r' < String.length (String c rest))%nat).
    { intros r acc' Hr. destruct (IH r acc' ltac:(lia)) as [H1 H2].
      split; [exact H1 |]. intros a r' E. specialize (H2 _ _ E).
      cbn [String.length]. lia. }
    cbn [scanstring].
    repeat (break_match; subst; cbn [String.length] in *);
      try (split; [discriminate | discriminate]);
      try (split; [discriminate | intros ? ? E; inversion E; subst;
                                  cbn [String.length]; lia]);
      try (apply Hrec; cbn [String.length]; lia).
Qed.

Lemma span_digits_length s :
  (String.length (snd (span_digits s)) <= String.length s)%nat.
Proof.
  induction s as [| c s IH]; cbn; [lia |].
  destruct (is_digit c); cbn; [| lia].
  destruct (span_digits s) as [ds r]. cbn in *. lia.
Qed.

Lemma strip_prefix_length p :
  forall s r, strip_prefix p s = Some r ->
    String.length s = (String.length p + String.length r)%nat.
Proof.
  induction p as [| a p IH]; intros s r H; cbn in H.
  - inversion H. reflexivity.
  - destruct s as [| b s]; [discriminate H |].
    destruct (Ascii.eqb a b); [| discriminate H].
    cbn. rewrite (IH _ _ H). reflexivity.
Qed.

Lemma span_digits_rest s ds r :
  span_digits s = (ds, r) -> (String.length r <= String.length s)%nat.
Proof.
  intros E. pose proof (span_digits_length s) as L. rewrite E in L. exact L.
Qed.

Ltac span_lengths :=
  repeat match goal with
         | E : span_digits _ = (_, _) |- _ => apply span_digits_rest in E
         end.

Lemma match_integer_shorter s i r :
  match_integer s = Some (i, r) -> (String.length r < String.length s)%nat.
Proof.
  unfold match_integer. intros H.
  repeat (break_match; subst); try discriminate;
    repeat match goal with
           | E : (_, _) = (_, _) |- _ => inversion E; subst; clear E
           | E : Some _ = Some _ |- _ => inversion E; subst; clear E
           end;
    span_lengths; cbn [String.length] in *; lia.
Qed.

Lemma match_frac_length s :
  (String.length (snd (match_frac s)) <= String.length s)%nat.
Proof.
  unfold match_frac.
  repeat (break_match; subst); span_lengths; cbn [String.length snd] in *; lia.
Qed.

Lemma match_exp_length s :
  (String.length (snd (match_exp s)) <= String.length s)%nat.
Proof.
  unfold match_exp.
  repeat (break_match; subst);
    repeat match goal with
           | E : (_, _) = (_, _) |- _ => inversion E; subst; clear E
           end;
    span_lengths; cbn [String.length snd] in *; lia.
Qed.

Section DecoderFuel.
Context {PY : Interpreter}.

Lemma scan_number_shorter s :
  scan_number s <> OutOfFuel
  /\ forall v r, scan_number s = Scanned v r ->
       (String.length r < String.length s)%nat.
Proof.
  unfold scan_number.
  destruct (match_integer s) as [[i r0] |] eqn:Ei;
    [| split; discriminate].
  apply match_integer_shorter in Ei.
  pose proof (match_frac_length r0) as Lf.
  destruct (match_frac r0) as [f r1]. cbn in Lf.
  pose proof (match_exp_length r1) as Le.
  destruct (match_exp r1) as [e r2]. cbn in Le.
  destruct f, e;
    try destruct (exceeds_limit (String.length (digits_of i)));
    (split; [discriminate |]); intros v r H; inversion H; subst; lia.
Qed.

Lemma scan_literal_shorter room s :
  scan_literal room s <> OutOfFuel
  /\ forall v r, scan_literal room s = Scanned v r ->
       (String.length r < String.length s)%nat.
Proof.
  unfold scan_literal, scan_constant.
  destruct (scan_number_shorter s) as [Hne Hlt].
  repeat break_match; subst;
    (split; [discriminate |]); intros v' r' E; inversion E; subst;
    try match goal with
        | H : strip_prefix _ _ = Some _ |- _ =>
            apply strip_prefix_length in H; cbn in H; lia
        end;
    try (eapply Hlt; reflexivity);
    exfalso; apply Hne; reflexivity.
Qed.

(** Fuel twice the length of the text, and one or two more, is never used
    up; what is left after a value is shorter than the text. *)
Lemma malformed_fuel {A} (room : nat) (n : nat) :
  (malformed room : scan A) <> OutOfFuel
  /\ forall (a : A) r, malformed room = Scanned a r ->
       (String.length r < n)%nat.
Proof.
  unfold malformed. destruct (decode_error_at room); split; discriminate.
Qed.

Ltac no_value :=
  first [ apply malformed_fuel
        | unfold stop_iteration; apply malformed_fuel
        | split; discriminate ].

Lemma scan_fuel fuel :
  (forall room s, (2 * String.length s + 1 <= fuel)%nat ->
     scan_once fuel room s <> OutOfFuel
     /\ forall v r, scan_once fuel room s = Scanned v r ->
          (String.length r < String.length s)%nat)
  /\ (forall room s acc, (2 * String.length s + 2 <= fuel)%nat ->
       scan_array fuel room s acc <> OutOfFuel
       /\ forall v r, scan_array fuel room s acc = Scanned v r ->
            (String.length r < String.length s)%nat)
  /\ (forall room s acc, (2 * String.length s + 2 <= fuel)%nat ->
       scan_object fuel room s acc <> OutOfFuel
       /\ forall v r, scan_object fuel room s acc = Scanned v r ->
            (String.length r < String.length s)%nat).
Proof.
  induction fuel as [| fuel (IHonce & IHarray & IHobject)].
  - repeat split; intros; lia.
  - split; [| split].
    + intros room s Hfuel.
      destruct s as [| c rest]; [cbn [scan_once]; no_value |].
      cbn [String.length] in Hfuel. cbn [scan_once].
      destruct (Ascii.eqb c "034").
      { destruct (scanstring_shorter (n := String.length rest) rest ""
                    (Nat.le_refl _)) as [Hne Hlt].
        destruct (scanstring rest "") as [str r | | e |] eqn:E.
        - split; [discriminate |]. intros v r' H. inversion H; subst.
          specialize (Hlt _ _ eq_refl). cbn [String.length]. lia.
        - no_value.
        - no_value.
        - exfalso. apply Hne. reflexivity. }
      destruct (Ascii.eqb c "{").
      { destruct room as [| room]; [no_value |].
        pose proof (skip_ws_length rest) as Lw.
        destruct (skip_ws rest) as [| c1 rest1]; [no_value |].
        cbn [String.length] in Lw.
        destruct (Ascii.eqb c1 "}").
        - split; [discriminate |]. intros v r H. inversion H; subst.
          cbn [String.length]. lia.
        - destruct (Ascii.eqb c1 "034"); [| no_value].
          destruct (IHobject room rest1 [] ltac:(lia)) as [Hne Hlt].
          split; [exact Hne |]. intros v r H. specialize (Hlt _ _ H).
          cbn [String.length]. lia. }
      destruct (Ascii.eqb c "[").
      { destruct room as [| room]; [no_value |].
        pose proof (skip_ws_length rest) as Lw.
        destruct (skip_ws rest) as [| c1 rest1].
        - destruct (IHarray room EmptyString [] ltac:(cbn; lia))
            as [Hne Hlt].
          split; [exact Hne |]. intros v r H. specialize (Hlt _ _ H).
          cbn in Hlt. lia.
        - cbn [String.length] in Lw.
          destruct (Ascii.eqb c1 "]").
          + split; [discriminate |]. intros v r H. inversion H; subst.
            cbn [String.length]. lia.
          + destruct (IHarray room (String c1 rest1) []
                        ltac:(cbn [String.length]; lia)) as [Hne Hlt].
            split; [exact Hne |]. intros v r H. specialize (Hlt _ _ H).
            cbn [String.length] in *. lia. }
      destruct (scan_literal_shorter room (String c rest)) as [Hne Hlt].
      destruct (scan_literal room (String c rest)) as [v r | | e |] eqn:E.
      * split; [discriminate |]. intros v' r' H. inversion H; subst.
        apply (Hlt _ _ eq_refl).
      * no_value.
      * no_value.
      * exfalso. apply Hne. reflexivity.
    + intros room s acc Hfuel. cbn [scan_array].
      destruct (IHonce room s ltac:(lia)) as [Hne Hlt].
      destruct (scan_once fuel room s) as [v r | | e |] eqn:E;
        [| no_value | no_value | exfalso; apply Hne; reflexivity].
      specialize (Hlt _ _ eq_refl).
      pose proof (skip_ws_length r) as Lw.
      destruct (skip_ws r) as [| c r1]; [no_value |].
      cbn [String.length] in Lw.
      destruct (Ascii.eqb c "]").
      { split; [discriminate |]. intros v' r' H. inversion H; subst. lia. }
      destruct (Ascii.eqb c ","); [| no_value].
      pose proof (skip_ws_length r1) as Lw1.
      destruct (IHarray room (skip_ws r1) (v :: acc) ltac:(lia))
        as [Hne' Hlt'].
      split; [exact Hne' |]. intros v' r' H. specialize (Hlt' _ _ H). lia.
    + intros room s acc Hfuel. cbn [scan_object].
      destruct (scanstring_shorter (n := String.length s) s ""
                  (Nat.le_refl _)) as [Hne Hlt].
      destruct (scanstring s "") as [key r | | e |] eqn:E;
        [| no_value | no_value | exfalso; apply Hne; reflexivity].
      specialize (Hlt _ _ eq_refl).
      pose proof (skip_ws_length r) as Lw.
      destruct (skip_ws r) as [| colon r1]; [no_value |].
      cbn [String.length] in Lw.
      destruct (Ascii.eqb colon ":"); [| no_value].
      pose proof (skip_ws_length r1) as Lw1.
      destruct (IHonce room (skip_ws r1) ltac:(lia)) as [Hne1 Hlt1].
      destruct (scan_once fuel room (skip_ws r1)) as [v r2 | | e |] eqn:E1;
        [| no_value | no_value | exfalso; apply Hne1; reflexivity].
      specialize (Hlt1 _ _ eq_refl).
      pose proof (skip_ws_length r2) as Lw2.
      destruct (skip_ws r2) as [| c r3]; [no_value |].
      cbn [String.length] in Lw2.
      destruct (Ascii.eqb c "}").
      { split; [discriminate |]. intros v' r' H. inversion H; subst. lia. }
      destruct (Ascii.eqb c ","); [| no_value].
      pose proof (skip_ws_length r3) as Lw3.
      destruct (skip_ws r3) as [| q r4]; [no_value |].
      cbn [String.length] in Lw3.
      destruct (Ascii.eqb q "034"); [| no_value].
      destruct (IHobject room r4 (dict_set acc key v) ltac:(lia))
        as [Hne' Hlt'].
      split; [exact Hne' |]. intros v' r' H. specialize (Hlt' _ _ H). lia.
Qed.

(** [loads] never runs out of fuel: [JSONDecodeError] always stands for a
    text that is not JSON. *)
Lemma loads_fuel (s : string) :
  decode (2 * String.length s + 1) s <> OutOfFuel.
Proof.
  unfold decode.
  pose proof (skip_ws_length s) as Lw.
  destruct (scan_fuel (2 * String.length s + 1)) as (Honce & _ & _).
  destruct (Honce (Pos.to_nat recursion_room) (skip_ws s) ltac:(lia))
    as [Hne _].
  destruct (scan_once (2 * String.length s + 1) (Pos.to_nat recursion_room)
              (skip_ws s)) as [v r | | e |];
    [| discriminate | discriminate | exfalso; apply Hne; reflexivity].
  destruct (skip_ws r); [discriminate |].
  apply (malformed_fuel (A := value) _ 0).
Qed.

End DecoderFuel.

(** *** The base64 encoding *)

Section Base64Facts.
Import Base64.

Lemma land_shift_disjoint hi lo k :
  0 <= k -> 0 <= lo < 2 ^ k -> Z.land (Z.shiftl hi k) lo = 0.
Proof.
  intros Hk Hlo. apply Z.bits_inj'. intros n Hn.
  rewrite Z.land_spec, Z.bits_0.
  destruct (Z.lt_ge_cases n k) as [L | G].
  - rewrite Z.shiftl_spec_low by exact L. reflexivity.
  - replace (Z.testbit lo n) with false; [apply andb_false_r |].
    symmetry. apply Z.testbit_false; [exact Hn |].
    rewrite Z.div_small; [reflexivity |].
    split; [lia |]. apply Z.lt_le_trans with (2 ^ k); [lia |].
    apply Z.pow_le_mono_r; lia.
Qed.

Lemma lor_shift_disjoint hi lo k :
  0 <= k -> 0 <= lo < 2 ^ k -> Z.lor (Z.shiftl hi k) lo = hi * 2 ^ k + lo.
Proof.
  intros Hk Hlo.
  rewrite <- Z.lxor_lor by (apply land_shift_disjoint; assumption).
  rewrite <- Z.add_nocarry_lxor by (apply land_shift_disjoint; assumption).
  rewrite Z.shiftl_mul_pow2 by exact Hk. reflexivity.
Qed.

Lemma group3 a b c :
  0 <= a < 256 -> 0 <= b < 256 -> 0 <= c < 256 ->
  Z.lor (Z.lor (Z.shiftl a 16) (Z.shiftl b 8)) c = a * 65536 + b * 256 + c.
Proof.
  intros Ha Hb Hc.
  rewrite (Z.shiftl_mul_pow2 b 8) by lia.
  rewrite (@lor_shift_disjoint a (b * 2 ^ 8) 16) by lia.
  replace (a * 2 ^ 16 + b * 2 ^ 8) with (Z.shiftl (a * 256 + b) 8)
    by (rewrite Z.shiftl_mul_pow2; lia).
  rewrite lor_shift_disjoint by lia. lia.
Qed.

Lemma digits_inj n m :
  0 <= n < 16777216 -> 0 <= m < 16777216 ->
  Z.land (Z.shiftr n 18) 63 = Z.land (Z.shiftr m 18) 63 ->
  Z.land (Z.shiftr n 12) 63 = Z.land (Z.shiftr m 12) 63 ->
  Z.land (Z.shiftr n 6) 63 = Z.land (Z.shiftr m 6) 63 ->
  Z.land n 63 = Z.land m 63 ->
  n = m.
Proof.
  intros Hn Hm.
  change 63 with (Z.ones 6). rewrite !Z.land_ones by lia.
  rewrite !Z.shiftr_div_pow2 by lia.
  change (2 ^ 18) with 262144. change (2 ^ 12) with 4096.
  change (2 ^ 6) with 64.
  intros. Z.div_mod_to_equations. lia.
Qed.


Lemma land63_bound n : (Z.to_nat (Z.land n 63) < 64)%nat.
Proof.
  change 63 with (Z.ones 6). rewrite Z.land_ones by lia.
  pose proof (Z.mod_pos_bound n (2 ^ 6) ltac:(lia)). lia.
Qed.

Lemma get_alphabet i : (i < 64)%nat -> String.get i alphabet = Some (index_char i).
Proof.
  intros H. unfold index_char.
  do 64 (destruct i as [| i]; [reflexivity |]). lia.
Qed.

Lemma sextet_char n :
  sextet n = String (index_char (Z.to_nat (Z.land n 63))) EmptyString.
Proof.
  unfold sextet. rewrite get_alphabet by apply land63_bound. reflexivity.
Qed.

Lemma index_char_table :
  forallb (fun i =>
     negb (Ascii.eqb (index_char i) "=")
     && forallb (fun j =>
          if Ascii.eqb (index_char i) (index_char j) then Nat.eqb i j else true)
          (seq 0 64))
    (seq 0 64) = true.
Proof. vm_compute. reflexivity. Qed.

Lemma index_char_inj i j :
  (i < 64)%nat -> (j < 64)%nat -> index_char i = index_char j -> i = j.
Proof.
  intros Hi Hj E. pose proof index_char_table as T.
  rewrite forallb_forall in T.
  specialize (T i ltac:(apply in_seq; lia)).
  apply andb_prop in T. destruct T as [_ T].
  rewrite forallb_forall in T.
  specialize (T j ltac:(apply in_seq; lia)).
  rewrite E, Ascii.eqb_refl in T. apply Nat.eqb_eq. exact T.
Qed.

Lemma index_char_not_pad i : (i < 64)%nat -> index_char i <> "="%char.
Proof.
  intros Hi E. pose proof index_char_table as T.
  rewrite forallb_forall in T.
  specialize (T i ltac:(apply in_seq; lia)).
  apply andb_prop in T. destruct T as [T _].
  rewrite E in T. discriminate T.
Qed.

Lemma sextet_inj n m : sextet n = sextet m -> Z.land n 63 = Z.land m 63.
Proof.
  rewrite !sextet_char. intros E. inversion E as [E'].
  apply index_char_inj in E'; try apply land63_bound.
  assert (0 <= Z.land n 63) by (apply Z.land_nonneg; lia).
  assert (0 <= Z.land m 63) by (apply Z.land_nonneg; lia).
  lia.
Qed.

Lemma byteZ_bound b : 0 <= byteZ b < 256.
Proof.
  unfold byteZ. pose proof (Byte.to_N_bounded b). lia.
Qed.

Lemma byteZ_inj a b : byteZ a = byteZ b -> a = b.
Proof.
  unfold byteZ. intros E. apply N2Z.inj in E.
  pose proof (Byte.of_to_N a) as Ha. rewrite E, Byte.of_to_N in Ha.
  congruence.
Qed.

Lemma index_char_valid_table :
  forallb (fun i => is_b64_char (index_char i)) (seq 0 64) = true.
Proof. vm_compute. reflexivity. Qed.

Lemma index_char_valid i : (i < 64)%nat -> is_b64_char (index_char i) = true.
Proof.
  intros Hi. pose proof index_char_valid_table as T.
  rewrite forallb_forall in T. apply T. apply in_seq. lia.
Qed.

Lemma list_ind3 (A : Type) (P : list A -> Prop) :
  P [] -> (forall a, P [a]) -> (forall a b, P [a; b]) ->
  (forall a b c l, P l -> P (a :: b :: c :: l)) ->
  forall l, P l.
Proof.
  intros H0 H1 H2 H3 l.
  assert (H : P l /\ (forall a, P (a :: l)) /\ (forall a b, P (a :: b :: l))).
  { induction l as [| x l (IH0 & IH1 & IH2)].
    - repeat split; auto.
    - repeat split; auto. }
  exact (proj1 H).
Qed.

Lemma group_inj a b c a' b' c' :
  let n := Z.lor (Z.lor (Z.shiftl (byteZ a) 16) (Z.shiftl (byteZ b) 8)) (byteZ c) in
  let m := Z.lor (Z.lor (Z.shiftl (byteZ a') 16) (Z.shiftl (byteZ b') 8)) (byteZ c') in
  sextet (Z.shiftr n 18) = sextet (Z.shiftr m 18) ->
  sextet (Z.shiftr n 12) = sextet (Z.shiftr m 12) ->
  sextet (Z.shiftr n 6) = sextet (Z.shiftr m 6) ->
  sextet n = sextet m ->
  a = a' /\ b = b' /\ c = c'.
Proof.
  intros n m E1 E2 E3 E4.
  apply sextet_inj in E1, E2, E3, E4.
  pose proof (byteZ_bound a). pose proof (byteZ_bound b).
  pose proof (byteZ_bound c). pose proof (byteZ_bound a').
  pose proof (byteZ_bound b'). pose proof (byteZ_bound c').
  assert (Hn : n = byteZ a * 65536 + byteZ b * 256 + byteZ c)
    by (apply group3; assumption).
  assert (Hm : m = byteZ a' * 65536 + byteZ b' * 256 + byteZ c')
    by (apply group3; assumption).
  assert (E : n = m) by (apply digits_inj; try assumption; lia).
  repeat split; apply byteZ_inj; lia.
Qed.

Lemma group1_inj a a' :
  let n := Z.shiftl (byteZ a) 16 in
  let m := Z.shiftl (byteZ a') 16 in
  sextet (Z.shiftr n 18) = sextet (Z.shiftr m 18) ->
  sextet (Z.shiftr n 12) = sextet (Z.shiftr m 12) ->
  a = a'.
Proof.
  intros n m E1 E2. apply sextet_inj in E1, E2.
  pose proof (byteZ_bound a). pose proof (byteZ_bound a').
  subst n m. rewrite !Z.shiftl_mul_pow2 in E1, E2 by lia.
  revert E1 E2.
  change 63 with (Z.ones 6). rewrite !Z.land_ones by lia.
  rewrite !Z.shiftr_div_pow2 by lia.
  change (2 ^ 18) with 262144. change (2 ^ 12) with 4096.
  change (2 ^ 16) with 65536. change (2 ^ 6) with 64.
  intros. apply byteZ_inj. Z.div_mod_to_equations. lia.
Qed.

Lemma group2_inj a b a' b' :
  let n := Z.lor (Z.shiftl (byteZ a) 16) (Z.shiftl (byteZ b) 8) in
  let m := Z.lor (Z.shiftl (byteZ a') 16) (Z.shiftl (byteZ b') 8) in
  sextet (Z.shiftr n 18) = sextet (Z.shiftr m 18) ->
  sextet (Z.shiftr n 12) = sextet (Z.shiftr m 12) ->
  sextet (Z.shiftr n 6) = sextet (Z.shiftr m 6) ->
  a = a' /\ b = b'.
Proof.
  intros n m E1 E2 E3. apply sextet_inj in E1, E2, E3.
  pose proof (byteZ_bound a). pose proof (byteZ_bound b).
  pose proof (byteZ_bound a'). pose proof (byteZ_bound b').
  assert (Hn : n = byteZ a * 65536 + byteZ b * 256).
  { subst n. rewrite (Z.shiftl_mul_pow2 (byteZ b) 8) by lia.
    rewrite lor_shift_disjoint by lia. lia. }
  assert (Hm : m = byteZ a' * 65536 + byteZ b' * 256).
  { subst m. rewrite (Z.shiftl_mul_pow2 (byteZ b') 8) by lia.
    rewrite lor_shift_disjoint by lia. lia. }
  rewrite Hn, Hm in E1, E2, E3. clear Hn Hm n m.
  revert E1 E2 E3.
  change 63 with (Z.ones 6). rewrite !Z.land_ones by lia.
  rewrite !Z.shiftr_div_pow2 by lia.
  change (2 ^ 18) with 262144. change (2 ^ 12) with 4096.
  change (2 ^ 6) with 64.
  intros. split; apply byteZ_inj; Z.div_mod_to_equations; lia.
Qed.

Lemma sextet_app_inj x y s t :
  sextet x ++ s = sextet y ++ t -> sextet x = sextet y /\ s = t.
Proof.
  rewrite !sextet_char. cbn [append]. intros E. inversion E. split; reflexivity.
Qed.

Lemma sextet_app_pad x s t : sextet x ++ s = String "=" t -> False.
Proof.
  rewrite sextet_char. cbn [append]. intros E.
  assert (E' : index_char (Z.to_nat (Z.land x 63)) = "="%char)
    by (inversion E; reflexivity).
  exact (index_char_not_pad (land63_bound x) E').
Qed.

Lemma sextet_app_nil x s : sextet x ++ s = "" -> False.
Proof. rewrite sextet_char. cbn [append]. discriminate. Qed.

Ltac peel_sextets :=
  repeat match goal with
         | H : sextet _ ++ _ = sextet _ ++ _ |- _ =>
             apply sextet_app_inj in H; destruct H
         | H : sextet _ ++ _ = String "=" _ |- _ =>
             exfalso; exact (sextet_app_pad _ _ H)
         | H : String "=" _ = sextet _ ++ _ |- _ =>
             exfalso; symmetry in H; exact (sextet_app_pad _ _ H)
         | H : sextet _ ++ _ = "" |- _ =>
             exfalso; exact (sextet_app_nil _ _ H)
         | H : "" = sextet _ ++ _ |- _ =>
             exfalso; symmetry in H; exact (sextet_app_nil _ _ H)
         end.

Lemma standard_b64encode_injective (l m : list byte) :
  standard_b64encode l = standard_b64encode m -> l = m.
Proof.
  revert m. induction l as [| a | a b | a b c l IH] using list_ind3;
    intros m E;
    destruct m as [| a' [| b' [| c' m]]];
    cbn [standard_b64encode] in E; cbn zeta in E;
    try reflexivity; peel_sextets.
  - f_equal. eapply group1_inj; eassumption.
  - destruct (@group2_inj a b a' b') as [-> ->]; try assumption. reflexivity.
  - match goal with
    | H : standard_b64encode l = standard_b64encode m |- _ =>
        rewrite (IH _ H)
    end.
    destruct (@group_inj a b c a' b' c') as (-> & -> & ->); try assumption.
    reflexivity.
Qed.

Lemma standard_b64encode_length (l : list byte) :
  Z.of_nat (String.length (standard_b64encode l))
  = 4 * ((Z.of_nat (length l) + 2) / 3).
Proof.
  induction l as [| a | a b | a b c l IH] using list_ind3;
    cbn [standard_b64encode]; cbn zeta; rewrite ?sextet_char;
    cbn [append String.length length]; try reflexivity.
  rewrite !Nat2Z.inj_succ, IH.
  replace (Z.succ (Z.succ (Z.succ (Z.of_nat (length l)))) + 2)
    with (Z.of_nat (length l) + 2 + 1 * 3) by lia.
  rewrite Z.div_add by lia. lia.
Qed.

Lemma standard_b64encode_alphabet (l : list byte) :
  forallb is_b64_char (list_ascii_of_string (standard_b64encode l)) = true.
Proof.
  induction l as [| a | a b | a b c l IH] using list_ind3;
    cbn [standard_b64encode]; cbn zeta; rewrite ?sextet_char;
    cbn [append list_ascii_of_string forallb];
    rewrite ?index_char_valid by apply land63_bound;
    try reflexivity.
  cbn [andb]. exact IH.
Qed.

End Base64Facts.

Section Properties.
Context {CFG : Config} {PIL : Pillow} {FMT : PyFormat} {PY : Interpreter}.
Context {W : Type} {EMU : EmulatorFacade W} {CLIENT : ChatClient W}.

Notation "x <- m ;; k" := (bind m (fun x => k))
  (at level 61, m at next level, right associativity).
Notation "m ;;; k" := (bind m (fun _ => k))
  (at level 61, right associativity).

(** *** Running a computation *)

Lemma bind_run {A B} (m : M W A) (k : A -> M W B) s :
  bind m k s =
  match m s with
  | (Ok a, s1) => k a s1
  | (Raise e, s1) => (Raise e, s1)
  end.
Proof. reflexivity. Qed.

Lemma bind_ok {A B} (m : M W A) (k : A -> M W B) s a s1 :
  m s = (Ok a, s1) -> bind m k s = k a s1.
Proof. intros H. rewrite bind_run, H. reflexivity. Qed.

Lemma bind_raise {A B} (m : M W A) (k : A -> M W B) s e s1 :
  m s = (Raise e, s1) -> bind m k s = (Raise e, s1).
Proof. intros H. rewrite bind_run, H. reflexivity. Qed.

Lemma bind_lift_ok {A B} (a : A) (k : A -> M W B) s :
  bind (lift (Ok a)) k s = k a s.
Proof. reflexivity. Qed.

Lemma bind_lift_raise {A B} e (k : A -> M W B) s :
  bind (lift (Raise e)) k s = (Raise e, s).
Proof. reflexivity. Qed.

Lemma bind_inv_ok {A B} (m : M W A) (k : A -> M W B) s b s' :
  bind m k s = (Ok b, s') ->
  exists a s1, m s = (Ok a, s1) /\ k a s1 = (Ok b, s').
Proof.
  rewrite bind_run. destruct (m s) as [[a | e] s1]; intros H.
  - exists a, s1. split; [reflexivity | exact H].
  - discriminate H.
Qed.

Lemma emulator_run {A} c (op : W -> result A * W) s :
  emulator c op s =
  (fst (op (world s)),
   mkSt (snd (op (world s))) (self s) (trace s ++ [EmulatorCall c])%list).
Proof.
  unfold emulator, emit. rewrite bind_run. cbn.
  destruct (op (world s)); reflexivity.
Qed.

Lemma create_run r s :
  create r s =
  (fst (chat_completions_create r (world s)),
   mkSt (snd (chat_completions_create r (world s))) (self s)
        (trace s ++ [ChatCompletion r])%list).
Proof.
  unfold create, emit. rewrite bind_run. cbn.
  destruct (chat_completions_create r (world s)); reflexivity.
Qed.

(** *** Framing *)

Lemma frames_ret {A} P (a : A) : frames P (ret a : M W A).
Proof.
  intros s r s' H. inversion H; subst. split; [reflexivity |].
  exists []. rewrite app_nil_r. split; [reflexivity | constructor].
Qed.

Lemma frames_lift {A} P (x : result A) : frames P (lift x : M W A).
Proof.
  intros s r s' H. inversion H; subst. split; [reflexivity |].
  exists []. rewrite app_nil_r. split; [reflexivity | constructor].
Qed.

Lemma frames_bind {A B} P (m : M W A) (k : A -> M W B) :
  frames P m -> (forall a, frames P (k a)) -> frames P (bind m k).
Proof.
  intros Hm Hk s r s'. rewrite bind_run.
  destruct (m s) as [[a | e] s1] eqn:E; intros H.
  - destruct (Hm _ _ _ E) as [Hs [t1 [Ht1 HP1]]].
    destruct (Hk a _ _ _ H) as [Hs' [t2 [Ht2 HP2]]].
    split; [congruence |].
    exists (t1 ++ t2)%list. split.
    + rewrite Ht2, Ht1, app_assoc. reflexivity.
    + apply Forall_app. split; assumption.
  - inversion H; subst. exact (Hm _ _ _ E).
Qed.

Lemma frames_emulator {A} (P : Event -> Prop) c (op : W -> result A * W) :
  P (EmulatorCall c) -> frames P (emulator c op).
Proof.
  intros HP s r s'. rewrite emulator_run. intros H. inversion H; subst.
  cbn. split; [reflexivity |].
  exists [EmulatorCall c]. split; [reflexivity |].
  constructor; [exact HP | constructor].
Qed.

Lemma frames_try_except {A} P (body : M W A) handler :
  frames P body -> (forall e, frames P (handler e)) ->
  frames P (try_except_Exception body handler).
Proof.
  intros Hb Hh s r s'. unfold try_except_Exception.
  destruct (body s) as [[a | [| cls msg]] s1] eqn:E; intros H.
  - inversion H; subst. exact (Hb _ _ _ E).
  - inversion H; subst. exact (Hb _ _ _ E).
  - destruct (Hb _ _ _ E) as [Hs [t1 [Ht1 HP1]]].
    destruct (Hh _ _ _ _ H) as [Hs' [t2 [Ht2 HP2]]].
    split; [congruence |].
    exists (t1 ++ t2)%list. split.
    + rewrite Ht2, Ht1, app_assoc. reflexivity.
    + apply Forall_app. split; assumption.
Qed.

Lemma frames_for_each {A} P (xs : list A) (body : A -> M W unit) :
  (forall x, frames P (body x)) -> frames P (for_each xs body).
Proof.
  intros Hb. induction xs as [| x xs IH]; cbn.
  - apply frames_ret.
  - apply frames_bind; [apply Hb | intros _; exact IH].
Qed.

Lemma frames_weaken {A} (P Q : Event -> Prop) (m : M W A) :
  (forall e, P e -> Q e) -> frames P m -> frames Q m.
Proof.
  intros HPQ Hm s r s' H. destruct (Hm _ _ _ H) as [Hs [t [Ht HP]]].
  split; [exact Hs |]. exists t. split; [exact Ht |].
  eapply Forall_impl; [exact HPQ | exact HP].
Qed.

Create HintDb frames.
#[local] Hint Resolve frames_ret frames_lift frames_emulator : frames.

Lemma emulator_call_intro c : emulator_call (EmulatorCall c).
Proof. exists c. reflexivity. Qed.

#[local] Hint Resolve emulator_call_intro : frames.

(** The dispatcher only talks to the emulator: whatever the tool call and
    the outcome, the agent's fields are untouched. *)
Lemma _process_tool_call_frames tool_call :
  frames emulator_call (_process_tool_call tool_call).
Proof.
  unfold _process_tool_call.
  apply frames_bind; [auto with frames | intros arguments].
  destruct (String.eqb (tc_name tool_call) "press_buttons").
  - apply frames_bind; [auto with frames | intros buttons].
    apply frames_bind; [auto with frames | intros wait].
    apply frames_try_except; [| intros e; auto with frames].
    repeat (apply frames_bind; [auto with frames | intros ?]).
    auto with frames.
  - destruct (String.eqb (tc_name tool_call) "navigate_to");
      [| auto with frames].
    apply frames_bind; [auto with frames | intros row].
    apply frames_bind; [auto with frames | intros col].
    apply frames_bind; [auto with frames | intros [status path]].
    apply frames_bind.
    + destruct path as [[| d ds] |]; auto with frames.
      apply frames_bind; [| intros ?; auto with frames].
      apply frames_for_each. intros x. auto with frames.
    + intros result.
      repeat (apply frames_bind; [auto with frames | intros ?]).
      auto with frames.
Qed.

(** *** The tool dispatcher *)

Lemma string_eqb_false (a b : string) : a <> b -> String.eqb a b = false.
Proof. intros H. apply String.eqb_neq. exact H. Qed.

Lemma contains_intro (pre s post : string) : contains (pre ++ s ++ post) s.
Proof. exists pre, post. reflexivity. Qed.

(** What leaves [json.loads] and is not a [JSONDecodeError] leaves
    [_process_tool_call] too, whatever the name of the tool: the arguments
    are decoded before the name is looked at.  Nothing was done by then. *)
Lemma decoder_error_leaves_dispatcher (tool_call : ToolCall) (e : exn)
    (s : St W) :
  Json.loads (or_str (tc_arguments tool_call) "{}") = Json.OtherError e ->
  _process_tool_call tool_call s = (Raise e, s).
Proof.
  intros Hloads. unfold _process_tool_call, decoded_arguments.
  rewrite Hloads. reflexivity.
Qed.

(** A tool call whose name is neither [press_buttons] nor [navigate_to],
    when the decoding of its arguments returns or raises [JSONDecodeError]:
    the call returns the report [Error: Unknown tool '<name>'] and leaves the
    whole state as it was: the world is the same and the trace has no new
    event, so no call reached the emulator.  The report is not empty and
    names the tool. *)
Lemma unknown_tool_is_reported (tool_call : ToolCall)
    (arguments : Json.value) (s : St W) :
  tc_name tool_call <> "press_buttons" ->
  tc_name tool_call <> "navigate_to" ->
  decoded_arguments tool_call = Ok arguments ->
  _process_tool_call tool_call s
    = (Ok ("Error: Unknown tool '" ++ tc_name tool_call ++ "'"), s)
  /\ "Error: Unknown tool '" ++ tc_name tool_call ++ "'" <> ""
  /\ contains ("Error: Unknown tool '" ++ tc_name tool_call ++ "'")
              (tc_name tool_call).
Proof.
  intros Hp Hn Hdec. unfold _process_tool_call.
  rewrite Hdec, bind_lift_ok.
  rewrite (string_eqb_false Hp), (string_eqb_false Hn).
  split; [reflexivity |]. split; [discriminate |].
  apply contains_intro.
Qed.

(** When [json.loads] raises [JSONDecodeError] the dispatcher goes on with
    an empty [dict]: [press_buttons] is called with an empty list of
    buttons and [wait=True]. *)
Lemma undecodable_press_uses_defaults (tool_call : ToolCall) (s : St W) :
  tc_name tool_call = "press_buttons" ->
  Json.loads (or_str (tc_arguments tool_call) "{}") = Json.JSONDecodeError ->
  exists r s' t,
    _process_tool_call tool_call s = (r, s')
    /\ trace s' = (trace s ++ EmulatorCall (press_buttons (JArr []) (JBool true)) :: t)%list
    /\ (forall e, r = Raise e -> e = KeyboardInterrupt).
Proof.
  intros Hname Hloads. unfold _process_tool_call, decoded_arguments.
  rewrite Hname, Hloads, bind_lift_ok.
  cbn [String.eqb Ascii.eqb Bool.eqb py_get dict_get].
  rewrite !bind_lift_ok. unfold try_except_Exception.
  match goal with
  | |- context [match ?b s with _ => _ end] => remember b as body eqn:Hbody
  end.
  destruct (body s) as [r s1] eqn:E.
  assert (Ht : exists t, trace s1
     = (trace s ++ EmulatorCall (press_buttons (JArr []) (JBool true)) :: t)%list).
  { subst body. rewrite bind_run, emulator_run in E.
    destruct (fst (emu_press_buttons (JArr []) (JBool true) (world s))).
    - match type of E with
      | ?k ?a ?s0 = _ =>
          assert (F : frames emulator_call (k a))
      end.
      { repeat (apply frames_bind; [auto with frames | intros ?]).
        auto with frames. }
      destruct (F _ _ _ E) as [_ [t [Ht _]]]. cbn in Ht.
      exists t. rewrite Ht, <- app_assoc. reflexivity.
    - inversion E; subst. cbn. exists []. reflexivity. }
  destruct Ht as [t Ht].
  destruct r as [a | [| cls msg]].
  - exists (Ok a), s1, t. repeat split; [exact Ht | discriminate].
  - exists (Raise KeyboardInterrupt), s1, t.
    repeat split; [exact Ht | congruence].
  - eexists _, s1, t. cbn. repeat split; [exact Ht | discriminate].
Qed.


Lemma bind_emulator_ok {A B} c (op : W -> result A * W) (k : A -> M W B) s a w1 :
  op (world s) = (Ok a, w1) ->
  bind (emulator c op) k s
    = k a (mkSt w1 (self s) (trace s ++ [EmulatorCall c])%list).
Proof.
  intros H. apply bind_ok. rewrite emulator_run, H. reflexivity.
Qed.

Lemma bind_emulator_raise {A B} c (op : W -> result A * W) (k : A -> M W B)
    s e w1 :
  op (world s) = (Raise e, w1) ->
  bind (emulator c op) k s
    = (Raise e, mkSt w1 (self s) (trace s ++ [EmulatorCall c])%list).
Proof.
  intros H. apply bind_raise. rewrite emulator_run, H. reflexivity.
Qed.

Ltac emulator_returns :=
  erewrite bind_emulator_ok by (cbn [world]; eassumption).
Ltac emulator_raises :=
  erewrite bind_emulator_raise by (cbn [world]; eassumption).

(** C4, at an argument text that is valid JSON but not an object.  The
    text [[]] decodes to an empty list, a list has no [get], and the
    [AttributeError] leaves [_process_tool_call] before the emulator is
    called: no empty [dict] is put in its place. *)
Theorem press_buttons_array_arguments_raise (s : St W) :
  Json.loads "[]" = Json.Decoded (JArr [])
  /\ _process_tool_call (mkToolCall "press_buttons" (Some "[]")) s
     = (Raise (Exception "AttributeError"
                 "'list' object has no attribute 'get'"), s).
Proof.
  assert (Hloads : Json.loads "[]" = Json.Decoded (JArr [])).
  { unfold Json.loads, decode.
    destruct (Pos2Nat.is_succ recursion_room) as [room Hroom].
    rewrite Hroom. reflexivity. }
  split; [exact Hloads |].
  unfold _process_tool_call, decoded_arguments.
  change (or_str (tc_arguments (mkToolCall "press_buttons" (Some "[]"))) "{}")
    with "[]".
  rewrite Hloads. reflexivity.
Qed.

(** Any argument text that decodes to something other than an object makes
    the [press_buttons] branch raise [AttributeError] at [arguments.get],
    before the emulator is called. *)
Lemma non_object_press_arguments_raise (tool_call : ToolCall) (v : Json.value)
    (s : St W) :
  tc_name tool_call = "press_buttons" ->
  Json.loads (or_str (tc_arguments tool_call) "{}") = Json.Decoded v ->
  (forall d, v <> JObj d) ->
  _process_tool_call tool_call s
    = (Raise (Exception "AttributeError"
                ("'" ++ type_name v ++ "' object has no attribute 'get'")), s).
Proof.
  intros Hname Hloads Hv. unfold _process_tool_call, decoded_arguments.
  rewrite Hname, Hloads, bind_lift_ok. cbn [String.eqb Ascii.eqb Bool.eqb].
  destruct v; try reflexivity.
  exfalso. eapply Hv. reflexivity.
Qed.

(** C10. In the [press_buttons] branch (the arguments decoded), when the
    press or one of the reads after it raises an [Exception],
    [_process_tool_call] returns the report
    [Error processing button press: <str(e)>] instead of raising, and the
    agent (its message history with it) is as before the call. *)
Theorem press_failure_is_reported (tool_call : ToolCall)
    (arguments buttons wait : Json.value) (e : exn) (s : St W) (w' : W) :
  tc_name tool_call = "press_buttons" ->
  decoded_arguments tool_call = Ok arguments ->
  py_get arguments "buttons" (JArr []) = Ok buttons ->
  py_get arguments "wait" (JBool true) = Ok wait ->
  press_raises buttons wait e (world s) w' ->
  is_Exception e = true ->
  exists s',
    _process_tool_call tool_call s
      = (Ok ("Error processing button press: " ++ str_exn e), s')
    /\ starts_with ("Error processing button press: " ++ str_exn e)
                   "Error processing button press:"
    /\ world s' = w'
    /\ self s' = self s
    /\ message_history (self s') = message_history (self s).
Proof.
  intros Hname Hdec Hb Hw Hraise He.
  destruct e as [| cls msg]; [discriminate He |].
  unfold _process_tool_call. rewrite Hdec, bind_lift_ok, Hname, Hb, Hw.
  cbn [String.eqb Ascii.eqb Bool.eqb]. rewrite !bind_lift_ok.
  unfold try_except_Exception.
  assert (Hpre : starts_with
            ("Error processing button press: " ++ str_exn (Exception cls msg))
            "Error processing button press:").
  { exists (" " ++ msg). reflexivity. }
  destruct Hraise as [H0 | w1 H0 H1 | w1 w2 m H0 H1 H2
                     | w1 w2 w3 m l H0 H1 H2 H3
                     | w1 w2 w3 w4 m l d H0 H1 H2 H3 H4];
    repeat emulator_returns; emulator_raises;
    (eexists; split; [reflexivity |]; split; [exact Hpre |];
     cbn; repeat split; reflexivity).
Qed.

(** C6. A [navigate_to] call (the arguments decoded) for which
    [find_path] returns a status and no path: the only calls that reach the emulator after [find_path] are
    reads (no [press_buttons], nothing that changes the emulator), every
    report the call returns contains [Navigation failed: <status>], and when
    the three reads return the call returns that report. *)
Theorem navigate_to_without_path (tool_call : ToolCall)
    (arguments row col : Json.value) (status : string)
    (path : option (list string)) (s : St W) (w1 : W) :
  tc_name tool_call = "navigate_to" ->
  decoded_arguments tool_call = Ok arguments ->
  py_get arguments "row" JNull = Ok row ->
  py_get arguments "col" JNull = Ok col ->
  emu_find_path row col (world s) = (Ok (status, path), w1) ->
  no_path path ->
  (forall r s', _process_tool_call tool_call s = (r, s') ->
     (exists t,
        trace s' = (trace s ++ EmulatorCall (find_path row col) :: t)%list
        /\ Forall read_only_call t
        /\ Forall (fun e => is_dispatch e = false) t)
     /\ (forall report, r = Ok report ->
           contains report ("Navigation failed: " ++ status)))
  /\ (forall img mem cmap w2 w3 w4,
        emu_get_screenshot w1 = (Ok img, w2) ->
        emu_get_state_from_memory w2 = (Ok mem, w3) ->
        emu_get_collision_map w3 = (Ok cmap, w4) ->
        exists s',
          _process_tool_call tool_call s
            = (Ok ("Navigation result: Navigation failed: " ++ status
                   ++ nl ++ nl ++ "Game state after navigation:" ++ nl ++ mem),
               s')
          /\ world s' = w4
          /\ trace s' = (trace s ++
               [EmulatorCall (find_path row col); EmulatorCall get_screenshot;
                EmulatorCall get_state_from_memory;
                EmulatorCall get_collision_map])%list).
Proof.
  intros Hname Hdec Hrow Hcol Hfind Hnone.
  assert (Hrun' :
    _process_tool_call tool_call s
    = (screenshot <- emulator get_screenshot emu_get_screenshot ;;
       memory_info <- emulator get_state_from_memory emu_get_state_from_memory ;;
       emulator get_collision_map emu_get_collision_map ;;;
       ret ("Navigation result: " ++ ("Navigation failed: " ++ status)
            ++ nl ++ nl ++ "Game state after navigation:" ++ nl ++ memory_info))
        (mkSt w1 (self s) (trace s ++ [EmulatorCall (find_path row col)])%list)).
  { unfold _process_tool_call. rewrite Hdec, bind_lift_ok, Hname, Hrow, Hcol.
    cbn [String.eqb Ascii.eqb Bool.eqb]. rewrite !bind_lift_ok.
    emulator_returns.
    destruct Hnone as [-> | ->]; reflexivity. }
  split.
  - intros r s' H. rewrite Hrun' in H. clear Hrun'.
    rewrite bind_run, emulator_run in H. cbn [world self trace fst snd] in H.
    destruct (emu_get_screenshot w1) as [[img | e] w2]; cbn [fst snd] in H.
    2:{ inversion H; subst. split; [| discriminate].
        exists [EmulatorCall get_screenshot]. cbn [trace].
        rewrite <- app_assoc. split; [reflexivity |].
        split; repeat constructor. exists get_screenshot. split; reflexivity. }
    rewrite bind_run, emulator_run in H. cbn [world self trace fst snd] in H.
    destruct (emu_get_state_from_memory w2) as [[mem | e] w3]; cbn [fst snd] in H.
    2:{ inversion H; subst. split; [| discriminate].
        exists [EmulatorCall get_screenshot; EmulatorCall get_state_from_memory].
        cbn [trace]. rewrite <- !app_assoc. split; [reflexivity |].
        split; repeat constructor;
          [exists get_screenshot | exists get_state_from_memory];
          split; reflexivity. }
    rewrite bind_run, emulator_run in H. cbn [world self trace fst snd] in H.
    assert (Ht : Forall read_only_call
              [EmulatorCall get_screenshot; EmulatorCall get_state_from_memory;
               EmulatorCall get_collision_map]
            /\ Forall (fun e => is_dispatch e = false)
              [EmulatorCall get_screenshot; EmulatorCall get_state_from_memory;
               EmulatorCall get_collision_map]).
    { split; repeat constructor;
        [exists get_screenshot | exists get_state_from_memory
         | exists get_collision_map]; split; reflexivity. }
    destruct (emu_get_collision_map w3) as [[cmap | e] w4]; cbn [fst snd] in H;
      inversion H; subst; cbn [trace]; rewrite <- !app_assoc.
    + split.
      * eexists. split; [reflexivity | exact Ht].
      * intros report Hr. inversion Hr; subst.
        exists "Navigation result: ". eexists. reflexivity.
    + split; [| discriminate].
      eexists. split; [reflexivity | exact Ht].
  - intros img mem cmap w2 w3 w4 H2 H3 H4. rewrite Hrun'.
    repeat emulator_returns. cbn [world self trace].
    eexists. split; [reflexivity |]. split; [reflexivity |].
    cbn [trace]. rewrite <- !app_assoc. reflexivity.
Qed.


(** *** One step *)

Lemma dispatch_all_frames tool_calls :
  frames emulator_call (dispatch_all tool_calls).
Proof.
  apply frames_for_each. intros tc.
  apply frames_bind; [apply _process_tool_call_frames | intros ?].
  auto with frames.
Qed.

Lemma history_append_run t (s : St W) :
  history_append t s
    = (Ok tt, mkSt (world s) (with_turns (self s) [t])
                (trace s ++ [HistoryAppend t])%list).
Proof. reflexivity. Qed.

Lemma with_turns_twice a t1 t2 :
  with_turns (with_turns a t1) t2 = with_turns a (t1 ++ t2)%list.
Proof. unfold with_turns. cbn. rewrite app_assoc. reflexivity. Qed.

(** What [summarize_history] does when it returns. *)
Lemma summarize_history_ok s s' :
  summarize_history s = (Ok tt, s') ->
  exists img w1 msg w2,
    emu_get_screenshot (world s) = (Ok img, w1)
    /\ chat_completions_create (summary_request (message_history (self s))) w1
       = (Ok msg, w2)
    /\ s' = mkSt w2
              (mkAgent
                 [summary_turn (max_history (self s))
                    (content_text (msg_content msg))
                    (get_screenshot_base64 img 2)]
                 (running (self s)) (max_history (self s)))
              (trace s ++
                 [EmulatorCall get_screenshot;
                  ChatCompletion (summary_request (message_history (self s)));
                  HistoryAssign
                    [summary_turn (max_history (self s))
                       (content_text (msg_content msg))
                       (get_screenshot_base64 img 2)]])%list.
Proof.
  unfold summarize_history. intros H.
  rewrite bind_run, emulator_run in H.
  destruct (emu_get_screenshot (world s)) as [[img | e] w1] eqn:E1;
    cbn [fst snd] in H; [| discriminate H].
  rewrite bind_run in H. cbn [get_self self] in H.
  rewrite bind_run, create_run in H. cbn [world self trace] in H.
  fold (summary_request (message_history (self s))) in H.
  destruct (chat_completions_create
              (summary_request (message_history (self s))) w1)
    as [[msg | e] w2] eqn:E2; cbn [fst snd] in H; [| discriminate H].
  inversion H. exists img, w1, msg, w2.
  split; [reflexivity |]. split; [exact E2 |].
  cbn [trace self world]. rewrite <- !app_assoc. reflexivity.
Qed.

(** What a step does when it completes: the observation, the request, the
    two turns, the tool calls, and the summary when the history is long
    enough. *)
Lemma run_step_ok s s' :
  run_step s = (Ok tt, s') ->
  exists img w1 mem w2 msg w3 s3,
    let u := mkTurn user (user_content mem (get_screenshot_base64 img 2)) in
    let a := mkTurn assistant (content_or_empty (msg_content msg)) in
    let req := step_request (message_history (self s)) mem
                 (get_screenshot_base64 img 2) in
    emu_get_screenshot (world s) = (Ok img, w1)
    /\ emu_get_state_from_memory w1 = (Ok mem, w2)
    /\ chat_completions_create req w2 = (Ok msg, w3)
    /\ dispatch_all (tool_calls_or_empty (msg_tool_calls msg))
         (mkSt w3 (with_turns (self s) [u; a])
            (trace s ++
               [EmulatorCall get_screenshot; EmulatorCall get_state_from_memory;
                ChatCompletion req; HistoryAppend u; HistoryAppend a])%list)
       = (Ok tt, s3)
    /\ self s3 = with_turns (self s) [u; a]
    /\ (if Z.of_nat (length (message_history (self s3))) >=? max_history (self s3)
        then summarize_history s3 = (Ok tt, s')
        else s' = s3).
Proof.
  unfold run_step. intros H.
  rewrite bind_run in H. cbn [get_self] in H.
  rewrite bind_run, emulator_run in H.
  destruct (emu_get_screenshot (world s)) as [[img | e] w1] eqn:E1;
    cbn [fst snd] in H; [| discriminate H].
  rewrite bind_run, emulator_run in H. cbn [world self trace] in H.
  destruct (emu_get_state_from_memory w1) as [[mem | e] w2] eqn:E2;
    cbn [fst snd] in H; [| discriminate H].
  rewrite bind_run, create_run in H. cbn [world self trace] in H.
  fold (step_request (message_history (self s)) mem
          (get_screenshot_base64 img 2)) in H.
  destruct (chat_completions_create
              (step_request (message_history (self s)) mem
                 (get_screenshot_base64 img 2)) w2)
    as [[msg | e] w3] eqn:E3; cbn [fst snd] in H; [| discriminate H].
  rewrite bind_run, history_append_run in H. cbn [world self trace] in H.
  rewrite bind_run, history_append_run in H. cbn [world self trace] in H.
  rewrite with_turns_twice in H. cbn [app] in H.
  rewrite bind_run in H.
  fold (dispatch_all (tool_calls_or_empty (msg_tool_calls msg))) in H.
  rewrite <- !app_assoc in H. cbn [app] in H.
  match type of H with
  | context [dispatch_all _ ?st] =>
      destruct (dispatch_all (tool_calls_or_empty (msg_tool_calls msg)) st)
        as [[[] | e] s3] eqn:E4; [| discriminate H];
      pose proof (dispatch_all_frames _ _ E4) as [Hself _]
  end.
  cbn [self] in Hself.
  rewrite bind_run in H. cbn [get_self] in H.
  exists img, w1, mem, w2, msg, w3, s3. cbn zeta.
  split; [reflexivity |]. split; [exact E2 |]. split; [exact E3 |].
  split; [exact E4 |]. split; [exact Hself |].
  destruct (Z.of_nat (length (message_history (self s3))) >=? max_history (self s3)).
  - exact H.
  - inversion H. reflexivity.
Qed.






(** *** The order of the phases of a step *)

Lemma all_before_app (first second : Event -> bool) (l1 l2 : list Event) :
  Forall (fun e => second e = false) l1 ->
  Forall (fun e => first e = false) l2 ->
  all_before first second (l1 ++ l2).
Proof.
  intros H1 H2 i j a b Hi Ha Hj Hb.
  assert (Li : (i < length l1)%nat).
  { destruct (Nat.lt_ge_cases i (length l1)) as [L | G]; [exact L |].
    rewrite nth_error_app2 in Hi by exact G.
    apply nth_error_In in Hi.
    rewrite Forall_forall in H2. rewrite (H2 _ Hi) in Ha. discriminate Ha. }
  assert (Lj : (length l1 <= j)%nat).
  { destruct (Nat.lt_ge_cases j (length l1)) as [L | G]; [| exact G].
    rewrite nth_error_app1 in Hj by exact L.
    apply nth_error_In in Hj.
    rewrite Forall_forall in H1. rewrite (H1 _ Hj) in Hb. discriminate Hb. }
  lia.
Qed.

Lemma emulator_calls_append_nothing (t : list Event) :
  Forall emulator_call t -> Forall (fun e => is_append e = false) t.
Proof.
  intros H. eapply Forall_impl; [| exact H].
  intros e [c ->]. reflexivity.
Qed.

(** C7, as the code has it.  The events of a completed step come in this
    order: the capture of the observation (frame, then game state), the
    request to the service built from them, the appends of the two turns
    built from the observation and from the answer, the run of every tool
    call of the answer, one after the other, from the state the appends
    left (only emulator calls come of it), and then, when the history is
    long enough, the summary (a frame, a request, the replacement of the
    history).  So both turns are appended before any tool call is
    dispatched. *)
Theorem step_phases_in_order (s s' : St W) :
  run_step s = (Ok tt, s') ->
  exists img w1 mem w2 msg w3 s3 dispatch summary,
    let u := mkTurn user (user_content mem (get_screenshot_base64 img 2)) in
    let a := mkTurn assistant (content_or_empty (msg_content msg)) in
    let req := step_request (message_history (self s)) mem
                 (get_screenshot_base64 img 2) in
    let s2 := mkSt w3 (with_turns (self s) [u; a])
                (trace s ++
                   [EmulatorCall get_screenshot;
                    EmulatorCall get_state_from_memory;
                    ChatCompletion req; HistoryAppend u; HistoryAppend a])%list in
    emu_get_screenshot (world s) = (Ok img, w1)
    /\ emu_get_state_from_memory w1 = (Ok mem, w2)
    /\ chat_completions_create req w2 = (Ok msg, w3)
    /\ trace s' =
      (trace s
       ++ [EmulatorCall get_screenshot; EmulatorCall get_state_from_memory]
       ++ [ChatCompletion req]
       ++ [HistoryAppend u; HistoryAppend a]
       ++ dispatch ++ summary)%list
    /\ dispatch_all (tool_calls_or_empty (msg_tool_calls msg)) s2 = (Ok tt, s3)
    /\ trace s3 = (trace s2 ++ dispatch)%list
    /\ Forall emulator_call dispatch
    /\ (if Z.of_nat (length (message_history (self s3)))
            >=? max_history (self s3)
        then summarize_history s3 = (Ok tt, s')
             /\ exists h,
                  summary = [EmulatorCall get_screenshot;
                             ChatCompletion
                               (summary_request (message_history (self s3)));
                             HistoryAssign h]
        else s' = s3 /\ summary = [])
    /\ all_before is_append is_dispatch
         ([EmulatorCall get_screenshot; EmulatorCall get_state_from_memory]
          ++ [ChatCompletion req]
          ++ [HistoryAppend u; HistoryAppend a]
          ++ dispatch ++ summary)%list.
Proof.
  intros Hrun.
  destruct (run_step_ok _ Hrun)
    as (img & w1 & mem & w2 & msg & w3 & s3 & H1 & H2 & H3 & Hd & Hself & Hsum).
  cbn zeta in *.
  destruct (dispatch_all_frames _ _ Hd) as [_ [td [Htd Hcalls]]].
  cbn [trace] in Htd.
  assert (Hshape : exists summary,
    trace s' = (trace s3 ++ summary)%list
    /\ (if Z.of_nat (length (message_history (self s3)))
            >=? max_history (self s3)
        then summarize_history s3 = (Ok tt, s')
             /\ exists h,
                  summary = [EmulatorCall get_screenshot;
                             ChatCompletion
                               (summary_request (message_history (self s3)));
                             HistoryAssign h]
        else s' = s3 /\ summary = [])
    /\ Forall (fun e => is_append e = false) summary).
  { destruct (Z.of_nat (length (message_history (self s3)))
              >=? max_history (self s3)).
    - destruct (summarize_history_ok _ Hsum)
        as (img' & w1' & msg' & w2' & _ & _ & Hs').
      eexists. split; [rewrite Hs'; reflexivity |].
      split; [| repeat constructor].
      split; [exact Hsum |]. eexists. reflexivity.
    - subst s'. exists []. rewrite app_nil_r.
      split; [reflexivity |]. split; [| constructor].
      split; reflexivity. }
  destruct Hshape as (summary & Hs' & Hsummary & Hquiet).
  exists img, w1, mem, w2, msg, w3, s3, td, summary. cbn zeta.
  split; [exact H1 |]. split; [exact H2 |]. split; [exact H3 |].
  split; [rewrite Hs', Htd, <- !app_assoc; reflexivity |].
  split; [exact Hd |]. split; [exact Htd |]. split; [exact Hcalls |].
  split; [exact Hsummary |].
  change
    (all_before is_append is_dispatch
       ([EmulatorCall get_screenshot; EmulatorCall get_state_from_memory;
         ChatCompletion
           (step_request (message_history (self s)) mem
              (get_screenshot_base64 img 2));
         HistoryAppend
           (mkTurn user (user_content mem (get_screenshot_base64 img 2)));
         HistoryAppend
           (mkTurn assistant (content_or_empty (msg_content msg)))]
        ++ (td ++ summary))%list).
  apply all_before_app.
  - repeat constructor.
  - apply Forall_app. split.
    + apply emulator_calls_append_nothing, Hcalls.
    + exact Hquiet.
Qed.


(** *** The loop of [run] *)

Lemma keeps_flags_of_frames {A} P (m : M W A) : frames P m -> keeps_flags m.
Proof.
  intros F s r s' H. destruct (F _ _ _ H) as [-> _]. split; reflexivity.
Qed.

Lemma keeps_flags_bind {A B} (m : M W A) (k : A -> M W B) :
  keeps_flags m -> (forall a, keeps_flags (k a)) -> keeps_flags (bind m k).
Proof.
  intros Hm Hk s r s'. rewrite bind_run.
  destruct (m s) as [[a | e] s1] eqn:E; intros H.
  - destruct (Hm _ _ _ E) as [R1 M1]. destruct (Hk a _ _ _ H) as [R2 M2].
    split; congruence.
  - inversion H; subst. exact (Hm _ _ _ E).
Qed.

Lemma keeps_flags_create r : keeps_flags (create r).
Proof.
  intros s x s'. rewrite create_run. intros H. inversion H.
  split; reflexivity.
Qed.

Lemma keeps_flags_history_append t :
  keeps_flags (history_append t : M W unit).
Proof. intros s x s' H. inversion H. split; reflexivity. Qed.

Lemma keeps_flags_history_assign h :
  keeps_flags (history_assign h : M W unit).
Proof. intros s x s' H. inversion H. split; reflexivity. Qed.

Lemma keeps_flags_get_self : keeps_flags (get_self : M W Agent).
Proof. intros s x s' H. inversion H. split; reflexivity. Qed.

Lemma keeps_flags_ret {A} (a : A) : keeps_flags (ret a : M W A).
Proof. intros s x s' H. inversion H. split; reflexivity. Qed.

Lemma keeps_flags_emulator {A} c (op : W -> result A * W) :
  keeps_flags (emulator c op).
Proof.
  apply keeps_flags_of_frames with (P := emulator_call). auto with frames.
Qed.

Lemma summarize_history_keeps_flags : keeps_flags summarize_history.
Proof.
  unfold summarize_history.
  apply keeps_flags_bind; [apply keeps_flags_emulator | intros img].
  apply keeps_flags_bind; [apply keeps_flags_get_self | intros me].
  apply keeps_flags_bind; [apply keeps_flags_create | intros msg].
  apply keeps_flags_history_assign.
Qed.

Lemma run_step_keeps_flags : keeps_flags run_step.
Proof.
  unfold run_step.
  apply keeps_flags_bind; [apply keeps_flags_get_self | intros me].
  apply keeps_flags_bind; [apply keeps_flags_emulator | intros img].
  apply keeps_flags_bind; [apply keeps_flags_emulator | intros mem].
  apply keeps_flags_bind; [apply keeps_flags_create | intros msg].
  apply keeps_flags_bind; [apply keeps_flags_history_append | intros _].
  apply keeps_flags_bind; [apply keeps_flags_history_append | intros _].
  apply keeps_flags_bind.
  - apply keeps_flags_of_frames with (P := emulator_call).
    apply dispatch_all_frames.
  - intros _. apply keeps_flags_bind; [apply keeps_flags_get_self | intros me'].
    destruct (_ >=? _);
      [apply summarize_history_keeps_flags | apply keeps_flags_ret].
Qed.

Lemma while_loop_exit num_steps fuel k (s : St W) :
  running (self s) && (k <? num_steps) = false ->
  while_loop num_steps fuel k s = (Ok k, s).
Proof. intros H. destruct fuel; cbn; [| rewrite H]; reflexivity. Qed.

Lemma while_loop_completed num_steps fuel k (s s1 : St W) :
  running (self s) = true -> k < num_steps ->
  run_step s = (Ok tt, s1) ->
  while_loop num_steps (S fuel) k s = while_loop num_steps fuel (k + 1) s1.
Proof.
  intros Hr Hk Hs. cbn [while_loop].
  rewrite Hr, (proj2 (Z.ltb_lt _ _) Hk). cbn [andb].
  rewrite bind_run. unfold try_except_KeyboardInterrupt.
  rewrite bind_run, Hs. reflexivity.
Qed.

Lemma while_loop_interrupted num_steps fuel k (s s1 : St W) :
  running (self s) = true -> k < num_steps ->
  run_step s = (Raise KeyboardInterrupt, s1) ->
  while_loop num_steps (S fuel) k s
    = (Ok k, mkSt (world s1)
               (mkAgent (message_history (self s1)) false (max_history (self s1)))
               (trace s1 ++ [RunningAssign false])%list).
Proof.
  intros Hr Hk Hs. cbn [while_loop].
  rewrite Hr, (proj2 (Z.ltb_lt _ _) Hk). cbn [andb].
  rewrite bind_run. unfold try_except_KeyboardInterrupt.
  rewrite bind_run, Hs. cbn [running_assign emit bind ret world self trace].
  apply while_loop_exit. reflexivity.
Qed.

Lemma while_loop_raised num_steps fuel k (s s1 : St W) cls msg :
  running (self s) = true -> k < num_steps ->
  run_step s = (Raise (Exception cls msg), s1) ->
  while_loop num_steps (S fuel) k s = (Raise (Exception cls msg), s1).
Proof.
  intros Hr Hk Hs. cbn [while_loop].
  rewrite Hr, (proj2 (Z.ltb_lt _ _) Hk). cbn [andb].
  rewrite bind_run. unfold try_except_KeyboardInterrupt.
  rewrite bind_run, Hs. reflexivity.
Qed.

(** The fuel [run] gives its loop is enough: one unit more changes
    nothing. *)
Lemma while_loop_fuel num_steps fuel :
  forall k (s : St W),
    Z.max 0 (num_steps - k) < Z.of_nat fuel ->
    while_loop num_steps (S fuel) k s = while_loop num_steps fuel k s.
Proof.
  induction fuel as [| fuel IH]; intros k s Hfuel; [lia |].
  destruct (running (self s) && (k <? num_steps)) eqn:C.
  2:{ rewrite !while_loop_exit by exact C. reflexivity. }
  apply andb_prop in C. destruct C as [Hr Hk]. apply Z.ltb_lt in Hk.
  destruct (run_step s) as [[[] | [| cls msg]] s1] eqn:Hs.
  - rewrite !(while_loop_completed _ _ Hr Hk Hs). apply IH. lia.
  - rewrite !(while_loop_interrupted _ _ Hr Hk Hs). reflexivity.
  - rewrite !(while_loop_raised _ _ Hr Hk Hs). reflexivity.
Qed.

Lemma while_loop_enough_fuel num_steps (s : St W) (extra : nat) :
  while_loop num_steps (S (Z.to_nat num_steps) + extra) 0 s
  = while_loop num_steps (S (Z.to_nat num_steps)) 0 s.
Proof.
  induction extra as [| extra IH].
  - rewrite Nat.add_0_r. reflexivity.
  - rewrite Nat.add_succ_r, while_loop_fuel by lia. exact IH.
Qed.

Lemma steps_completed_nonneg (s0 s : St W) k :
  steps_completed s0 k s -> 0 <= k.
Proof. induction 1; lia. Qed.

Lemma while_loop_after_steps num_steps (s0 s : St W) k :
  steps_completed s0 k s -> k <= num_steps ->
  forall fuel,
    while_loop num_steps (Z.to_nat k + fuel) 0 s0
    = while_loop num_steps fuel k s.
Proof.
  induction 1 as [| k s s' Hsteps IH Hr Hs]; intros Hk fuel; [reflexivity |].
  pose proof (steps_completed_nonneg Hsteps) as Hk0.
  replace (Z.to_nat (k + 1) + fuel)%nat with (Z.to_nat k + S fuel)%nat by lia.
  rewrite IH by lia.
  apply while_loop_completed; [exact Hr | lia | exact Hs].
Qed.

(** C8. [run(num_steps)] has completed [k] steps and the next one is cut
    short by a [KeyboardInterrupt] (raised by the emulator or by the call to
    the service): [running] is cleared, the emulator is stopped, and [run]
    returns [k], a number of steps between 0 and [num_steps]. *)
Theorem interrupted_run_stops_and_returns_count (num_steps k : Z)
    (s0 s s1 : St W) (w2 : W) :
  steps_completed s0 k s ->
  running (self s) = true ->
  k < num_steps ->
  run_step s = (Raise KeyboardInterrupt, s1) ->
  emu_stop (world s1) = (Ok tt, w2) ->
  exists s',
    run num_steps s0 = (Ok k, s')
    /\ running (self s') = false
    /\ world s' = w2
    /\ trace s' = (trace s1 ++ [RunningAssign false; EmulatorCall stop])%list
    /\ message_history (self s') = message_history (self s1)
    /\ 0 <= k <= num_steps.
Proof.
  intros Hsteps Hr Hk Hs Hstop.
  pose proof (steps_completed_nonneg Hsteps) as Hk0.
  unfold run.
  replace (S (Z.to_nat num_steps))
    with (Z.to_nat k + S (Z.to_nat num_steps - Z.to_nat k))%nat by lia.
  rewrite bind_run, (while_loop_after_steps Hsteps) by lia.
  rewrite (while_loop_interrupted _ _ Hr Hk Hs).
  rewrite bind_run. cbn [get_self self running negb].
  rewrite bind_run, emulator_run. cbn [world self trace].
  rewrite Hstop. cbn [fst snd ret].
  eexists. split; [reflexivity |]. cbn [self world trace running message_history].
  rewrite <- app_assoc. repeat split; try reflexivity; lia.
Qed.


(** *** The length of the history *)

Lemma summarize_history_leaves_one_turn (s s' : St W) :
  summarize_history s = (Ok tt, s') ->
  length (message_history (self s')) = 1%nat.
Proof.
  intros H. destruct (summarize_history_ok _ H) as (? & ? & ? & ? & _ & _ & ->).
  reflexivity.
Qed.

(** A completed step leaves a history shorter than [max_history]. *)
Lemma run_step_leaves_short_history (s s' : St W) :
  2 <= max_history (self s) ->
  run_step s = (Ok tt, s') ->
  Z.of_nat (length (message_history (self s'))) < max_history (self s').
Proof.
  intros Hmax Hrun.
  destruct (run_step_keeps_flags _ Hrun) as [_ Hm]. rewrite Hm.
  destruct (run_step_ok _ Hrun)
    as (img & w1 & mem & w2 & msg & w3 & s3 & _ & _ & _ & _ & Hself & Hsum).
  cbn zeta in *.
  assert (Hm3 : max_history (self s3) = max_history (self s))
    by (rewrite Hself; reflexivity).
  destruct (Z.of_nat (length (message_history (self s3)))
            >=? max_history (self s3)) eqn:C.
  - rewrite (summarize_history_leaves_one_turn _ Hsum). lia.
  - subst s'. rewrite Z.geb_leb in C. apply Z.leb_gt in C. lia.
Qed.






(** The loop and [run] move from loop head to loop head. *)
Lemma while_loop_loop_head max num_steps fuel :
  forall k (s s' : St W) k',
    loop_head max s ->
    while_loop num_steps fuel k s = (Ok k', s') ->
    loop_head max s'.
Proof.
  induction fuel as [| fuel IH]; intros k s s' k' Hhead H.
  - inversion H; subst. exact Hhead.
  - destruct (running (self s) && (k <? num_steps)) eqn:C.
    2:{ rewrite while_loop_exit in H by exact C. inversion H; subst.
        exact Hhead. }
    apply andb_prop in C. destruct C as [Hr Hk]. apply Z.ltb_lt in Hk.
    destruct (run_step s) as [[[] | [| cls msg]] s1] eqn:Hs.
    + rewrite (while_loop_completed _ _ Hr Hk Hs) in H.
      eapply IH; [| exact H]. eapply head_step; eassumption.
    + rewrite (while_loop_interrupted _ _ Hr Hk Hs) in H.
      inversion H; subst.
      eapply head_interrupt; [exact Hhead | exact Hr | exact Hs | reflexivity].
    + rewrite (while_loop_raised _ _ Hr Hk Hs) in H. discriminate H.
Qed.

Lemma run_loop_head max num_steps (s s' : St W) k :
  loop_head max s ->
  run num_steps s = (Ok k, s') ->
  loop_head max s'.
Proof.
  intros Hhead H. unfold run in H.
  apply bind_inv_ok in H. destruct H as (k1 & s1 & Hloop & H).
  pose proof (while_loop_loop_head _ _ _ Hhead Hloop) as Hhead1.
  rewrite bind_run in H. cbn [get_self] in H.
  destruct (running (self s1)) eqn:Hr; cbn [negb] in H.
  - inversion H; subst. exact Hhead1.
  - apply bind_inv_ok in H. destruct H as ([] & s2 & Hstop & H).
    inversion H; subst.
    eapply head_stop; [exact Hhead1 | exact Hr | exact Hstop].
Qed.

(** *** Encoding a frame *)

Lemma get_screenshot_base64_obj_run (screenshot : addr) (upscale : Z)
    (h : heap) (img : Image) :
  nth_error h screenshot = Some img ->
  exists h',
    get_screenshot_base64_obj screenshot upscale h
      = Some (get_screenshot_base64 img upscale, h')
    /\ nth_error h' screenshot = Some img.
Proof.
  intros Hget. unfold get_screenshot_base64_obj, get_screenshot_base64.
  rewrite Hget. destruct (upscale >? 1).
  - unfold heap_alloc. rewrite nth_error_app2 by apply Nat.le_refl.
    rewrite Nat.sub_diag. cbn [nth_error].
    eexists. split; [reflexivity |].
    rewrite nth_error_app1; [exact Hget |].
    apply nth_error_Some. congruence.
  - rewrite Hget. eexists. split; [reflexivity | exact Hget].
Qed.

(** *** The branches of the dispatcher, when the emulator answers *)

Lemma join_items_strings sep i (names : list string) :
  join_items sep i (map JStr names) = Ok names.
Proof.
  revert i. induction names as [| n names IH]; intros i; [reflexivity |].
  cbn. rewrite IH. reflexivity.
Qed.

Lemma join_value_strings sep (names : list string) :
  join_value sep (JArr (map JStr names)) = Ok (join sep names).
Proof. cbn. rewrite join_items_strings. reflexivity. Qed.

Lemma join_items_raises_Exception sep (items : list Json.value) :
  forall i e, join_items sep i items = Raise e -> is_Exception e = true.
Proof.
  induction items as [| v items IH]; intros i e H; [discriminate H |].
  cbn in H.
  destruct v; try (inversion H; reflexivity).
  destruct (join_items sep (i + 1) items) eqn:E; [discriminate H |].
  inversion H; subst. eapply IH. exact E.
Qed.

Lemma join_value_raises_Exception sep (v : Json.value) e :
  join_value sep v = Raise e -> is_Exception e = true.
Proof.
  destruct v; cbn; intros H; try (inversion H; reflexivity); try discriminate H.
  destruct (join_items sep 0 items) eqn:E; [discriminate H |].
  inversion H; subst. eapply join_items_raises_Exception. exact E.
Qed.

(** X1. A [press_buttons] call whose arguments are decoded and whose
    buttons are a list of strings, when the press and the four reads return: the emulator gets the press, then
    the reads of the game state, the location, the dialog and the collision
    map, in this order; the report has the buttons joined by a comma, the
    location ([Unknown location] when the emulator has none), the dialog line
    only when there is a dialog, and the game state. *)
Theorem press_buttons_reports_state (tool_call : ToolCall)
    (names : list string) (arguments wait : Json.value)
    (mem : string) (loc dlg cmap : option string)
    (s : St W) (w1 w2 w3 w4 w5 : W) :
  tc_name tool_call = "press_buttons" ->
  decoded_arguments tool_call = Ok arguments ->
  py_get arguments "buttons" (JArr []) = Ok (JArr (map JStr names)) ->
  py_get arguments "wait" (JBool true) = Ok wait ->
  emu_press_buttons (JArr (map JStr names)) wait (world s) = (Ok tt, w1) ->
  emu_get_state_from_memory w1 = (Ok mem, w2) ->
  emu_get_location w2 = (Ok loc, w3) ->
  emu_get_active_dialog w3 = (Ok dlg, w4) ->
  emu_get_collision_map w4 = (Ok cmap, w5) ->
  _process_tool_call tool_call s
  = (Ok (join nl
           (List.app
              (List.app
                 ["Action: Pressed buttons: " ++ join ", " names;
                  "Location: " ++ or_str loc "Unknown location"]
                 (if truthy_str dlg then ["Dialog: " ++ or_str dlg ""] else []))
              ["Game State:" ++ nl ++ mem])),
     mkSt w5 (self s)
       (trace s ++
          [EmulatorCall (press_buttons (JArr (map JStr names)) wait);
           EmulatorCall get_state_from_memory; EmulatorCall get_location;
           EmulatorCall get_active_dialog; EmulatorCall get_collision_map])%list).
Proof.
  intros Hname Hdec Hb Hw H0 H1 H2 H3 H4.
  unfold _process_tool_call. rewrite Hdec, bind_lift_ok, Hname, Hb, Hw.
  cbn [String.eqb Ascii.eqb Bool.eqb]. rewrite !bind_lift_ok.
  unfold try_except_Exception.
  repeat emulator_returns.
  rewrite join_value_strings, bind_lift_ok.
  cbn [ret world self trace]. rewrite <- !app_assoc. cbn [app].
  destruct dlg as [[| c d] |]; reflexivity.
Qed.

(** X2. A [press_buttons] call whose decoded buttons cannot be joined (a number,
    [null], a list with an item that is not a string): the emulator is given
    the buttons all the same and the four reads are made; only then does the
    join raise, and the call returns the report of that error. *)
Theorem press_buttons_unjoinable_still_pressed (tool_call : ToolCall)
    (arguments buttons wait : Json.value) (e : exn)
    (mem : string) (loc dlg cmap : option string)
    (s : St W) (w1 w2 w3 w4 w5 : W) :
  tc_name tool_call = "press_buttons" ->
  decoded_arguments tool_call = Ok arguments ->
  py_get arguments "buttons" (JArr []) = Ok buttons ->
  py_get arguments "wait" (JBool true) = Ok wait ->
  join_value ", " buttons = Raise e ->
  emu_press_buttons buttons wait (world s) = (Ok tt, w1) ->
  emu_get_state_from_memory w1 = (Ok mem, w2) ->
  emu_get_location w2 = (Ok loc, w3) ->
  emu_get_active_dialog w3 = (Ok dlg, w4) ->
  emu_get_collision_map w4 = (Ok cmap, w5) ->
  _process_tool_call tool_call s
  = (Ok ("Error processing button press: " ++ str_exn e),
     mkSt w5 (self s)
       (trace s ++
          [EmulatorCall (press_buttons buttons wait);
           EmulatorCall get_state_from_memory; EmulatorCall get_location;
           EmulatorCall get_active_dialog; EmulatorCall get_collision_map])%list).
Proof.
  intros Hname Hdec Hb Hw Hjoin H0 H1 H2 H3 H4.
  pose proof (join_value_raises_Exception _ _ Hjoin) as He.
  destruct e as [| cls msg]; [discriminate He |].
  unfold _process_tool_call. rewrite Hdec, bind_lift_ok, Hname, Hb, Hw.
  cbn [String.eqb Ascii.eqb Bool.eqb]. rewrite !bind_lift_ok.
  unfold try_except_Exception.
  repeat emulator_returns.
  rewrite Hjoin, bind_lift_raise.
  cbn [ret world self trace]. rewrite <- !app_assoc. reflexivity.
Qed.


Lemma string_append_assoc (a b c : string) : (a ++ b) ++ c = a ++ (b ++ c).
Proof.
  induction a as [| x a IH]; [reflexivity |]. cbn. rewrite IH. reflexivity.
Qed.

Lemma for_each_presses_return (ds : list string) (w w' : W) :
  presses_return ds w w' ->
  forall a t,
    for_each ds (fun direction =>
      emulator (press_buttons (JArr [JStr direction]) (JBool true))
               (emu_press_buttons (JArr [JStr direction]) (JBool true)))
      (mkSt w a t)
    = (Ok tt, mkSt w' a (t ++ map direction_press ds)%list).
Proof.
  induction 1 as [w | d ds w w1 w' Hd _ IH]; intros a t.
  - cbn. rewrite app_nil_r. reflexivity.
  - cbn [for_each]. emulator_returns. cbn [self trace].
    rewrite IH. cbn [map]. rewrite <- app_assoc. reflexivity.
Qed.

Lemma for_each_presses_raise (pre post : list string) (d : string)
    (w w1 w2 : W) (e : exn) :
  presses_return pre w w1 ->
  emu_press_buttons (JArr [JStr d]) (JBool true) w1 = (Raise e, w2) ->
  forall a t,
    for_each (pre ++ d :: post)%list (fun direction =>
      emulator (press_buttons (JArr [JStr direction]) (JBool true))
               (emu_press_buttons (JArr [JStr direction]) (JBool true)))
      (mkSt w a t)
    = (Raise e, mkSt w2 a (t ++ map direction_press (pre ++ [d]))%list).
Proof.
  induction 1 as [w | d0 ds w w0 w1 Hd _ IH]; intros Hraise a t.
  - cbn [app for_each]. emulator_raises. reflexivity.
  - cbn [app for_each]. emulator_returns. cbn [self trace].
    rewrite (IH Hraise). cbn [map app]. rewrite <- app_assoc. reflexivity.
Qed.

(** X3. A [navigate_to] call for which [find_path] returns a path that is
    not empty, when the emulator answers every call: each direction of the
    path is pressed on its own with [wait=True], in the order of the path
    and before any read; the report says the navigation succeeded, with the
    length of the path and the status. *)
Theorem navigate_to_follows_path (tool_call : ToolCall)
    (arguments row col : Json.value) (status : string) (path : list string)
    (img : Image) (mem : string) (cmap : option string)
    (s : St W) (w1 w2 w3 w4 w5 : W) :
  tc_name tool_call = "navigate_to" ->
  decoded_arguments tool_call = Ok arguments ->
  py_get arguments "row" JNull = Ok row ->
  py_get arguments "col" JNull = Ok col ->
  emu_find_path row col (world s) = (Ok (status, Some path), w1) ->
  path <> [] ->
  presses_return path w1 w2 ->
  emu_get_screenshot w2 = (Ok img, w3) ->
  emu_get_state_from_memory w3 = (Ok mem, w4) ->
  emu_get_collision_map w4 = (Ok cmap, w5) ->
  _process_tool_call tool_call s
  = (Ok ("Navigation result: Navigation successful: followed path with "
         ++ str_int (Z.of_nat (length path)) ++ " steps. Status: " ++ status
         ++ nl ++ nl ++ "Game state after navigation:" ++ nl ++ mem),
     mkSt w5 (self s)
       (trace s ++ EmulatorCall (find_path row col)
          :: map direction_press path
          ++ [EmulatorCall get_screenshot; EmulatorCall get_state_from_memory;
              EmulatorCall get_collision_map])%list).
Proof.
  intros Hname Hdec Hrow Hcol Hfind Hpath Hpress H3 H4 H5.
  unfold _process_tool_call. rewrite Hdec, bind_lift_ok, Hname, Hrow, Hcol.
  cbn [String.eqb Ascii.eqb Bool.eqb]. rewrite !bind_lift_ok.
  emulator_returns.
  destruct path as [| d ds]; [exfalso; apply Hpath; reflexivity |].
  rewrite bind_run, bind_run, (for_each_presses_return Hpress).
  cbn [ret]. repeat emulator_returns. cbn [ret world self trace].
  rewrite <- !app_assoc. cbn [app].
  rewrite !string_append_assoc. reflexivity.
Qed.

(** X4. In the [navigate_to] branch nothing catches what a press raises:
    when the presses of the first directions return and the next one raises,
    the call raises the same exception, be it an [Exception] or a
    [KeyboardInterrupt]; the rest of the path is not pressed and no read is
    made. *)
Theorem navigate_to_press_failure_propagates (tool_call : ToolCall)
    (arguments row col : Json.value) (status : string)
    (pre post : list string) (d : string) (e : exn)
    (s : St W) (w1 w2 w3 : W) :
  tc_name tool_call = "navigate_to" ->
  decoded_arguments tool_call = Ok arguments ->
  py_get arguments "row" JNull = Ok row ->
  py_get arguments "col" JNull = Ok col ->
  emu_find_path row col (world s)
    = (Ok (status, Some (pre ++ d :: post)%list), w1) ->
  presses_return pre w1 w2 ->
  emu_press_buttons (JArr [JStr d]) (JBool true) w2 = (Raise e, w3) ->
  _process_tool_call tool_call s
  = (Raise e,
     mkSt w3 (self s)
       (trace s ++ EmulatorCall (find_path row col)
          :: map direction_press (pre ++ [d]))%list).
Proof.
  intros Hname Hdec Hrow Hcol Hfind Hpress Hraise.
  unfold _process_tool_call. rewrite Hdec, bind_lift_ok, Hname, Hrow, Hcol.
  cbn [String.eqb Ascii.eqb Bool.eqb]. rewrite !bind_lift_ok.
  emulator_returns.
  destruct (pre ++ d :: post)%list as [| d0 ds] eqn:E;
    [destruct pre; discriminate E |].
  rewrite <- E.
  rewrite bind_run, bind_run,
    (@for_each_presses_raise pre post d w1 w2 w3 e Hpress Hraise).
  cbn [trace]. rewrite <- !app_assoc. reflexivity.
Qed.

(** X5. A [navigate_to] call whose arguments [json.loads] decodes to
    something that is not an object raises [AttributeError] at
    [arguments.get], before [find_path] is called.  (Where [json.loads]
    raises instead, that exception leaves the call: see
    [decoder_error_leaves_dispatcher].) *)
Theorem navigate_to_non_object_arguments_raise (tool_call : ToolCall)
    (v : Json.value) (s : St W) :
  tc_name tool_call = "navigate_to" ->
  Json.loads (or_str (tc_arguments tool_call) "{}") = Json.Decoded v ->
  (forall d, v <> JObj d) ->
  _process_tool_call tool_call s
    = (Raise (Exception "AttributeError"
                ("'" ++ type_name v ++ "' object has no attribute 'get'")), s).
Proof.
  intros Hname Hloads Hv. unfold _process_tool_call, decoded_arguments.
  rewrite Hname, Hloads, bind_lift_ok. cbn [String.eqb Ascii.eqb Bool.eqb].
  destruct v; try reflexivity.
  exfalso. eapply Hv. reflexivity.
Qed.


(** *** Steps that do not complete *)

Lemma summarize_history_raised (s s' : St W) (e : exn) :
  summarize_history s = (Raise e, s') ->
  self s' = self s
  /\ exists t, trace s' = (trace s ++ t)%list
               /\ filter is_history_write t = [].
Proof.
  unfold summarize_history. intros H.
  rewrite bind_run, emulator_run in H.
  destruct (emu_get_screenshot (world s)) as [[img | e1] w1];
    cbn [fst snd] in H.
  2:{ inversion H; subst. cbn. split; [reflexivity |].
      eexists. split; reflexivity. }
  rewrite bind_run in H. cbn [get_self self] in H.
  rewrite bind_run, create_run in H. cbn [world self trace] in H.
  match type of H with
  | context [chat_completions_create ?r w1] =>
      destruct (chat_completions_create r w1) as [[msg | e2] w2]
  end; cbn [fst snd] in H; [discriminate H |].
  inversion H; subst. cbn. split; [reflexivity |].
  rewrite <- app_assoc. eexists. split; reflexivity.
Qed.

(** X14. [summarize_history] replaces the history or leaves it alone: when
    the capture of the frame or the request raises, the exception goes to
    the caller, the agent is as before and nothing was written to the
    history. *)
Theorem summarize_history_all_or_nothing (s s' : St W) (e : exn) :
  summarize_history s = (Raise e, s') ->
  self s' = self s
  /\ exists t, trace s' = (trace s ++ t)%list
               /\ filter is_history_write t = [].
Proof. apply summarize_history_raised. Qed.

(** What a step does once the observation is captured and the service has
    answered. *)
Lemma run_step_after_request (s : St W) img w1 mem w2 msg w3 :
  emu_get_screenshot (world s) = (Ok img, w1) ->
  emu_get_state_from_memory w1 = (Ok mem, w2) ->
  chat_completions_create
    (step_request (message_history (self s)) mem (get_screenshot_base64 img 2))
    w2 = (Ok msg, w3) ->
  let u := mkTurn user (user_content mem (get_screenshot_base64 img 2)) in
  let a := mkTurn assistant (content_or_empty (msg_content msg)) in
  run_step s
  = (dispatch_all (tool_calls_or_empty (msg_tool_calls msg)) ;;;
     me <- get_self ;;
     (if Z.of_nat (length (message_history me)) >=? max_history me
      then summarize_history else ret tt))
      (mkSt w3 (with_turns (self s) [u; a])
         (trace s ++
            [EmulatorCall get_screenshot; EmulatorCall get_state_from_memory;
             ChatCompletion
               (step_request (message_history (self s)) mem
                  (get_screenshot_base64 img 2));
             HistoryAppend u; HistoryAppend a])%list).
Proof.
  intros E1 E2 E3. cbn zeta. unfold run_step.
  rewrite bind_run. cbn [get_self].
  emulator_returns. emulator_returns.
  rewrite bind_run, create_run. cbn [world self trace].
  fold (step_request (message_history (self s)) mem
          (get_screenshot_base64 img 2)).
  rewrite E3. cbn [fst snd].
  rewrite bind_run, history_append_run. cbn [world self trace].
  rewrite bind_run, history_append_run. cbn [world self trace].
  rewrite with_turns_twice. cbn [app].
  rewrite <- !app_assoc. cbn [app]. reflexivity.
Qed.

(** A step that raises before the service has answered leaves the agent as
    it was. *)
Lemma run_step_before_request (s s' : St W) r :
  run_step s = (r, s') ->
  (exists e, r = Raise e /\ self s' = self s)
  \/ exists img w1 mem w2 msg w3,
       emu_get_screenshot (world s) = (Ok img, w1)
       /\ emu_get_state_from_memory w1 = (Ok mem, w2)
       /\ chat_completions_create
            (step_request (message_history (self s)) mem
               (get_screenshot_base64 img 2)) w2 = (Ok msg, w3).
Proof.
  intros H.
  destruct (emu_get_screenshot (world s)) as [[img | e] w1] eqn:E1.
  2:{ left. unfold run_step in H. rewrite bind_run in H. cbn [get_self] in H.
      rewrite (bind_emulator_raise _ _ _ _ E1) in H.
      inversion H; subst. eexists. split; reflexivity. }
  destruct (emu_get_state_from_memory w1) as [[mem | e] w2] eqn:E2.
  2:{ left. unfold run_step in H. rewrite bind_run in H. cbn [get_self] in H.
      rewrite (bind_emulator_ok _ _ _ _ E1) in H.
      erewrite bind_emulator_raise in H by (cbn [world]; exact E2).
      inversion H; subst. eexists. split; reflexivity. }
  destruct (chat_completions_create
              (step_request (message_history (self s)) mem
                 (get_screenshot_base64 img 2)) w2)
    as [[msg | e] w3] eqn:E3.
  - right. exists img, w1, mem, w2, msg, w3. repeat split; assumption.
  - left. unfold run_step in H. rewrite bind_run in H. cbn [get_self] in H.
    rewrite (bind_emulator_ok _ _ _ _ E1) in H.
    erewrite bind_emulator_ok in H by (cbn [world]; exact E2).
    rewrite bind_run, create_run in H. cbn [world self trace] in H.
    fold (step_request (message_history (self s)) mem
            (get_screenshot_base64 img 2)) in H.
    rewrite E3 in H. cbn [fst snd] in H.
    inversion H; subst. eexists. split; reflexivity.
Qed.

(** X6. The two turns of a step are appended before the tool calls are
    run and nothing takes them back: when a tool call raises (an argument
    text that is no object, a press that fails on a path, an interrupt), the
    step raises the same exception and leaves the history two turns longer,
    without the call of [summarize_history], however long the history
    is. *)
Theorem failed_dispatch_keeps_turns (s s3 : St W) (e : exn)
    img w1 mem w2 msg w3 :
  emu_get_screenshot (world s) = (Ok img, w1) ->
  emu_get_state_from_memory w1 = (Ok mem, w2) ->
  chat_completions_create
    (step_request (message_history (self s)) mem (get_screenshot_base64 img 2))
    w2 = (Ok msg, w3) ->
  let u := mkTurn user (user_content mem (get_screenshot_base64 img 2)) in
  let a := mkTurn assistant (content_or_empty (msg_content msg)) in
  dispatch_all (tool_calls_or_empty (msg_tool_calls msg))
    (mkSt w3 (with_turns (self s) [u; a])
       (trace s ++
          [EmulatorCall get_screenshot; EmulatorCall get_state_from_memory;
           ChatCompletion
             (step_request (message_history (self s)) mem
                (get_screenshot_base64 img 2));
           HistoryAppend u; HistoryAppend a])%list)
    = (Raise e, s3) ->
  run_step s = (Raise e, s3)
  /\ message_history (self s3) = (message_history (self s) ++ [u; a])%list
  /\ exists t,
       trace s3 =
         (trace s ++
            [EmulatorCall get_screenshot; EmulatorCall get_state_from_memory;
             ChatCompletion
               (step_request (message_history (self s)) mem
                  (get_screenshot_base64 img 2));
             HistoryAppend u; HistoryAppend a] ++ t)%list
       /\ Forall emulator_call t.
Proof.
  intros E1 E2 E3 u a Hd.
  pose proof (run_step_after_request s E1 E2 E3) as Hrun. cbn zeta in Hrun.
  fold u a in Hrun. rewrite Hrun. erewrite bind_raise by exact Hd.
  destruct (dispatch_all_frames _ _ Hd) as [Hself [t [Ht Hcalls]]].
  cbn [self trace] in Hself, Ht.
  split; [reflexivity |]. split; [rewrite Hself; reflexivity |].
  exists t. split; [rewrite Ht, <- app_assoc; reflexivity | exact Hcalls].
Qed.


(** *** The outcomes of [run] *)

Lemma steps_completed_keeps_flags (s0 s : St W) k :
  steps_completed s0 k s ->
  running (self s) = running (self s0)
  /\ max_history (self s) = max_history (self s0).
Proof.
  induction 1 as [| k s s' _ [IHr IHm] _ Hs]; [split; reflexivity |].
  destruct (run_step_keeps_flags _ Hs) as [Hr Hm]. split; congruence.
Qed.

(** X7. [run] does not catch an [Exception] of a step: after [k] completed
    steps, when the next step raises one (a failed request, a tool call that
    raises), [run] raises it to its caller.  The state is the one the step
    left: [running] is still set and the emulator is not stopped. *)
Theorem run_propagates_exception (num_steps k : Z) (s0 s s1 : St W)
    (cls msg : string) :
  steps_completed s0 k s ->
  running (self s) = true ->
  k < num_steps ->
  run_step s = (Raise (Exception cls msg), s1) ->
  run num_steps s0 = (Raise (Exception cls msg), s1)
  /\ running (self s1) = true.
Proof.
  intros Hsteps Hr Hk Hs.
  pose proof (steps_completed_nonneg Hsteps) as Hk0.
  split.
  - unfold run.
    replace (S (Z.to_nat num_steps))
      with (Z.to_nat k + S (Z.to_nat num_steps - Z.to_nat k))%nat by lia.
    rewrite bind_run, (while_loop_after_steps Hsteps) by lia.
    rewrite (while_loop_raised _ _ Hr Hk Hs). reflexivity.
  - destruct (run_step_keeps_flags _ Hs) as [Hr1 _]. congruence.
Qed.

(** X8. When [num_steps] steps complete one after the other, [run]
    returns [num_steps] and the state the last step left: [running] is still
    set and [run] does not stop the emulator. *)
Theorem run_completes_all_steps (num_steps : Z) (s0 s : St W) :
  running (self s0) = true ->
  steps_completed s0 num_steps s ->
  run num_steps s0 = (Ok num_steps, s)
  /\ running (self s) = true.
Proof.
  intros Hr0 Hsteps.
  pose proof (steps_completed_nonneg Hsteps) as Hk0.
  destruct (steps_completed_keeps_flags Hsteps) as [Hr _].
  rewrite Hr0 in Hr. split; [| exact Hr].
  unfold run.
  replace (S (Z.to_nat num_steps)) with (Z.to_nat num_steps + 1)%nat by lia.
  rewrite bind_run, (while_loop_after_steps Hsteps) by lia.
  rewrite while_loop_exit
    by (rewrite Z.ltb_irrefl; apply andb_false_r).
  rewrite bind_run. cbn [get_self]. rewrite Hr. reflexivity.
Qed.

(** X9. With [num_steps] zero or negative a running agent does nothing:
    [run] returns 0 and the state is untouched (no observation, no request,
    no call of the emulator). *)
Theorem run_without_steps (num_steps : Z) (s : St W) :
  num_steps <= 0 ->
  running (self s) = true ->
  run num_steps s = (Ok 0, s).
Proof.
  intros Hn Hr. unfold run.
  rewrite bind_run, while_loop_exit.
  - rewrite bind_run. cbn [get_self]. rewrite Hr. reflexivity.
  - rewrite Hr. cbn [andb]. apply Z.ltb_ge. exact Hn.
Qed.

Lemma run_stopped (num_steps : Z) (s : St W) :
  running (self s) = false ->
  run num_steps s
  = (match fst (emu_stop (world s)) with
     | Ok _ => Ok 0
     | Raise e => Raise e
     end,
     mkSt (snd (emu_stop (world s))) (self s)
          (trace s ++ [EmulatorCall stop])%list).
Proof.
  intros Hr. unfold run.
  rewrite bind_run, while_loop_exit by (rewrite Hr; reflexivity).
  rewrite bind_run. cbn [get_self]. rewrite Hr. cbn [negb].
  rewrite bind_run, emulator_run.
  destruct (emu_stop (world s)) as [[[] | e] w']; reflexivity.
Qed.

(** X10. Once [running] is cleared, [run] makes no step whatever
    [num_steps] is: it only calls [emulator.stop()], again, and returns 0;
    if that call raises, [run] raises. *)
Theorem run_when_stopped (num_steps : Z) (s : St W) :
  running (self s) = false ->
  run num_steps s
  = (match fst (emu_stop (world s)) with
     | Ok _ => Ok 0
     | Raise e => Raise e
     end,
     mkSt (snd (emu_stop (world s))) (self s)
          (trace s ++ [EmulatorCall stop])%list).
Proof. apply run_stopped. Qed.

Lemma OpenAIAgent_stop_run (s : St W) :
  OpenAIAgent_stop s
  = (fst (emu_stop (world s)),
     mkSt (snd (emu_stop (world s)))
          (mkAgent (message_history (self s)) false (max_history (self s)))
          (trace s ++ [RunningAssign false; EmulatorCall stop])%list).
Proof.
  unfold OpenAIAgent_stop. rewrite bind_run.
  cbn [running_assign emit bind ret world self trace].
  rewrite emulator_run. cbn [world self trace].
  rewrite <- app_assoc. reflexivity.
Qed.

(** X15. [stop] clears [running] before it stops the emulator: the flag
    is cleared also when [emulator.stop()] raises, and the history is not
    touched. *)
Theorem stop_clears_running_first (s : St W) :
  exists s',
    OpenAIAgent_stop s = (fst (emu_stop (world s)), s')
    /\ running (self s') = false
    /\ message_history (self s') = message_history (self s)
    /\ world s' = snd (emu_stop (world s))
    /\ trace s' = (trace s ++ [RunningAssign false; EmulatorCall stop])%list.
Proof.
  rewrite OpenAIAgent_stop_run. eexists. split; [reflexivity |].
  repeat split; reflexivity.
Qed.


(** *** What the history holds *)

(** Whatever the outcome of a step, the history is as before, or two turns
    longer (a user turn and an assistant turn), or a single user turn. *)
Lemma run_step_history (s s' : St W) r :
  run_step s = (r, s') ->
  message_history (self s') = message_history (self s)
  \/ (exists u a, role u = user /\ role a = assistant
        /\ message_history (self s')
           = (message_history (self s) ++ [u; a])%list)
  \/ (exists t, role t = user /\ message_history (self s') = [t]).
Proof.
  intros H.
  destruct (run_step_before_request _ H)
    as [(e & -> & Hself)
       | (img & w1 & mem & w2 & msg & w3 & E1 & E2 & E3)].
  { left. rewrite Hself. reflexivity. }
  pose proof (run_step_after_request s E1 E2 E3) as Hrun. cbn zeta in Hrun.
  rewrite Hrun in H. clear Hrun. rewrite bind_run in H.
  match type of H with
  | context [dispatch_all ?c ?st] =>
      destruct (dispatch_all c st) as [[[] | e] s3] eqn:Hd;
      pose proof (dispatch_all_frames _ _ Hd) as [Hself _]
  end; cbn [self] in Hself.
  2:{ inversion H; subst. right. left. eexists _, _.
      split; [| split; [| rewrite Hself; reflexivity]]; reflexivity. }
  rewrite bind_run in H. cbn [get_self] in H.
  destruct (Z.of_nat (length (message_history (self s3)))
            >=? max_history (self s3)).
  - destruct r as [[] | e].
    + destruct (summarize_history_ok _ H) as (? & ? & ? & ? & _ & _ & ->).
      right. right. eexists. split; [| reflexivity]. reflexivity.
    + destruct (summarize_history_raised _ H) as [Hself' _].
      right. left. eexists _, _.
      split; [| split; [| rewrite Hself', Hself; reflexivity]]; reflexivity.
  - inversion H; subst. right. left. eexists _, _.
    split; [| split; [| rewrite Hself; reflexivity]]; reflexivity.
Qed.

Lemma history_well_formed_step (s s' : St W) r :
  run_step s = (r, s') ->
  history_well_formed (message_history (self s)) ->
  history_well_formed (message_history (self s')).
Proof.
  intros H (Hroles & (t0 & rest & Hh & Ht0) & Hodd).
  destruct (run_step_history _ H)
    as [-> | [(u & a & Hu & Ha & ->) | (t & Ht & ->)]].
  - repeat split; [exact Hroles | exists t0, rest; split; assumption | exact Hodd].
  - repeat split.
    + apply Forall_app. split; [exact Hroles |].
      constructor; [left; exact Hu |].
      constructor; [right; exact Ha | constructor].
    + rewrite Hh. cbn. eexists _, _. split; [reflexivity | exact Ht0].
    + rewrite List.length_app. cbn [length].
      rewrite Nat.add_comm. cbn. exact Hodd.
  - repeat split.
    + constructor; [left; exact Ht | constructor].
    + eexists _, _. split; [reflexivity | exact Ht].
Qed.

Lemma loop_head_history_well_formed (max : Z) (s : St W) :
  loop_head max s -> history_well_formed (message_history (self s)).
Proof.
  induction 1 as [w t | s s' _ IH _ Hs | s s1 s' _ IH _ Hs Ha | s s' _ IH _ Hs].
  - cbn. repeat split.
    + constructor; [left; reflexivity | constructor].
    + eexists _, _. split; reflexivity.
  - eapply history_well_formed_step; eassumption.
  - inversion Ha; subst s'. cbn [self message_history].
    eapply history_well_formed_step; eassumption.
  - rewrite emulator_run in Hs. inversion Hs; subst s'. exact IH.
Qed.

(** At a loop head with [running] set the history is shorter than
    [max_history]. *)
Lemma loop_head_short_history (max : Z) (s : St W) :
  2 <= max ->
  loop_head max s ->
  running (self s) = true ->
  Z.of_nat (length (message_history (self s))) < max.
Proof.
  intros Hmax Hhead.
  assert (Hinv : max_history (self s) = max
                 /\ (running (self s) = true ->
                     Z.of_nat (length (message_history (self s))) < max)).
  { induction Hhead as [w t | s s' _ [IHm IHl] Hr Hs
                        | s s1 s' _ [IHm IHl] Hr Hs Ha
                        | s s' _ [IHm IHl] Hr Hs].
    - cbn. split; [reflexivity | intros _; lia].
    - destruct (run_step_keeps_flags _ Hs) as [_ Hm].
      split; [congruence |]. intros _.
      pose proof (@run_step_leaves_short_history s s') as L.
      rewrite Hm, IHm in L. apply L; [exact Hmax | exact Hs].
    - destruct (run_step_keeps_flags _ Hs) as [_ Hm].
      inversion Ha; subst s'. cbn [self running max_history].
      split; [congruence | discriminate].
    - rewrite emulator_run in Hs. inversion Hs; subst s'. cbn [self].
      split; [exact IHm | congruence]. }
  exact (proj2 Hinv).
Qed.

(** X11. At every loop head of [run] the history starts with a user turn
    and holds user and assistant turns only: the system prompt is put in
    front of each request and never kept, and no tool turn is ever kept. *)
Theorem history_keeps_user_and_assistant_turns (max : Z) (s : St W) :
  loop_head max s ->
  Forall kept_role (message_history (self s))
  /\ exists t rest,
       message_history (self s) = t :: rest /\ role t = user.
Proof.
  intros H. destruct (loop_head_history_well_formed H) as (Hr & Hf & _).
  split; assumption.
Qed.

(** X12. At every loop head of [run] the history has an odd number of
    turns: one at first and after a summary, two more after each step
    (also after a step that raised once the turns were appended).  So when
    [max_history] is even, a step that starts at a loop head and reaches
    the threshold does so with [max_history + 1] turns, never with exactly
    [max_history]. *)
Theorem history_length_is_odd (max : Z) (s : St W) :
  2 <= max ->
  loop_head max s ->
  Nat.odd (length (message_history (self s))) = true
  /\ (Z.even max = true ->
      running (self s) = true ->
      max <= Z.of_nat (length (message_history (self s))) + 2 ->
      Z.of_nat (length (message_history (self s))) + 2 = max + 1).
Proof.
  intros Hmax Hhead.
  destruct (loop_head_history_well_formed Hhead) as (_ & _ & Hodd).
  split; [exact Hodd |].
  intros Heven Hr Hlong.
  pose proof (loop_head_short_history Hmax Hhead Hr) as Hshort.
  apply Nat.odd_spec in Hodd. destruct Hodd as [m Hm].
  apply Z.even_spec in Heven. destruct Heven as [n Hn].
  lia.
Qed.


(** X13. The requests of a step are bounded by [max_history]: in a step
    that starts at a loop head and completes, the request of the step has at
    most [max_history + 1] messages (system prompt, history, observation) and
    the request of the summary, if there is one, at most [max_history + 3]. *)
Theorem requests_are_bounded (max : Z) (s s' : St W) :
  2 <= max ->
  loop_head max s ->
  running (self s) = true ->
  run_step s = (Ok tt, s') ->
  exists req t,
    trace s' =
      (trace s
       ++ [EmulatorCall get_screenshot; EmulatorCall get_state_from_memory;
           ChatCompletion req] ++ t)%list
    /\ Z.of_nat (length (req_messages req)) <= max + 1
    /\ forall r, In (ChatCompletion r) t ->
         Z.of_nat (length (req_messages r)) <= max + 3.
Proof.
  intros Hmax Hhead Hr Hrun.
  pose proof (loop_head_short_history Hmax Hhead Hr) as Hshort.
  destruct (run_step_ok _ Hrun)
    as (img & w1 & mem & w2 & msg & w3 & s3 & _ & _ & _ & Hd & Hself & Hsum).
  cbn zeta in *.
  destruct (dispatch_all_frames _ _ Hd) as [_ [td [Htd Hcalls]]].
  cbn [trace] in Htd.
  assert (Hlen3 : length (message_history (self s3))
                  = (length (message_history (self s)) + 2)%nat).
  { rewrite Hself. cbn. rewrite List.length_app. reflexivity. }
  assert (Hcalls' : forall r, ~ In (ChatCompletion r) td).
  { intros r I. rewrite Forall_forall in Hcalls.
    destruct (Hcalls _ I) as [c Hc]. discriminate Hc. }
  eexists (step_request (message_history (self s)) mem
             (get_screenshot_base64 img 2)).
  destruct (Z.of_nat (length (message_history (self s3)))
            >=? max_history (self s3)).
  - destruct (summarize_history_ok _ Hsum)
      as (img' & w1' & msg' & w2' & _ & _ & ->).
    cbn [trace]. rewrite Htd.
    eexists. split; [rewrite <- !app_assoc; cbn [app]; reflexivity |].
    split.
    + cbn [step_request req_messages]. rewrite !List.length_app.
      cbn [length]. lia.
    + intros r I. cbn [In] in I.
      destruct I as [I | [I | I]]; try discriminate I.
      apply in_app_or in I. destruct I as [I | I];
        [exfalso; exact (Hcalls' _ I) |].
      cbn [In] in I. destruct I as [I | [I | [I | []]]]; try discriminate I.
      inversion I; subst r.
      cbn [summary_request req_messages]. rewrite !List.length_app, Hlen3.
      cbn [length]. lia.
  - subst s'. rewrite Htd.
    eexists. split; [rewrite <- !app_assoc; cbn [app]; reflexivity |].
    split.
    + cbn [step_request req_messages]. rewrite !List.length_app.
      cbn [length]. lia.
    + intros r I. cbn [In] in I.
      destruct I as [I | [I | I]]; try discriminate I.
      exfalso. exact (Hcalls' _ I).
Qed.


(** *** More on [get_screenshot_base64] *)

Lemma get_screenshot_base64_saved (img : Image) (upscale : Z) :
  get_screenshot_base64 img upscale
  = Base64.standard_b64encode (pil_save_png (saved_image img upscale)).
Proof. reflexivity. Qed.

(** X16. The text [get_screenshot_base64] returns is well-formed base64,
    whatever the frame and the factor: its length is a multiple of 4 (four
    characters for every three bytes of the PNG file, the last group padded)
    and it holds only characters of the base64 alphabet and the padding
    sign, so the data URL built from it is well formed. *)
Theorem get_screenshot_base64_is_base64 (img : Image) (upscale : Z) :
  Z.of_nat (String.length (get_screenshot_base64 img upscale))
  = 4 * ((Z.of_nat (length (pil_save_png (saved_image img upscale))) + 2) / 3)
  /\ forallb is_b64_char
       (list_ascii_of_string (get_screenshot_base64 img upscale)) = true.
Proof.
  rewrite get_screenshot_base64_saved. split.
  - apply standard_b64encode_length.
  - apply standard_b64encode_alphabet.
Qed.

(** X17. The encoding loses nothing: when two calls return the same text,
    the PNG files they encoded are the same, byte for byte. *)
Theorem get_screenshot_base64_separates_files (img1 img2 : Image)
    (upscale1 upscale2 : Z) :
  get_screenshot_base64 img1 upscale1 = get_screenshot_base64 img2 upscale2 ->
  pil_save_png (saved_image img1 upscale1)
  = pil_save_png (saved_image img2 upscale2).
Proof.
  rewrite !get_screenshot_base64_saved. apply standard_b64encode_injective.
Qed.

(** X18. A factor of 1 or less (0, negative) means no resize: the frame
    itself is saved, the text does not depend on the factor, and on image
    objects the heap is left as it is. *)
Theorem get_screenshot_base64_without_upscale (img : Image) (upscale : Z)
    (h : heap) (frame : addr) :
  upscale <= 1 ->
  nth_error h frame = Some img ->
  get_screenshot_base64 img upscale
    = Base64.standard_b64encode (pil_save_png img)
  /\ get_screenshot_base64_obj frame upscale h
     = Some (Base64.standard_b64encode (pil_save_png img), h).
Proof.
  intros Hu Hget.
  assert (E : (upscale >? 1) = false).
  { rewrite Z.gtb_ltb. apply Z.ltb_ge. exact Hu. }
  unfold get_screenshot_base64, get_screenshot_base64_obj.
  rewrite Hget, E, Hget. split; reflexivity.
Qed.

(** X19. On image objects, a call never changes or removes an image: the
    heap it leaves starts with the heap it found, followed by exactly one
    new image (the resized frame) when the factor is more than 1 and by
    nothing otherwise.  The call fails only when the frame is not in the
    heap. *)
Theorem get_screenshot_base64_obj_only_allocates (frame : addr) (upscale : Z)
    (h : heap) :
  match get_screenshot_base64_obj frame upscale h with
  | Some (_, h') =>
      exists img,
        nth_error h frame = Some img
        /\ h' = (h ++ (if upscale >? 1
                       then [pil_resize img (width img * upscale,
                                             height img * upscale)]
                       else []))%list
  | None => nth_error h frame = None
  end.
Proof.
  unfold get_screenshot_base64_obj.
  destruct (nth_error h frame) as [img |] eqn:Hget; [| reflexivity].
  destruct (upscale >? 1).
  - unfold heap_alloc. rewrite nth_error_app2 by apply Nat.le_refl.
    rewrite Nat.sub_diag. cbn [nth_error].
    exists img. split; reflexivity.
  - rewrite Hget. exists img. rewrite app_nil_r. split; reflexivity.
Qed.

End Properties.

(* ===================================================================== *)
(** ** Properties of [main.py] *)
(* ===================================================================== *)

Section MainProperties.
Context {CFG : Config} {PIL : Pillow} {FMT : PyFormat} {PY : Interpreter}.
Context {W : Type} {EMU : EmulatorFacade W} {CLIENT : ChatClient W}.
Context {HOST : Host W}.

Notation "x <-- m ;; k" := (mbind m (fun x => k))
  (at level 61, m at next level, right associativity).
Notation "m ;;;; k" := (mbind m (fun _ => k))
  (at level 61, right associativity).

Lemma mbind_run {A B} (m : MainM W A) (k : A -> MainM W B) ms :
  mbind m k ms =
  match m ms with
  | (Done a, ms') => k a ms'
  | (Raised e, ms') => (Raised e, ms')
  | (Pending, ms') => (Pending, ms')
  end.
Proof. reflexivity. Qed.

Lemma host_call_run ev (op : W -> result unit * W) (ms : MainSt W) :
  host_call ev op ms =
  (match fst (op (world (agent_state ms))) with
   | Ok a => Done a
   | Raise e => Raised e
   end,
   mkMainSt (mkSt (snd (op (world (agent_state ms))))
                  (self (agent_state ms)) (trace (agent_state ms)))
            (console ms ++ [ev])%list).
Proof.
  unfold host_call. destruct (op (world (agent_state ms))). reflexivity.
Qed.

(** *** Framing *)

Lemma keeps_agent_mret {A} P (a : A) : keeps_agent P (mret a : MainM W A).
Proof.
  intros ms o ms' H. inversion H; subst. repeat split.
  exists []. rewrite app_nil_r. split; [reflexivity | constructor].
Qed.

Lemma keeps_agent_pending {A} P : keeps_agent P (pending : MainM W A).
Proof.
  intros ms o ms' H. inversion H; subst. repeat split.
  exists []. rewrite app_nil_r. split; [reflexivity | constructor].
Qed.

Lemma keeps_agent_mbind {A B} P (m : MainM W A) (k : A -> MainM W B) :
  keeps_agent P m -> (forall a, keeps_agent P (k a)) ->
  keeps_agent P (mbind m k).
Proof.
  intros Hm Hk ms o ms'. rewrite mbind_run.
  destruct (m ms) as [[a | e |] ms1] eqn:E; intros H.
  - destruct (Hm _ _ _ E) as (S1 & T1 & t1 & C1 & P1).
    destruct (Hk a _ _ _ H) as (S2 & T2 & t2 & C2 & P2).
    split; [congruence |]. split; [congruence |].
    exists (t1 ++ t2)%list. split.
    + rewrite C2, C1, app_assoc. reflexivity.
    + apply Forall_app. split; assumption.
  - inversion H; subst. exact (Hm _ _ _ E).
  - inversion H; subst. exact (Hm _ _ _ E).
Qed.

Lemma keeps_agent_host_call (P : ConsoleEvent -> Prop) ev
    (op : W -> result unit * W) :
  P ev -> keeps_agent P (host_call ev op).
Proof.
  intros HP ms o ms'. rewrite host_call_run. intros H. inversion H; subst.
  cbn. repeat split. exists [ev]. split; [reflexivity |].
  constructor; [exact HP | constructor].
Qed.

Lemma keeps_agent_print (P : ConsoleEvent -> Prop) text :
  P (Print text) -> keeps_agent P (print text : MainM W unit).
Proof.
  intros HP ms o ms' H. inversion H; subst. cbn. repeat split.
  exists [Print text]. split; [reflexivity |].
  constructor; [exact HP | constructor].
Qed.

Lemma keeps_agent_weaken {A} (P Q : ConsoleEvent -> Prop) (m : MainM W A) :
  (forall e, P e -> Q e) -> keeps_agent P m -> keeps_agent Q m.
Proof.
  intros HPQ Hm ms o ms' H. destruct (Hm _ _ _ H) as (S1 & T1 & t & C & HP).
  repeat split; try assumption. exists t. split; [exact C |].
  eapply Forall_impl; [exact HPQ | exact HP].
Qed.

Lemma usual_speed_tick speed : usual_speed speed -> loop_event (Tick (frames_per_step speed)).
Proof. intros [H _]. exact H. Qed.

Lemma usual_speed_sleep speed : usual_speed speed -> loop_event (Sleep (sleep_seconds speed)).
Proof. intros [_ H]. exact H. Qed.

Lemma usual_speed_slow : usual_speed (mkSpeed 1 one_sixtieth).
Proof. split; [left |]; reflexivity. Qed.

Lemma usual_speed_fast : usual_speed (mkSpeed 5 one_sixtieth).
Proof. split; [right |]; reflexivity. Qed.

Create HintDb agent_kept.
#[local] Hint Resolve keeps_agent_mret keeps_agent_pending keeps_agent_host_call
  keeps_agent_print usual_speed_tick usual_speed_sleep usual_speed_slow
  usual_speed_fast : agent_kept.

Lemma keeps_agent_mbind_returns {A B} P (Q : A -> Prop)
    (m : MainM W A) (k : A -> MainM W B) :
  keeps_agent P m -> returns Q m -> (forall a, Q a -> keeps_agent P (k a)) ->
  keeps_agent P (mbind m k).
Proof.
  intros Hm HQ Hk ms o ms'. rewrite mbind_run.
  destruct (m ms) as [[a | e |] ms1] eqn:E; intros H.
  - destruct (Hm _ _ _ E) as (S1 & T1 & t1 & C1 & P1).
    destruct (Hk a (HQ _ _ _ E) _ _ _ H) as (S2 & T2 & t2 & C2 & P2).
    split; [congruence |]. split; [congruence |].
    exists (t1 ++ t2)%list. split.
    + rewrite C2, C1, app_assoc. reflexivity.
    + apply Forall_app. split; assumption.
  - inversion H; subst. exact (Hm _ _ _ E).
  - inversion H; subst. exact (Hm _ _ _ E).
Qed.

Lemma returns_mret {A} (Q : A -> Prop) (a : A) :
  Q a -> returns Q (mret a : MainM W A).
Proof. intros HQ ms b ms' H. inversion H; subst. exact HQ. Qed.

Lemma returns_mbind {A B} (Q : B -> Prop) (m : MainM W A) (k : A -> MainM W B) :
  (forall a, returns Q (k a)) -> returns Q (mbind m k).
Proof.
  intros Hk ms b ms'. rewrite mbind_run.
  destruct (m ms) as [[a | e |] ms1]; intros H; try discriminate H.
  exact (Hk a _ _ _ H).
Qed.

Lemma manual_loop_keeps_agent (inputs : list (option string)) :
  forall speed, usual_speed speed ->
    keeps_agent loop_event (manual_loop inputs speed).
Proof.
  induction inputs as [| input inputs IH]; intros speed Hs; cbn [manual_loop];
    [auto with agent_kept |].
  apply keeps_agent_mbind; [unfold tick; auto with agent_kept | intros _].
  apply keeps_agent_mbind_returns with (Q := next_speed_usual).
  - destruct input as [key |]; [| auto with agent_kept].
    destruct (String.eqb key "8"); [auto with agent_kept |].
    destruct (String.eqb key "-").
    { apply keeps_agent_mbind; [apply keeps_agent_print; exact I | intros _].
      auto with agent_kept. }
    destruct (String.eqb key "=" || String.eqb key "+").
    { apply keeps_agent_mbind; [apply keeps_agent_print; exact I | intros _].
      auto with agent_kept. }
    auto with agent_kept.
  - destruct input as [key |]; [| apply returns_mret; exact Hs].
    destruct (String.eqb key "8"); [apply returns_mret; exact I |].
    destruct (String.eqb key "-").
    { apply returns_mbind. intros _. apply returns_mret, usual_speed_slow. }
    destruct (String.eqb key "=" || String.eqb key "+").
    { apply returns_mbind. intros _. apply returns_mret, usual_speed_fast. }
    apply returns_mret. exact Hs.
  - intros [speed' |] Hnext; [| auto with agent_kept].
    apply keeps_agent_mbind; [unfold sleep; auto with agent_kept | intros _].
    apply IH. exact Hnext.
Qed.

Lemma autonomous_loop_keeps_agent (inputs : list (option string)) :
  forall speed, usual_speed speed ->
    keeps_agent loop_event (autonomous_loop inputs speed).
Proof.
  induction inputs as [| input inputs IH]; intros speed Hs;
    cbn [autonomous_loop]; [auto with agent_kept |].
  apply keeps_agent_mbind; [unfold tick; auto with agent_kept | intros _].
  apply keeps_agent_mbind_returns with (Q := next_speed_usual).
  - destruct input as [key |]; [| auto with agent_kept].
    destruct (String.eqb key "q" || String.eqb key "Q").
    { apply keeps_agent_mbind; [apply keeps_agent_print; exact I | intros _].
      auto with agent_kept. }
    destruct (String.eqb key "-").
    { apply keeps_agent_mbind; [apply keeps_agent_print; exact I | intros _].
      auto with agent_kept. }
    destruct (String.eqb key "=" || String.eqb key "+").
    { apply keeps_agent_mbind; [apply keeps_agent_print; exact I | intros _].
      auto with agent_kept. }
    auto with agent_kept.
  - destruct input as [key |]; [| apply returns_mret; exact Hs].
    destruct (String.eqb key "q" || String.eqb key "Q").
    { apply returns_mbind. intros _. apply returns_mret. exact I. }
    destruct (String.eqb key "-").
    { apply returns_mbind. intros _. apply returns_mret, usual_speed_slow. }
    destruct (String.eqb key "=" || String.eqb key "+").
    { apply returns_mbind. intros _. apply returns_mret, usual_speed_fast. }
    apply returns_mret. exact Hs.
  - intros [speed' |] Hnext; [| auto with agent_kept].
    apply keeps_agent_mbind; [unfold sleep; auto with agent_kept | intros _].
    apply IH. exact Hnext.
Qed.

Lemma returns_mbind_returns {A B} (R : A -> Prop) (Q : B -> Prop)
    (m : MainM W A) (k : A -> MainM W B) :
  returns R m -> (forall a, R a -> returns Q (k a)) -> returns Q (mbind m k).
Proof.
  intros Hm Hk ms b ms'. rewrite mbind_run.
  destruct (m ms) as [[a | e |] ms1] eqn:E; intros H; try discriminate H.
  exact (Hk a (Hm _ _ _ E) _ _ _ H).
Qed.

Lemma manual_next_speed_usual (input : option string) (speed : Speed) :
  usual_speed speed ->
  returns next_speed_usual
    (match input with
     | Some key =>
         if String.eqb key "8" then mret None
         else if String.eqb key "-" then
           print (nl ++ "[Speed] Setting emulator to ~60fps") ;;;;
           mret (Some (mkSpeed 1 one_sixtieth))
         else if String.eqb key "=" || String.eqb key "+" then
           print (nl ++ "[Speed] Setting emulator to ~300fps") ;;;;
           mret (Some (mkSpeed 5 one_sixtieth))
         else mret (Some speed)
     | None => mret (Some speed)
     end : MainM W (option Speed)).
Proof.
  intros Hs.
  destruct input as [key |]; [| apply returns_mret; exact Hs].
  destruct (String.eqb key "8"); [apply returns_mret; exact I |].
  destruct (String.eqb key "-").
  { apply returns_mbind. intros _. apply returns_mret, usual_speed_slow. }
  destruct (String.eqb key "=" || String.eqb key "+").
  { apply returns_mbind. intros _. apply returns_mret, usual_speed_fast. }
  apply returns_mret. exact Hs.
Qed.

Lemma manual_loop_returns_usual_speed (inputs : list (option string)) :
  forall speed, usual_speed speed ->
    returns (fun r => usual_speed (fst r)) (manual_loop inputs speed).
Proof.
  induction inputs as [| input inputs IH]; intros speed Hs; cbn [manual_loop].
  - intros ms a ms' H. discriminate H.
  - apply returns_mbind. intros _.
    apply returns_mbind_returns with (R := next_speed_usual);
      [apply manual_next_speed_usual; exact Hs |].
    intros [speed' |] Hnext.
    + apply returns_mbind. intros _. apply IH. exact Hnext.
    + apply returns_mret. exact Hs.
Qed.


(** *** The shape of [main] *)

Lemma agent_stop_run (ms : MainSt W) :
  agent_call OpenAIAgent_stop ms = (stop_outcome ms, stopped_state ms).
Proof.
  unfold agent_call, stop_outcome, stopped_state.
  rewrite OpenAIAgent_stop_run.
  destruct (fst (emu_stop (world (agent_state ms)))) as [[] | e]; reflexivity.
Qed.

Lemma mbind_print {B} text (k : unit -> MainM W B) (ms : MainSt W) :
  mbind (print text) k ms
  = k tt (mkMainSt (agent_state ms) (console ms ++ [Print text])%list).
Proof. reflexivity. Qed.

Lemma main_run (inputs : list (option string)) (ms : MainSt W) :
  main inputs ms =
  match manual_loop inputs (mkSpeed 1 one_sixtieth) (after_banner ms) with
  | (Done (speed, rest), ms1) =>
      autonomous_phase rest speed (thread_started ms1)
  | (Raised KeyboardInterrupt, ms1) => (stop_outcome ms1, stopped_state ms1)
  | (Raised (Exception cls msg), ms1) => (Raised (Exception cls msg), ms1)
  | (Pending, ms1) => (Pending, ms1)
  end.
Proof.
  unfold main. rewrite !mbind_print. cbn [agent_state console].
  rewrite <- app_assoc. cbn [app]. fold (after_banner ms).
  rewrite mbind_run. unfold mtry_except_KeyboardInterrupt at 1.
  rewrite mbind_run.
  destruct (manual_loop inputs (mkSpeed 1 one_sixtieth) (after_banner ms))
    as [[[speed rest] | [| cls msg] |] ms1].
  - cbn [mret]. rewrite mbind_run. reflexivity.
  - rewrite mbind_run, agent_stop_run.
    destruct (stop_outcome ms1) as [[] | e |]; reflexivity.
  - reflexivity.
  - reflexivity.
Qed.

Lemma keeps_agent_try_except {A} P (body handler : MainM W A) :
  keeps_agent P body -> keeps_agent P handler ->
  keeps_agent P (mtry_except_KeyboardInterrupt body handler).
Proof.
  intros Hb Hh ms o ms'. unfold mtry_except_KeyboardInterrupt.
  destruct (body ms) as [[a | [| cls msg] |] ms1] eqn:E; intros H;
    try (inversion H; subst; exact (Hb _ _ _ E)).
  destruct (Hb _ _ _ E) as (S1 & T1 & t1 & C1 & P1).
  destruct (Hh _ _ _ H) as (S2 & T2 & t2 & C2 & P2).
  split; [congruence |]. split; [congruence |].
  exists (t1 ++ t2)%list. split.
  - rewrite C2, C1, app_assoc. reflexivity.
  - apply Forall_app. split; assumption.
Qed.

(** The end of the autonomous phase: unless the console input ran out,
    [agent.stop()] was called as the last thing, whatever ended the loop. *)
Lemma autonomous_phase_ends (inputs : list (option string)) (speed : Speed)
    (ms ms' : MainSt W) o :
  usual_speed speed ->
  autonomous_phase inputs speed ms = (o, ms') ->
  (exists t, console ms' = (console ms ++ t)%list /\ Forall loop_event t)
  /\ (o = Pending
      \/ (running (self (agent_state ms')) = false
          /\ message_history (self (agent_state ms'))
             = message_history (self (agent_state ms))
          /\ trace (agent_state ms')
             = (trace (agent_state ms)
                ++ [RunningAssign false; EmulatorCall stop])%list)).
Proof.
  intros Hs. unfold autonomous_phase, mtry_finally.
  match goal with
  | |- context [mtry_except_KeyboardInterrupt ?b ?h ms] =>
      assert (F : keeps_agent loop_event (mtry_except_KeyboardInterrupt b h))
  end.
  { apply keeps_agent_try_except; [| auto with agent_kept].
    apply keeps_agent_mbind; [apply keeps_agent_print; exact I | intros _].
    apply autonomous_loop_keeps_agent. exact Hs. }
  match type of F with
  | keeps_agent _ ?inner => destruct (inner ms) as [o1 ms1] eqn:E
  end.
  destruct (F _ _ _ E) as (S1 & T1 & t1 & C1 & P1).
  destruct o1 as [[] | e |].
  - rewrite mbind_run, agent_stop_run. intros H.
    assert (Hms' : ms' = stopped_state ms1)
      by (destruct (stop_outcome ms1) as [[] | |]; inversion H; reflexivity).
    subst ms'. cbn [stopped_state agent_state console self trace running
                    message_history].
    split; [exists t1; split; assumption |].
    right. rewrite S1, T1. repeat split; reflexivity.
  - rewrite mbind_run, agent_stop_run. intros H.
    assert (Hms' : ms' = stopped_state ms1)
      by (destruct (stop_outcome ms1) as [[] | |]; inversion H; reflexivity).
    subst ms'. cbn [stopped_state agent_state console self trace running
                    message_history].
    split; [exists t1; split; assumption |].
    right. rewrite S1, T1. repeat split; reflexivity.
  - intros H. inversion H; subst.
    split; [exists t1; split; assumption | left; reflexivity].
Qed.


(** *** The pace of the loops *)

Lemma loop_event_main_event e : loop_event e -> main_event e.
Proof. destruct e; cbn; auto. Qed.

(** X20. Whatever the keys and however [main] ends, every tick it makes
    advances 1 or 5 frames and every sleep lasts [1 / 60]: the speed keys
    change the frames of a tick only, never the pace of the loop. *)
Theorem main_keeps_the_pace (inputs : list (option string))
    (ms ms' : MainSt W) o :
  main inputs ms = (o, ms') ->
  exists t, console ms' = (console ms ++ t)%list /\ Forall main_event t.
Proof.
  rewrite main_run.
  destruct (manual_loop inputs (mkSpeed 1 one_sixtieth) (after_banner ms))
    as [o1 ms1] eqn:E.
  destruct (manual_loop_keeps_agent inputs usual_speed_slow _ E)
    as (_ & _ & t1 & C1 & P1).
  cbn [after_banner console] in C1.
  assert (Hpre : Forall main_event
     ([Print (nl ++ "Game initialized. You can play manually now.");
       Print "When you want the AI to take over, press NumPad 8 (with NumLock on) in this console."]
      ++ t1)%list).
  { apply Forall_app. split; [repeat constructor |].
    eapply Forall_impl; [exact loop_event_main_event | exact P1]. }
  destruct o1 as [[speed rest] | [| cls msg] |]; intros H.
  - pose proof (manual_loop_returns_usual_speed inputs usual_speed_slow _ E)
      as Hs. cbn [fst] in Hs.
    destruct (@autonomous_phase_ends rest speed _ _ _ Hs H)
      as [(t2 & C2 & P2) _].
    cbn [thread_started console] in C2.
    eexists. split.
    + rewrite C2, C1, <- !app_assoc. reflexivity.
    + apply Forall_app. split; [repeat constructor |].
      apply Forall_app. split;
        [eapply Forall_impl; [exact loop_event_main_event | exact P1] |].
      constructor; [exact I |].
      eapply Forall_impl; [exact loop_event_main_event | exact P2].
  - inversion H; subst. cbn [stopped_state console].
    eexists. split; [rewrite C1, <- app_assoc; reflexivity | exact Hpre].
  - inversion H; subst.
    eexists. split; [rewrite C1, <- app_assoc; reflexivity | exact Hpre].
  - inversion H; subst.
    eexists. split; [rewrite C1, <- app_assoc; reflexivity | exact Hpre].
Qed.

(** *** The handoff *)

Lemma calm_tick (frames : Z) (ms : MainSt W) :
  calm_host ->
  tick frames ms
  = (Done tt,
     mkMainSt (mkSt (snd (emu_tick frames (world (agent_state ms))))
                    (self (agent_state ms)) (trace (agent_state ms)))
              (console ms ++ [Tick frames])%list).
Proof.
  intros [Ht _]. unfold tick. rewrite host_call_run, Ht. reflexivity.
Qed.

Lemma calm_sleep (seconds : Seconds) (ms : MainSt W) :
  calm_host ->
  sleep seconds ms
  = (Done tt,
     mkMainSt (mkSt (snd (time_sleep seconds (world (agent_state ms))))
                    (self (agent_state ms)) (trace (agent_state ms)))
              (console ms ++ [Sleep seconds])%list).
Proof.
  intros [_ Hs]. unfold sleep. rewrite host_call_run, Hs. reflexivity.
Qed.

(** X21. With a host whose ticks and sleeps return, the manual phase ends
    at the first key [8]: the loop has then ticked once for each turn, the
    turn of the key included, and slept once for each turn before it (the
    [break] skips the sleep); it returns the console input that follows the
    key, and the agent was not touched. *)
Theorem manual_loop_hands_off_at_8 (before after : list (option string)) :
  calm_host ->
  Forall (fun input => input <> Some "8") before ->
  forall (speed : Speed) (ms : MainSt W),
  exists speed' ms' t,
    manual_loop (before ++ Some "8" :: after) speed ms
      = (Done (speed', after), ms')
    /\ console ms' = (console ms ++ t)%list
    /\ length (filter is_tick t) = S (length before)
    /\ length (filter is_sleep t) = length before
    /\ self (agent_state ms') = self (agent_state ms)
    /\ trace (agent_state ms') = trace (agent_state ms).
Proof.
  intros Hcalm Hbefore.
  induction Hbefore as [| input before Hinput _ IH]; intros speed ms.
  - cbn [app manual_loop]. rewrite mbind_run, calm_tick by exact Hcalm.
    cbn [String.eqb Ascii.eqb Bool.eqb mbind mret].
    eexists _, _, [Tick (frames_per_step speed)].
    repeat split; reflexivity.
  - cbn [app manual_loop]. rewrite mbind_run, calm_tick by exact Hcalm.
    assert (Hgo : forall speed1 (ms1 : MainSt W) t1,
              console ms1 = (console ms ++ Tick (frames_per_step speed) :: t1)%list ->
              filter is_tick t1 = [] -> filter is_sleep t1 = [] ->
              self (agent_state ms1) = self (agent_state ms) ->
              trace (agent_state ms1) = trace (agent_state ms) ->
              exists speed' ms' t,
                (sleep (sleep_seconds speed1) ;;;;
                 manual_loop (before ++ Some "8" :: after) speed1) ms1
                  = (Done (speed', after), ms')
                /\ console ms' = (console ms ++ t)%list
                /\ length (filter is_tick t) = S (S (length before))
                /\ length (filter is_sleep t) = S (length before)
                /\ self (agent_state ms') = self (agent_state ms)
                /\ trace (agent_state ms') = trace (agent_state ms)).
    { intros speed1 ms1 t1 C1 Ft Fs S1 T1.
      rewrite mbind_run, calm_sleep by exact Hcalm.
      match goal with
      | |- context [manual_loop _ speed1 ?st] =>
          destruct (IH speed1 st) as (speed' & ms' & t & Hrun & C & Nt & Ns & S2 & T2)
      end.
      cbn [console agent_state self trace] in C, S2, T2.
      exists speed', ms',
        (Tick (frames_per_step speed) :: t1
         ++ Sleep (sleep_seconds speed1) :: t)%list.
      split; [exact Hrun |].
      split; [rewrite C, C1, <- !app_assoc; reflexivity |].
      cbn [filter is_tick is_sleep]. rewrite !filter_app.
      cbn [filter is_tick is_sleep]. rewrite Ft, Fs.
      cbn [app length]. rewrite Nt, Ns.
      repeat split; congruence. }
    destruct input as [key |].
    + destruct (String.eqb key "8") eqn:E8.
      { exfalso. apply Hinput. apply String.eqb_eq in E8. congruence. }
      destruct (String.eqb key "-");
        [| destruct (String.eqb key "=" || String.eqb key "+")];
        cbv beta iota; rewrite mbind_run; rewrite ?mbind_print; cbn [mret].
      * eapply Hgo with (t1 := [Print _]); cbn [console agent_state];
          try reflexivity. rewrite <- app_assoc. reflexivity.
      * eapply Hgo with (t1 := [Print _]); cbn [console agent_state];
          try reflexivity. rewrite <- app_assoc. reflexivity.
      * eapply Hgo with (t1 := []); reflexivity.
    + rewrite mbind_run. cbn [mret].
      eapply Hgo with (t1 := []); reflexivity.
Qed.

(** X22. Only the key [8] ends the manual phase: with a console input
    that holds no [8], the loop never returns; it is still going when the
    input runs out, unless a tick or a sleep raised. *)
Theorem manual_loop_needs_8 (inputs : list (option string)) :
  Forall (fun input => input <> Some "8") inputs ->
  forall (speed : Speed) (ms : MainSt W) r,
    fst (manual_loop inputs speed ms) <> Done r.
Proof.
  induction 1 as [| input inputs Hinput _ IH]; intros speed ms r;
    cbn [manual_loop]; [discriminate |].
  rewrite mbind_run.
  destruct (tick (frames_per_step speed) ms) as [[[] | e |] ms1];
    [| discriminate | discriminate].
  assert (Hgo : forall speed1 (ms2 : MainSt W),
            fst ((sleep (sleep_seconds speed1) ;;;;
                  manual_loop inputs speed1) ms2) <> Done r).
  { intros speed1 ms2. rewrite mbind_run.
    destruct (sleep (sleep_seconds speed1) ms2) as [[[] | e |] ms3];
      [apply IH | discriminate | discriminate]. }
  destruct input as [key |].
  - destruct (String.eqb key "8") eqn:E8.
    { exfalso. apply Hinput. apply String.eqb_eq in E8. congruence. }
    destruct (String.eqb key "-");
      [| destruct (String.eqb key "=" || String.eqb key "+")];
      cbv beta iota; rewrite mbind_run; rewrite ?mbind_print; cbn [mret];
      apply Hgo.
  - rewrite mbind_run. cbn [mret]. apply Hgo.
Qed.


(** *** How [main] ends *)

Lemma no_thread_start_in_loop (t : list ConsoleEvent) :
  Forall loop_event t -> ~ In ThreadStart t.
Proof.
  intros H I. rewrite Forall_forall in H. exact (H _ I).
Qed.

(** X23. [main] returns only after [agent.stop()]: when it returns,
    [running] is cleared and the last thing done with the agent is the
    call of [emulator.stop()]; [main] itself made no other use of the agent
    (no step, no change of the history). *)
Theorem main_returns_after_stop (inputs : list (option string))
    (ms ms' : MainSt W) :
  main inputs ms = (Done tt, ms') ->
  running (self (agent_state ms')) = false
  /\ message_history (self (agent_state ms'))
     = message_history (self (agent_state ms))
  /\ trace (agent_state ms')
     = (trace (agent_state ms) ++ [RunningAssign false; EmulatorCall stop])%list.
Proof.
  rewrite main_run.
  destruct (manual_loop inputs (mkSpeed 1 one_sixtieth) (after_banner ms))
    as [o1 ms1] eqn:E.
  destruct (manual_loop_keeps_agent inputs usual_speed_slow _ E)
    as (S1 & T1 & _).
  cbn [after_banner agent_state] in S1, T1.
  destruct o1 as [[speed rest] | [| cls msg] |]; intros H.
  - pose proof (manual_loop_returns_usual_speed inputs usual_speed_slow _ E)
      as Hs. cbn [fst] in Hs.
    destruct (@autonomous_phase_ends rest speed _ _ _ Hs H)
      as [_ [Hp | (R & Hh & T)]]; [discriminate Hp |].
    cbn [thread_started agent_state] in Hh, T.
    rewrite R, Hh, T, S1, T1. repeat split; reflexivity.
  - inversion H; subst.
    cbn [stopped_state agent_state self running message_history trace].
    rewrite S1, T1. repeat split; reflexivity.
  - discriminate H.
  - discriminate H.
Qed.

(** X24. Once the thread is started, [main] does not end without
    [agent.stop()]: whether the loop of the main thread ends by the key [q],
    by an interrupt or by an exception of a tick, [running] is cleared and
    [emulator.stop()] is called before [main] returns or raises. *)
Theorem main_stops_agent_after_handoff (inputs : list (option string))
    (ms ms' : MainSt W) o (t : list ConsoleEvent) :
  main inputs ms = (o, ms') ->
  o <> Pending ->
  console ms' = (console ms ++ t)%list ->
  In ThreadStart t ->
  running (self (agent_state ms')) = false
  /\ trace (agent_state ms')
     = (trace (agent_state ms) ++ [RunningAssign false; EmulatorCall stop])%list.
Proof.
  rewrite main_run.
  destruct (manual_loop inputs (mkSpeed 1 one_sixtieth) (after_banner ms))
    as [o1 ms1] eqn:E.
  destruct (manual_loop_keeps_agent inputs usual_speed_slow _ E)
    as (S1 & T1 & t1 & C1 & P1).
  cbn [after_banner agent_state console] in S1, T1, C1.
  assert (Hno : forall ms2 : MainSt W,
            console ms2 = console ms1 ->
            console ms2 = (console ms ++ t)%list -> In ThreadStart t -> False).
  { intros ms2 C2 Ct I. rewrite C2, C1, <- app_assoc in Ct.
    apply app_inv_head in Ct. subst t. cbn [app In] in I.
    destruct I as [I | [I | I]]; try discriminate I.
    exact (no_thread_start_in_loop P1 I). }
  destruct o1 as [[speed rest] | [| cls msg] |]; intros H Ho Ct I.
  - pose proof (manual_loop_returns_usual_speed inputs usual_speed_slow _ E)
      as Hs. cbn [fst] in Hs.
    destruct (@autonomous_phase_ends rest speed _ _ _ Hs H)
      as [_ [Hp | (R & _ & T)]]; [contradiction |].
    cbn [thread_started agent_state] in T.
    rewrite R, T, T1. split; reflexivity.
  - inversion H; subst. exfalso.
    exact (Hno (stopped_state ms1) eq_refl Ct I).
  - inversion H; subst. exfalso. exact (Hno ms' eq_refl Ct I).
  - inversion H; subst. exfalso. apply Ho. reflexivity.
Qed.

(** X25. An [Exception] raised in the manual phase (by a tick) leaves
    [main] as it is: [main] raises it, the thread is never started and the
    agent is not stopped; [running] is as it was and [emulator.stop()] is
    not called. *)
Theorem manual_exception_leaves_agent_running (inputs : list (option string))
    (ms ms1 : MainSt W) (cls msg : string) :
  manual_loop inputs (mkSpeed 1 one_sixtieth) (after_banner ms)
    = (Raised (Exception cls msg), ms1) ->
  main inputs ms = (Raised (Exception cls msg), ms1)
  /\ self (agent_state ms1) = self (agent_state ms)
  /\ trace (agent_state ms1) = trace (agent_state ms)
  /\ exists t, console ms1 = (console ms ++ t)%list /\ ~ In ThreadStart t.
Proof.
  intros E. rewrite main_run, E.
  destruct (manual_loop_keeps_agent inputs usual_speed_slow _ E)
    as (S1 & T1 & t1 & C1 & P1).
  cbn [after_banner agent_state console] in S1, T1, C1.
  repeat split; try assumption.
  eexists. split; [rewrite C1, <- app_assoc; reflexivity |].
  cbn [app In]. intros [I | [I | I]]; try discriminate I.
  exact (no_thread_start_in_loop P1 I).
Qed.

(** X26. A [KeyboardInterrupt] in the manual phase (Ctrl-C during a tick
    or a sleep) makes [main] stop the agent and return without starting the
    thread: [running] is cleared, [emulator.stop()] is called, and [main]
    ends as that call ends. *)
Theorem manual_interrupt_stops_agent (inputs : list (option string))
    (ms ms1 : MainSt W) :
  manual_loop inputs (mkSpeed 1 one_sixtieth) (after_banner ms)
    = (Raised KeyboardInterrupt, ms1) ->
  exists ms',
    main inputs ms = (stop_outcome ms1, ms')
    /\ running (self (agent_state ms')) = false
    /\ trace (agent_state ms')
       = (trace (agent_state ms)
          ++ [RunningAssign false; EmulatorCall stop])%list
    /\ exists t, console ms' = (console ms ++ t)%list /\ ~ In ThreadStart t.
Proof.
  intros E. rewrite main_run, E.
  destruct (manual_loop_keeps_agent inputs usual_speed_slow _ E)
    as (S1 & T1 & t1 & C1 & P1).
  cbn [after_banner agent_state console] in S1, T1, C1.
  exists (stopped_state ms1). split; [reflexivity |].
  cbn [stopped_state agent_state self running trace console].
  split; [reflexivity |]. split; [rewrite T1; reflexivity |].
  eexists. split; [rewrite C1, <- app_assoc; reflexivity |].
  cbn [app In]. intros [I | [I | I]]; try discriminate I.
  exact (no_thread_start_in_loop P1 I).
Qed.

(** *** The keys *)

Lemma manual_loop_other_key (key : string)
    (inputs : list (option string)) (speed : Speed) (ms : MainSt W) :
  manual_key key = false ->
  manual_loop (Some key :: inputs) speed ms
  = manual_loop (None :: inputs) speed ms.
Proof.
  unfold manual_key. intros H.
  apply orb_false_elim in H. destruct H as [H Hplus].
  apply orb_false_elim in H. destruct H as [H Heq].
  apply orb_false_elim in H. destruct H as [H8 Hminus].
  cbn [manual_loop]. rewrite H8, Hminus, Heq, Hplus. reflexivity.
Qed.

Lemma autonomous_loop_other_key (key : string)
    (inputs : list (option string)) (speed : Speed) (ms : MainSt W) :
  autonomous_key key = false ->
  autonomous_loop (Some key :: inputs) speed ms
  = autonomous_loop (None :: inputs) speed ms.
Proof.
  unfold autonomous_key. intros H.
  apply orb_false_elim in H. destruct H as [H Hplus].
  apply orb_false_elim in H. destruct H as [H Heq].
  apply orb_false_elim in H. destruct H as [H Hminus].
  cbn [autonomous_loop]. rewrite H, Hminus, Heq, Hplus. reflexivity.
Qed.

Lemma mbind_ext {A B} (m : MainM W A) (k1 k2 : A -> MainM W B) ms :
  (forall a ms1, k1 a ms1 = k2 a ms1) -> mbind m k1 ms = mbind m k2 ms.
Proof.
  intros H. rewrite !mbind_run. destruct (m ms) as [[a | e |] ms1];
    [apply H | reflexivity | reflexivity].
Qed.

(** X29. In the manual phase the keys other than [8], [-], [=] and [+]
    count for nothing: with them taken out of the console input, the phase
    makes the same ticks, sleeps and prints, ends in the same way and hands
    on the same speed.  So [q] does not quit before the handoff. *)
Theorem manual_loop_ignores_other_keys (inputs : list (option string)) :
  forall (speed : Speed) (ms : MainSt W),
    manual_loop (without_other_keys manual_key inputs) speed ms
    = (match fst (manual_loop inputs speed ms) with
       | Done (speed', rest) =>
           Done (speed', without_other_keys manual_key rest)
       | Raised e => Raised e
       | Pending => Pending
       end,
       snd (manual_loop inputs speed ms)).
Proof.
  induction inputs as [| input inputs IH]; intros speed ms; [reflexivity |].
  assert (Hstep : forall (i : option string) (ms0 : MainSt W),
    manual_loop (i :: without_other_keys manual_key inputs) speed ms0
    = (match fst (manual_loop (i :: inputs) speed ms0) with
       | Done (speed', rest) =>
           Done (speed', without_other_keys manual_key rest)
       | Raised e => Raised e
       | Pending => Pending
       end,
       snd (manual_loop (i :: inputs) speed ms0))).
  { intros i ms0. cbn [manual_loop]. rewrite !mbind_run.
    destruct (tick (frames_per_step speed) ms0) as [[[] | e |] ms1];
      [| reflexivity | reflexivity].
    rewrite !mbind_run.
    match goal with
    | |- context [match ?next ms1 with _ => _ end] =>
        destruct (next ms1) as [[[speed1 |] | e |] ms2]
    end; try reflexivity.
    rewrite !mbind_run.
    destruct (sleep (sleep_seconds speed1) ms2) as [[[] | e |] ms3];
      [apply IH | reflexivity | reflexivity]. }
  cbn [without_other_keys map]. fold (without_other_keys manual_key inputs).
  destruct input as [key |]; [| apply Hstep].
  destruct (manual_key key) eqn:K; [apply Hstep |].
  rewrite (@manual_loop_other_key key inputs speed ms K).
  apply Hstep.
Qed.

(** X30. In the loop of the main thread the keys other than [q], [Q],
    [-], [=] and [+] count for nothing: with them taken out of the console
    input the loop does the same and ends in the same way.  So the key [8]
    has no effect after the handoff: nothing in [main] gives the control
    back to the operator. *)
Theorem autonomous_loop_ignores_other_keys (inputs : list (option string)) :
  forall (speed : Speed) (ms : MainSt W),
    autonomous_loop (without_other_keys autonomous_key inputs) speed ms
    = autonomous_loop inputs speed ms.
Proof.
  induction inputs as [| input inputs IH]; intros speed ms; [reflexivity |].
  assert (Hstep : forall (i : option string) (ms0 : MainSt W),
    autonomous_loop (i :: without_other_keys autonomous_key inputs) speed ms0
    = autonomous_loop (i :: inputs) speed ms0).
  { intros i ms0. cbn [autonomous_loop].
    apply mbind_ext. intros _ ms1. apply mbind_ext. intros [speed1 |] ms2;
      [| reflexivity].
    apply mbind_ext. intros _ ms3. apply IH. }
  cbn [without_other_keys map]. fold (without_other_keys autonomous_key inputs).
  destruct input as [key |]; [| apply Hstep].
  destruct (autonomous_key key) eqn:K; [apply Hstep |].
  rewrite (@autonomous_loop_other_key key inputs speed ms K).
  apply Hstep.
Qed.

(** *** The thread *)

Lemma agent_call_run {A} (m : M W A) (ms : MainSt W) :
  agent_call m ms
  = (match fst (m (agent_state ms)) with
     | Ok a => Done a
     | Raise e => Raised e
     end,
     mkMainSt (snd (m (agent_state ms))) (console ms)).
Proof. unfold agent_call. destruct (m (agent_state ms)). reflexivity. Qed.

(** X27. Once [running] is cleared (by an interrupt inside a step, by
    [stop]), [ai_loop] does not end: each turn of its loop calls [run], which
    makes no step and calls [emulator.stop()] again, then sleeps [0.1]; the
    loop is still going after any number of turns.  Here [emulator.stop()]
    and the sleep are taken to return. *)
Theorem ai_loop_spins_when_stopped (steps : Z) (fuel : nat) :
  stop_returns ->
  (forall w : W, fst (time_sleep one_tenth w) = Ok tt) ->
  forall ms : MainSt W,
    running (self (agent_state ms)) = false ->
    exists ms',
      ai_loop fuel steps ms = (Pending, ms')
      /\ self (agent_state ms') = self (agent_state ms)
      /\ trace (agent_state ms')
         = (trace (agent_state ms) ++ repeat (EmulatorCall stop) fuel)%list
      /\ console ms' = (console ms ++ repeat (Sleep one_tenth) fuel)%list.
Proof.
  intros Hstop Hsleep. unfold ai_loop, mtry_except_all.
  induction fuel as [| fuel IH]; intros ms Hr.
  - cbn. exists ms. rewrite !app_nil_r. repeat split; reflexivity.
  - cbn [ai_loop_forever].
    rewrite mbind_run, agent_call_run, (run_stopped steps _ Hr), Hstop.
    cbn [fst snd].
    rewrite mbind_run. unfold sleep. rewrite host_call_run.
    cbn [agent_state world self trace console]. rewrite Hsleep.
    match goal with
    | |- context [ai_loop_forever fuel steps ?st] =>
        destruct (IH st Hr) as (ms' & Hrun & S1 & T1 & C1)
    end.
    destruct (ai_loop_forever fuel steps _) as [o ms''] eqn:E.
    destruct o as [[] | e |]; inversion Hrun; subst ms''.
    exists ms'. split; [reflexivity |].
    cbn [agent_state self trace console] in S1, T1, C1.
    split; [exact S1 |].
    split; [rewrite T1, <- app_assoc; reflexivity |].
    rewrite C1, <- app_assoc. reflexivity.
Qed.

(** X28. [ai_loop] ends at the first exception that leaves [run], and
    ends quietly: it returns, the state is the one [run] left (the agent
    still [running], the emulator not stopped when a step raised), and no
    further step is made. *)
Theorem ai_loop_ends_at_exception (steps : Z) (fuel : nat)
    (ms : MainSt W) (e : exn) (s1 : St W) :
  run steps (agent_state ms) = (Raise e, s1) ->
  ai_loop (S fuel) steps ms = (Done tt, mkMainSt s1 (console ms)).
Proof.
  intros H. unfold ai_loop, mtry_except_all. cbn [ai_loop_forever].
  rewrite mbind_run, agent_call_run, H. reflexivity.
Qed.

End MainProperties.

(* ===================================================================== *)
(** ** The properties on concrete runs *)
(* ===================================================================== *)

Import Scripted.

(** C5, at an unknown tool whose arguments hold an integer of 4301
    digits, under the default limit of 4300.  [json.loads] raises
    [ValueError], which is no [JSONDecodeError]: the exception leaves
    [_process_tool_call] before the name of the tool is looked at, and no
    report is returned. *)
Theorem unknown_tool_long_integer_raises :
  Json.loads long_integer_arguments
    = Json.OtherError
        (Exception "ValueError"
           "Exceeds the limit (4300 digits) for integer string conversion: value has 4301 digits; use sys.set_int_max_str_digits() to increase the limit")
  /\ _process_tool_call (mkToolCall "use_item" (Some long_integer_arguments))
       (start 30 (pallet_town []))
     = (Raise
          (Exception "ValueError"
             "Exceeds the limit (4300 digits) for integer string conversion: value has 4301 digits; use sys.set_int_max_str_digits() to increase the limit"),
        start 30 (pallet_town [])).
Proof. split; vm_compute; reflexivity. Qed.

(** The same name with arguments that decode: the call is reported. *)
Example scenario_unknown_tool :
  _process_tool_call (mkToolCall "use_item" None) (start 30 (pallet_town []))
    = (Ok "Error: Unknown tool 'use_item'", start 30 (pallet_town [])).
Proof.
  apply (unknown_tool_is_reported (mkToolCall "use_item" None)
           (arguments := JObj []) (start 30 (pallet_town [])));
    [discriminate | discriminate | reflexivity].
Qed.

Lemma press_failure_is_reported_witness :
  exists s',
    _process_tool_call press_call (start 30 broken_buttons)
      = (Ok "Error processing button press: emulator is not running", s')
    /\ message_history (self s') = message_history (new_agent 30).
Proof.
  destruct (press_failure_is_reported press_call
              (arguments :=
                 JObj [("buttons", JArr [JStr "a"; JStr "a"; JStr "start"])])
              (buttons := JArr [JStr "a"; JStr "a"; JStr "start"])
              (wait := JBool true)
              (e := Exception "RuntimeError" "emulator is not running")
              (start 30 broken_buttons) (w' := broken_buttons))
    as (s' & Hrun & _ & _ & _ & Hhist).
  - reflexivity.
  - vm_compute. reflexivity.
  - reflexivity.
  - reflexivity.
  - apply raises_in_press. reflexivity.
  - reflexivity.
  - exists s'. split; [exact Hrun | exact Hhist].
Defined.

Lemma navigate_to_without_path_witness :
  exists s',
    _process_tool_call navigate_call (start 30 (pallet_town []))
      = (Ok ("Navigation result: Navigation failed: blocked" ++ nl ++ nl
             ++ "Game state after navigation:" ++ nl ++ "Player: RED"), s')
    /\ trace s' =
         [EmulatorCall (find_path (JInt 2) (JInt 3));
          EmulatorCall get_screenshot; EmulatorCall get_state_from_memory;
          EmulatorCall get_collision_map].
Proof.
  destruct (navigate_to_without_path navigate_call
              (arguments := JObj [("row", JInt 2); ("col", JInt 3)])
              (row := JInt 2) (col := JInt 3) (status := "blocked")
              (path := None)
              (start 30 (pallet_town [])) (w1 := pallet_town []))
    as [_ Hreturns].
  - reflexivity.
  - vm_compute. reflexivity.
  - reflexivity.
  - reflexivity.
  - reflexivity.
  - left. reflexivity.
  - destruct (Hreturns (frame (pallet_town [])) "Player: RED" None
                (pallet_town []) (pallet_town []) (pallet_town [])
                eq_refl eq_refl eq_refl)
      as (s' & Hrun & _ & Htrace).
    exists s'. split; [exact Hrun | exact Htrace].
Defined.



Lemma step_phases_in_order_witness :
  exists t,
    trace (snd (run_step (one_press_step 30))) = t
    /\ all_before is_append is_dispatch t.
Proof.
  destruct (step_phases_in_order
              (one_press_step 30) (s' := snd (run_step (one_press_step 30))))
    as (img & w1 & mem & w2 & msg & w3 & s3 & dispatch & summary
        & _ & _ & _ & Htrace & _ & _ & _ & _ & Horder).
  - vm_compute. reflexivity.
  - eexists. split; [exact Htrace | exact Horder].
Defined.

(** C7 as stated fails on the code: in a step whose answer asks for a
    press, the step completes and the call to [press_buttons] comes after
    the two appends to the history (events 3 and 4 are the appends, event 5
    is the press). *)
Lemma dispatch_comes_after_append :
  fst (run_step (one_press_step 30)) = Ok tt
  /\ ~ all_before is_dispatch is_append
         (trace (snd (run_step (one_press_step 30)))).
Proof.
  split; [vm_compute; reflexivity |].
  intros H.
  assert (L : (5 < 3)%nat).
  { eapply (H 5%nat 3%nat).
    - vm_compute. reflexivity.
    - reflexivity.
    - vm_compute. reflexivity.
    - reflexivity. }
  lia.
Qed.

Lemma interrupted_run_stops_and_returns_count_witness :
  exists s',
    run 5 interrupted_second_step = (Ok 1, s')
    /\ running (self s') = false.
Proof.
  destruct (interrupted_run_stops_and_returns_count
              (num_steps := 5) (k := 0 + 1)
              (s0 := interrupted_second_step)
              (s := snd (run_step interrupted_second_step))
              (s1 := snd (run_step (snd (run_step interrupted_second_step))))
              (w2 := world (snd (run_step (snd (run_step interrupted_second_step))))))
    as (s' & Hrun & Hflag & _).
  - apply completed_next with (s := interrupted_second_step).
    + apply completed_none.
    + reflexivity.
    + vm_compute. reflexivity.
  - vm_compute. reflexivity.
  - lia.
  - vm_compute. reflexivity.
  - vm_compute. reflexivity.
  - exists s'. split; [exact Hrun | exact Hflag].
Defined.



(** *** The scenarios of the specification *)

(** A history of 58 turns and [max_history = 60]: the step appends two
    turns, reaches 60 and summarizes; one turn is left. *)
Example scenario_summary_at_sixty :
  let s := with_history 58 60
             (pallet_town [reply "Walking north." [];
                           reply "I left the house." []]) in
  fst (run_step s) = Ok tt
  /\ length (message_history (self (snd (run_step s)))) = 1%nat.
Proof. vm_compute. split; reflexivity. Qed.

(** Three presses, in the order given and with [wait=True]. *)
Example scenario_three_presses :
  let '(report, s') := _process_tool_call press_call (start 30 (pallet_town [])) in
  report = Ok ("Action: Pressed buttons: a, a, start" ++ nl
               ++ "Location: PALLET TOWN" ++ nl
               ++ "Game State:" ++ nl ++ "Player: RED")
  /\ hd_error (trace s')
     = Some (EmulatorCall
               (press_buttons (JArr [JStr "a"; JStr "a"; JStr "start"])
                              (JBool true))).
Proof. vm_compute. split; reflexivity. Qed.

(** A text that is not JSON: the press goes on with no button and
    [wait=True]. *)
Example scenario_undecodable_arguments :
  Json.loads "{oops" = Json.JSONDecodeError
  /\ hd_error (trace (snd (_process_tool_call
                            (mkToolCall "press_buttons" (Some "{oops"))
                            (start 30 (pallet_town [])))))
     = Some (EmulatorCall (press_buttons (JArr []) (JBool true))).
Proof. vm_compute. split; reflexivity. Qed.

(** A run of two steps with [max_history = 3]: each step summarizes. *)
Example scenario_two_steps :
  let s := start 3 (pallet_town [reply "Step one." [press_call];
                                 reply "Summary one." [];
                                 reply "Step two." [navigate_call];
                                 reply "Summary two." []]) in
  fst (run 2 s) = Ok 2
  /\ length (message_history (self (snd (run 2 s)))) = 1%nat
  /\ running (self (snd (run 2 s))) = true.
Proof. vm_compute. repeat split; reflexivity. Qed.

(** An interrupt between the appends and the summary: [run] returns 0 with
    [running] cleared, and the history keeps its three turns although
    [max_history] is 3; no step starts any more. *)
Example scenario_interrupted_before_summary :
  fst (run 5 (interrupted_press 3)) = Ok 0
  /\ running (self (snd (run 5 (interrupted_press 3)))) = false
  /\ length (message_history (self (snd (run 5 (interrupted_press 3))))) = 3%nat
  /\ fst (run 5 (snd (run 5 (interrupted_press 3)))) = Ok 0.
Proof. vm_compute. repeat split; reflexivity. Qed.

(** *** More concrete runs: the dispatcher and the steps *)

Lemma press_buttons_reports_state_witness :
  fst (_process_tool_call press_call (start 30 (pallet_town [])))
  = Ok ("Action: Pressed buttons: a, a, start" ++ nl
        ++ "Location: PALLET TOWN" ++ nl
        ++ "Game State:" ++ nl ++ "Player: RED").
Proof.
  rewrite (press_buttons_reports_state press_call ["a"; "a"; "start"]
             (arguments :=
                JObj [("buttons", JArr [JStr "a"; JStr "a"; JStr "start"])])
             (wait := JBool true) (mem := "Player: RED")
             (loc := Some "PALLET TOWN") (dlg := None) (cmap := None)
             (start 30 (pallet_town []))
             (w1 := pallet_town []) (w2 := pallet_town [])
             (w3 := pallet_town []) (w4 := pallet_town [])
             (w5 := pallet_town []));
    reflexivity.
Defined.

Lemma press_buttons_unjoinable_still_pressed_witness :
  _process_tool_call (mkToolCall "press_buttons" (Some buttons_one_number))
    (start 30 (pallet_town []))
  = (Ok "Error processing button press: sequence item 0: expected str instance, int found",
     mkSt (pallet_town []) (new_agent 30)
       [EmulatorCall (press_buttons (JArr [JInt 1]) (JBool true));
        EmulatorCall get_state_from_memory; EmulatorCall get_location;
        EmulatorCall get_active_dialog; EmulatorCall get_collision_map]).
Proof.
  apply (press_buttons_unjoinable_still_pressed
           (mkToolCall "press_buttons" (Some buttons_one_number))
           (arguments := JObj [("buttons", JArr [JInt 1])])
           (buttons := JArr [JInt 1]) (wait := JBool true)
           (e := Exception "TypeError"
                   "sequence item 0: expected str instance, int found")
           (mem := "Player: RED") (loc := Some "PALLET TOWN")
           (dlg := None) (cmap := None)
           (start 30 (pallet_town []))
           (w1 := pallet_town []) (w2 := pallet_town [])
           (w3 := pallet_town []) (w4 := pallet_town [])
           (w5 := pallet_town []));
    reflexivity.
Defined.

Lemma navigate_to_follows_path_witness :
  _process_tool_call navigate_call (start 30 (routed (Ok tt)))
  = (Ok ("Navigation result: Navigation successful: followed path with 2 steps. Status: success"
         ++ nl ++ nl ++ "Game state after navigation:" ++ nl ++ "Player: RED"),
     mkSt (routed (Ok tt)) (new_agent 30)
       [EmulatorCall (find_path (JInt 2) (JInt 3));
        direction_press "up"; direction_press "left";
        EmulatorCall get_screenshot; EmulatorCall get_state_from_memory;
        EmulatorCall get_collision_map]).
Proof.
  apply (navigate_to_follows_path navigate_call
           (arguments := JObj [("row", JInt 2); ("col", JInt 3)])
           (row := JInt 2) (col := JInt 3) (status := "success")
           (path := ["up"; "left"]) (img := mkImage 160 144 [])
           (mem := "Player: RED") (cmap := None)
           (start 30 (routed (Ok tt)))
           (w1 := routed (Ok tt)) (w2 := routed (Ok tt))
           (w3 := routed (Ok tt)) (w4 := routed (Ok tt))
           (w5 := routed (Ok tt)));
    try reflexivity.
  - discriminate.
  - apply presses_next with (w1 := routed (Ok tt)); [reflexivity |].
    apply presses_next with (w1 := routed (Ok tt)); [reflexivity |].
    apply presses_none.
Defined.

Lemma navigate_to_press_failure_propagates_witness :
  _process_tool_call navigate_call
    (start 30 (routed (Raise (Exception "RuntimeError" "emulator is not running"))))
  = (Raise (Exception "RuntimeError" "emulator is not running"),
     mkSt (routed (Raise (Exception "RuntimeError" "emulator is not running")))
       (new_agent 30)
       [EmulatorCall (find_path (JInt 2) (JInt 3)); direction_press "up"]).
Proof.
  apply (navigate_to_press_failure_propagates navigate_call
           (arguments := JObj [("row", JInt 2); ("col", JInt 3)])
           (row := JInt 2) (col := JInt 3) (status := "success")
           (pre := []) ["left"] "up"
           (e := Exception "RuntimeError" "emulator is not running")
           (start 30 (routed (Raise (Exception "RuntimeError" "emulator is not running"))))
           (w1 := routed (Raise (Exception "RuntimeError" "emulator is not running")))
           (w2 := routed (Raise (Exception "RuntimeError" "emulator is not running")))
           (w3 := routed (Raise (Exception "RuntimeError" "emulator is not running"))));
    try reflexivity.
  apply presses_none.
Defined.

Lemma navigate_to_non_object_arguments_raise_witness :
  _process_tool_call (mkToolCall "navigate_to" (Some "[]"))
    (start 30 (pallet_town []))
  = (Raise (Exception "AttributeError" "'list' object has no attribute 'get'"),
     start 30 (pallet_town [])).
Proof.
  apply (navigate_to_non_object_arguments_raise
           (mkToolCall "navigate_to" (Some "[]")) (v := JArr [])
           (start 30 (pallet_town [])));
    [reflexivity | reflexivity | discriminate].
Defined.

Lemma failed_dispatch_keeps_turns_witness :
  fst (run_step bad_arguments_step)
  = Raise (Exception "AttributeError" "'list' object has no attribute 'get'")
  /\ length (message_history (self (snd (run_step bad_arguments_step)))) = 3%nat.
Proof.
  destruct (failed_dispatch_keeps_turns bad_arguments_step
              (s3 := snd (run_step bad_arguments_step))
              (e := Exception "AttributeError"
                      "'list' object has no attribute 'get'")
              (img := frame (pallet_town [])) (w1 := world bad_arguments_step)
              (mem := "Player: RED") (w2 := world bad_arguments_step)
              (msg := mkMessage (Some (Str "Pressing."))
                        (Some [mkToolCall "press_buttons" (Some "[]")]))
              (w3 := pallet_town []))
    as (Hrun & Hhist & _).
  - reflexivity.
  - reflexivity.
  - reflexivity.
  - vm_compute. reflexivity.
  - split; [rewrite Hrun; reflexivity | rewrite Hhist; reflexivity].
Defined.

Lemma run_propagates_exception_witness :
  fst (run 3 bad_arguments_step)
  = Raise (Exception "AttributeError" "'list' object has no attribute 'get'")
  /\ running (self (snd (run 3 bad_arguments_step))) = true.
Proof.
  destruct (run_propagates_exception (num_steps := 3) (k := 0)
              (s0 := bad_arguments_step) (s := bad_arguments_step)
              (s1 := snd (run_step bad_arguments_step))
              (cls := "AttributeError")
              (msg := "'list' object has no attribute 'get'"))
    as (Hrun & Hflag).
  - apply completed_none.
  - reflexivity.
  - lia.
  - vm_compute. reflexivity.
  - rewrite Hrun. split; [reflexivity | exact Hflag].
Defined.

Lemma run_completes_all_steps_witness :
  fst (run 2 (one_press_step 30)) = Ok 2
  /\ running (self (snd (run 2 (one_press_step 30)))) = true.
Proof.
  destruct (run_completes_all_steps (num_steps := 1 + 1)
              (s0 := one_press_step 30)
              (s := snd (run_step (snd (run_step (one_press_step 30))))))
    as (Hrun & Hflag).
  - reflexivity.
  - apply completed_next with (s := snd (run_step (one_press_step 30))).
    + replace 1 with (0 + 1) by reflexivity.
      apply completed_next with (s := one_press_step 30).
      * apply completed_none.
      * reflexivity.
      * vm_compute. reflexivity.
    + reflexivity.
    + vm_compute. reflexivity.
  - change (1 + 1) with 2 in Hrun. rewrite Hrun.
    split; [reflexivity | exact Hflag].
Defined.

Lemma run_without_steps_witness :
  run (-3) (one_press_step 30) = (Ok 0, one_press_step 30).
Proof.
  apply (run_without_steps (num_steps := -3) (one_press_step 30));
    [lia | reflexivity].
Defined.

Lemma run_when_stopped_witness :
  run 5 halted
  = (Ok 0, mkSt (pallet_town []) (self halted) [EmulatorCall stop]).
Proof.
  rewrite (run_when_stopped 5 halted); reflexivity.
Defined.

Lemma history_keeps_user_and_assistant_turns_witness :
  Forall kept_role
    (message_history (self (snd (run_step (one_press_step 30))))).
Proof.
  apply (history_keeps_user_and_assistant_turns (max := 30)
           (s := snd (run_step (one_press_step 30)))).
  apply head_step with (s := one_press_step 30).
  - apply head_new.
  - reflexivity.
  - vm_compute. reflexivity.
Defined.

Lemma history_length_is_odd_witness :
  Nat.odd (length (message_history
                     (self (snd (run_step (one_press_step 30)))))) = true.
Proof.
  apply (history_length_is_odd (max := 30)
           (s := snd (run_step (one_press_step 30)))).
  - lia.
  - apply head_step with (s := one_press_step 30).
    + apply head_new.
    + reflexivity.
    + vm_compute. reflexivity.
Defined.

Lemma requests_are_bounded_witness :
  exists req t,
    trace (snd (run_step (one_press_step 3)))
    = ([EmulatorCall get_screenshot; EmulatorCall get_state_from_memory;
        ChatCompletion req] ++ t)%list
    /\ Z.of_nat (length (req_messages req)) <= 3 + 1.
Proof.
  destruct (requests_are_bounded (max := 3) (s := one_press_step 3)
              (s' := snd (run_step (one_press_step 3))))
    as (req & t & Htrace & Hreq & _).
  - lia.
  - apply head_new.
  - reflexivity.
  - vm_compute. reflexivity.
  - exists req, t. split; [exact Htrace | exact Hreq].
Defined.

Lemma summarize_history_all_or_nothing_witness :
  self (snd (summarize_history (start 30 (pallet_town [])))) = new_agent 30.
Proof.
  destruct (summarize_history_all_or_nothing (start 30 (pallet_town []))
              (s' := snd (summarize_history (start 30 (pallet_town []))))
              (e := Exception "APIConnectionError" "Connection error."))
    as (Hself & _).
  - vm_compute. reflexivity.
  - rewrite Hself. reflexivity.
Defined.

Lemma get_screenshot_base64_separates_files_witness :
  pil_save_png (saved_image (mkImage 2 1 [Byte.x4d; Byte.x61]) 0)
  = pil_save_png (saved_image (mkImage 2 1 [Byte.x4d; Byte.x61]) 1).
Proof.
  apply (get_screenshot_base64_separates_files
           (mkImage 2 1 [Byte.x4d; Byte.x61])
           (mkImage 2 1 [Byte.x4d; Byte.x61]) 0 1).
  vm_compute. reflexivity.
Defined.

Lemma get_screenshot_base64_without_upscale_witness :
  get_screenshot_base64 (mkImage 2 1 [Byte.x4d; Byte.x61]) 0
  = get_screenshot_base64 (mkImage 2 1 [Byte.x4d; Byte.x61]) 1.
Proof.
  destruct (get_screenshot_base64_without_upscale
              (img := mkImage 2 1 [Byte.x4d; Byte.x61]) (upscale := 0)
              [mkImage 2 1 [Byte.x4d; Byte.x61]] 0%nat) as (H0 & _);
    [lia | reflexivity |].
  rewrite H0. reflexivity.
Defined.

(** *** More concrete runs: the console program *)

Import ScriptedHost.

Lemma main_keeps_the_pace_witness :
  exists t,
    console (snd (main session (boot None None)))
    = (console (boot None None) ++ t)%list
    /\ Forall main_event t.
Proof.
  apply (main_keeps_the_pace session (boot None None)
           (ms' := snd (main session (boot None None)))
           (o := fst (main session (boot None None)))).
  vm_compute. reflexivity.
Defined.

Lemma manual_loop_needs_8_witness :
  fst (manual_loop [None; Some "q"; Some "="] (mkSpeed 1 one_sixtieth)
         (boot None None))
  <> Done (mkSpeed 5 one_sixtieth, []).
Proof.
  apply (manual_loop_needs_8 (inputs := [None; Some "q"; Some "="])).
  constructor; [discriminate |].
  constructor; [discriminate |].
  constructor; [discriminate |].
  constructor.
Defined.

Lemma main_returns_after_stop_witness :
  running (self (agent_state (snd (main session (boot None None))))) = false
  /\ trace (agent_state (snd (main session (boot None None))))
     = [RunningAssign false; EmulatorCall stop].
Proof.
  destruct (main_returns_after_stop session (boot None None)
              (ms' := snd (main session (boot None None))))
    as (Hflag & _ & Htrace).
  - vm_compute. reflexivity.
  - split; [exact Hflag | exact Htrace].
Defined.

Lemma main_stops_agent_after_handoff_witness :
  fst (main session (boot (Some 5%nat) None)) = Done tt
  /\ running (self (agent_state (snd (main session (boot (Some 5%nat) None)))))
     = false.
Proof.
  destruct (main_stops_agent_after_handoff session (boot (Some 5%nat) None)
              (ms' := snd (main session (boot (Some 5%nat) None)))
              (o := fst (main session (boot (Some 5%nat) None)))
              (console (snd (main session (boot (Some 5%nat) None)))))
    as (Hflag & _).
  - vm_compute. reflexivity.
  - vm_compute. discriminate.
  - reflexivity.
  - vm_compute. repeat (first [left; reflexivity | right]).
  - split; [vm_compute; reflexivity | exact Hflag].
Defined.

Lemma manual_exception_leaves_agent_running_witness :
  fst (main session
         (boot None (Some (Exception "RuntimeError" "emulator is not running"))))
  = Raised (Exception "RuntimeError" "emulator is not running").
Proof.
  destruct (manual_exception_leaves_agent_running session
              (boot None (Some (Exception "RuntimeError" "emulator is not running")))
              (ms1 := snd (manual_loop session (mkSpeed 1 one_sixtieth)
                             (after_banner
                                (boot None
                                   (Some (Exception "RuntimeError"
                                            "emulator is not running"))))))
              (cls := "RuntimeError") (msg := "emulator is not running"))
    as (Hmain & _).
  - vm_compute. reflexivity.
  - rewrite Hmain. reflexivity.
Defined.

Lemma manual_interrupt_stops_agent_witness :
  exists ms',
    main session (boot (Some 2%nat) None) = (Done tt, ms')
    /\ running (self (agent_state ms')) = false.
Proof.
  destruct (manual_interrupt_stops_agent session (boot (Some 2%nat) None)
              (ms1 := snd (manual_loop session (mkSpeed 1 one_sixtieth)
                             (after_banner (boot (Some 2%nat) None)))))
    as (ms' & Hmain & Hflag & _).
  - vm_compute. reflexivity.
  - exists ms'. split; [rewrite Hmain; reflexivity | exact Hflag].
Defined.

Import CalmHost.

Lemma manual_loop_hands_off_at_8_witness :
  exists speed' ms' t,
    manual_loop ([None; Some "="] ++ Some "8" :: [Some "q"])%list
      (mkSpeed 1 one_sixtieth) offline
    = (Done (speed', [Some "q"]), ms')
    /\ console ms' = (console offline ++ t)%list
    /\ length (filter is_tick t) = 3%nat
    /\ length (filter is_sleep t) = 2%nat
    /\ self (agent_state ms') = self (agent_state offline)
    /\ trace (agent_state ms') = trace (agent_state offline).
Proof.
  apply (manual_loop_hands_off_at_8 (before := [None; Some "="])
           [Some "q"]).
  - split; intros; reflexivity.
  - constructor; [discriminate |].
    constructor; [discriminate |].
    constructor.
Defined.

Lemma ai_loop_spins_when_stopped_witness :
  exists ms',
    ai_loop 3 10 stopped = (Pending, ms')
    /\ self (agent_state ms') = self (agent_state stopped)
    /\ trace (agent_state ms')
       = (trace (agent_state stopped) ++ repeat (EmulatorCall stop) 3)%list
    /\ console ms' = (console stopped ++ repeat (Sleep one_tenth) 3)%list.
Proof.
  apply (ai_loop_spins_when_stopped 10 3).
  - intro w. reflexivity.
  - intro w. reflexivity.
  - reflexivity.
Defined.

Lemma ai_loop_ends_at_exception_witness :
  fst (ai_loop 3 10 offline) = Done tt.
Proof.
  rewrite (ai_loop_ends_at_exception 10 2 offline
             (e := Exception "APIConnectionError" "Connection error.")
             (s1 := snd (run 10 (agent_state offline))));
    [reflexivity | vm_compute; reflexivity].
Defined.
